(** * The distributed tile framebuffer

    Source: modules/mpi/fb/DistributedFrameBuffer.cpp.

    A shallow embedding of the frame controller, the message router, the
    master-tile message builder and the master assembler of the distributed
    framebuffer, followed by the properties established about them.

    Conventions of the embedding.
    - C++ [int]/[int32] values are [Z] with the two's-complement wrap-around
      written out ([wrap_int32]); a conversion to [size_t] is [wrap_size_t].
      Byte sizes and byte offsets are exact [Z] values.
    - [float] values are IEEE-754 values ([spec_float]); comparisons are
      [SFleb] and [SFltb], so that NaN and the infinities behave as in C++.
    - Every member function that mutates the framebuffer is a computation in
      the monad [M]: it takes the object's state and returns the state it
      leaves behind together with either a result or the failure that ended
      it.  A C++ exception keeps the mutations made before the [throw].
    - Each member function is one atomic step: the mutexes of the source
      serialise the critical sections, the embedding runs them one after the
      other.  Tasks handed to [tasking::schedule] are kept in a queue
      ([scheduled]) and their body is the separate computation
      [scheduledTask].
    - Wall-clock telemetry ([queueTimes], [workTimes], the gather timers) is
      not part of the state. *)

From Stdlib Require Import ZArith String List Bool Lia.
From Stdlib Require Import Floats.SpecFloat.
From stdpp Require Import base option list gmap.

Set Default Proof Using "Type".

Local Open Scope Z_scope.

(** ** Machine integers and floats *)

Definition wrap_int32 (z : Z) : Z := (z + 2 ^ 31) mod 2 ^ 32 - 2 ^ 31.
Definition wrap_size_t (z : Z) : Z := z mod 2 ^ 64.
Definition INT32_MAX : Z := 2 ^ 31 - 1.

Definition float : Type := spec_float.
Definition inf : float := S754_infinity false.

(** C++ integer division truncates towards zero. *)
Definition cdiv (a b : Z) : Z := Z.quot a b.

Record vec2i : Type := mk_vec2i { vx : Z; vy : Z }.

(** ** Failures *)

Inductive Failure : Type :=
| RuntimeError (what : string)
| UndefinedBehaviour (what : string)
| Blocked (what : string).

(** ** Frame buffer formats and command tags *)

Inductive OSPFrameBufferFormat : Type :=
| OSP_FB_NONE
| OSP_FB_RGBA8
| OSP_FB_SRGBA
| OSP_FB_RGBA32F.

Definition fmt_is_none (fmt : OSPFrameBufferFormat) : bool :=
  match fmt with OSP_FB_NONE => true | _ => false end.

(** Modelled from the spec: the COMMANDTAG enumeration is declared in
    DistributedFrameBuffer.h, which is not among the sources; the values are
    the ones of the wire format (section 6): one bit per tag. *)
Definition MASTER_WRITE_TILE_I8 : Z := 1.
Definition MASTER_WRITE_TILE_F32 : Z := 2.
Definition MASTER_TILE_HAS_DEPTH : Z := 4.
Definition MASTER_TILE_HAS_AUX : Z := 8.
Definition WORKER_WRITE_TILE : Z := 16.
Definition CANCEL_RENDERING : Z := 32.

(** [command & TAG] used as a condition. *)
Definition has_tag (command tag : Z) : bool := negb (Z.land command tag =? 0).

(** ** Sizes of the message structs

    Modelled from the spec: the struct sizes follow the wire layout of
    section 6 ([command] 4 bytes, [coords] 8, [error] 4, then the pixels);
    [vec3f] is three floats. *)
Definition sizeof_float : Z := 4.
Definition sizeof_uint32 : Z := 4.
Definition sizeof_vec4f : Z := 16.
Definition sizeof_vec3f : Z := 12.
Definition sizeof_vec2i : Z := 8.
Definition sizeof_TileMessage : Z := 4.
Definition sizeof_MasterTileMessage : Z := 16.

Record vec3f : Type := mk_vec3f { v3x : float; v3y : float; v3z : float }.

(** A pixel of the colour buffer: [uint32] for the 8-bit formats, [vec4f]
    for the float format. *)
Inductive ColorT : Type :=
| Color_uint32 (rgba : Z)
| Color_vec4f (r g b a : float).

(** ** The tile model

    [TILE_SIZE] is a build-time constant that the sources do not fix.  The
    renderer's tile ([ospray::Tile]) and the per-tile compositing state of
    an owned tile ([TileData]: accum, variance, final, color, error and the
    fields of the compositing mode) belong to DistributedFrameBuffer_
    TileTypes, which is not among the sources; they are taken as parameters,
    with the operations the framebuffer calls on them:
    - [tile_region_lower]: [tile.region.lower];
    - [tile_newFrame]: [td->newFrame()], which may read [tileInstances];
    - [tile_process]: [td->process(tile)], the new state and whether the tile
      completed (in which case the tile calls [dfb->tileIsCompleted(this)]);
    - [tile_error]: [tile->error];
    - [DFB_writeTile]: the ISPC write-out kernel chosen by the format;
    - [pixelOp]: the pixel operator when one is installed ([preAccum],
      [postAccum]);
    - [TileError_refine]: [TileError::refine]. *)
Class TileModel : Type := mk_TileModel {
  TILE_SIZE : Z;
  Tile : Type;
  TileState : Type;
  tile_region_lower : Tile -> vec2i;
  tile_newFrame : list Z -> Z -> TileState -> TileState;
  tile_process : TileState -> Tile -> TileState * bool;
  tile_error : TileState -> float;
  DFB_writeTile : OSPFrameBufferFormat -> TileState -> TileState;
  pixelOp : option ((Tile -> Tile) * (TileState -> TileState));
  TileError_refine : list float -> float -> float
}.

(** The header and the size of the message that the constructor of
    [MasterTileMessageBuilder] allocates. *)
Record MasterTileHeader : Type := mk_MasterTileHeader {
  mt_size : Z;
  mt_command : Z;
  mt_coords : vec2i;
  mt_error : float;
  mt_pixelSize : Z
}.

(** ** The framebuffer's construction parameters and the MPI world *)

Record Config : Type := mk_Config {
  numPixels : vec2i;
  colorBufferFormat : OSPFrameBufferFormat;
  hasDepthBuffer : bool;
  hasAccumBuffer : bool;
  hasVarianceBuffer : bool;
  hasNormalBuffer : bool;
  hasAlbedoBuffer : bool;
  masterIsAWorker : bool;
  world_rank : Z;
  world_size : Z
}.

(** A store into one of the buffers of the local framebuffer, at pixel
    [(iix, iiy)] of the image. *)
Inductive Store : Type :=
| StoreColor (iix iiy : Z) (v : ColorT)
| StoreDepth (iix iiy : Z) (v : float)
| StoreNormal (iix iiy : Z) (v : vec3f)
| StoreAlbedo (iix iiy : Z) (v : vec3f).

(** What rank 0 contributes to the two broadcasts of [startNewFrame]. *)
Record BcastRoot : Type := mk_BcastRoot {
  root_tileErrorBuffer : list float;
  root_tileInstances : list Z
}.

Section Framebuffer.
Context {TM : TileModel}.
Variable cfg : Config.

Definition sizeof_MasterTileMessage_RGBA_I8 : Z :=
  sizeof_MasterTileMessage + sizeof_uint32 * (TILE_SIZE * TILE_SIZE).
Definition sizeof_MasterTileMessage_RGBA_F32 : Z :=
  sizeof_MasterTileMessage + sizeof_vec4f * (TILE_SIZE * TILE_SIZE).

(** [masterMsgSize(fmt, hasDepth)] *)
Definition masterMsgSize (fmt : OSPFrameBufferFormat) (hasDepth : bool)
  : Failure + Z :=
  match fmt with
  | OSP_FB_NONE =>
      inl (RuntimeError "Do not use per tile message for FB_NONE! (msgSize)")
  | OSP_FB_RGBA8 | OSP_FB_SRGBA =>
      let msgSize := sizeof_MasterTileMessage_RGBA_I8 in
      inr (if hasDepth
           then msgSize + sizeof_float * TILE_SIZE * TILE_SIZE
           else msgSize)
  | OSP_FB_RGBA32F =>
      let msgSize := sizeof_MasterTileMessage_RGBA_F32 in
      inr (if hasDepth
           then msgSize + sizeof_float * TILE_SIZE * TILE_SIZE
           else msgSize)
  end.


Definition MasterTileMessageBuilder
    (fmt : OSPFrameBufferFormat) (hasDepth hasNormal hasAlbedo : bool)
    (coords : vec2i) (error : float) : Failure + MasterTileHeader :=
  match masterMsgSize fmt hasDepth with
  | inl e => inl e
  | inr msgSize0 =>
      match
        match fmt with
        | OSP_FB_NONE =>
            inl (RuntimeError
                   "Do not use per tile message for FB_NONE! (msg ctor)")
        | OSP_FB_RGBA8 | OSP_FB_SRGBA =>
            inr (MASTER_WRITE_TILE_I8, sizeof_uint32)
        | OSP_FB_RGBA32F =>
            inr (MASTER_WRITE_TILE_F32, sizeof_vec4f)
        end
      with
      | inl e => inl e
      | inr (command0, pixelSize) =>
          (* AUX also includes depth *)
          let '(msgSize1, command1) :=
            if hasDepth || hasNormal || hasAlbedo
            then (msgSize0 + sizeof_float * TILE_SIZE * TILE_SIZE,
                  if hasDepth
                  then Z.lor command0 MASTER_TILE_HAS_DEPTH
                  else command0)
            else (msgSize0, command0) in
          let '(msgSize2, command2) :=
            if hasNormal || hasAlbedo
            then (msgSize1 + 2 * sizeof_vec3f * TILE_SIZE * TILE_SIZE,
                  Z.lor command1 MASTER_TILE_HAS_AUX)
            else (msgSize1, command1) in
          inr (mk_MasterTileHeader msgSize2 command2 coords error pixelSize)
      end
  end.


(** Modelled from the spec: the helpers of mpiCommon/MPICommon.h are not
    among the sources.  The master is rank 0, every other rank is a worker,
    there are R-1 workers and worker w has global rank w+1. *)
Definition globalRank : Z := world_rank cfg.
Definition numGlobalRanks : Z := world_size cfg.
Definition numWorkers : Z := wrap_int32 (world_size cfg - 1).
Definition globalRankFromWorkerRank (workerRankID : Z) : Z :=
  wrap_int32 (1 + workerRankID).
Definition masterRank : Z := 0.
Definition IamTheMaster : bool := world_rank cfg =? 0.
Definition IamAWorker : bool := 0 <? world_rank cfg.

(** Modelled from the spec: the tile grid of the FrameBuffer base class
    (not among the sources) is the image size divided by TILE_SIZE, rounded
    up. *)
Definition numTiles : vec2i :=
  mk_vec2i (cdiv (vx (numPixels cfg) + TILE_SIZE - 1) TILE_SIZE)
           (cdiv (vy (numPixels cfg) + TILE_SIZE - 1) TILE_SIZE).
Definition getTotalTiles : Z := vx numTiles * vy numTiles.

(** ** Tile ownership *)

(** [ownerIDFromTileID]: [%] on [size_t] after the usual conversions; a
    zero divisor is undefined behaviour. *)
Definition ownerIDFromTileID (tileID : Z) : Failure + Z :=
  if masterIsAWorker cfg
  then
    let d := wrap_size_t numGlobalRanks in
    if d =? 0 then inl (UndefinedBehaviour "modulo by zero")
    else inr (tileID mod d)
  else
    let d := wrap_size_t numWorkers in
    if d =? 0 then inl (UndefinedBehaviour "modulo by zero")
    else inr (wrap_size_t
                (globalRankFromWorkerRank (wrap_int32 (tileID mod d)))).

(** A tile descriptor; [td_data] holds the compositing state when the
    object is a [TileData] (a tile of this rank) and is [None] for a plain
    [TileDesc]. *)
Record TileDesc : Type := mk_TileDesc {
  td_begin : vec2i;
  td_tileID : Z;
  td_ownerID : Z;
  td_data : option TileState
}.

(** Modelled from the spec: [TileDesc::mine()] (declared in the header) is
    [ownerRank == thisRank]. *)
Definition mine (td : TileDesc) : bool := td_ownerID td =? globalRank.

(** The values a loop [for (v = 0; v < n; v += TILE_SIZE)] runs through;
    with TILE_SIZE >= 1 it ends within [n] rounds. *)
Fixpoint loop_starts (fuel : nat) (v n : Z) : list Z :=
  match fuel with
  | O => []
  | S fuel' =>
      if v <? n then v :: loop_starts fuel' (v + TILE_SIZE) n else []
  end.

(** [createTiles], for the initial compositing state [td0] that
    [createTile] gives a tile.  The result is [allTiles] and [myTiles];
    [myTiles] holds the positions in [allTiles] of the tiles of this rank
    (both vectors point to the same objects). *)
Fixpoint createTiles_row (td0 : vec2i -> Z -> TileState)
    (y : Z) (xs : list Z) (tileID : Z)
    (acc : list TileDesc * list nat)
  : Failure + (Z * (list TileDesc * list nat)) :=
  match xs with
  | [] => inr (tileID, acc)
  | x :: xs' =>
      match ownerIDFromTileID tileID with
      | inl e => inl e
      | inr ownerID =>
          let tileStart := mk_vec2i x y in
          let '(allTiles, myTiles) := acc in
          let acc' :=
            if ownerID =? wrap_size_t globalRank
            then (allTiles ++ [mk_TileDesc tileStart tileID ownerID
                                 (Some (td0 tileStart tileID))],
                  myTiles ++ [length allTiles])
            else (allTiles ++ [mk_TileDesc tileStart tileID ownerID None],
                  myTiles) in
          createTiles_row td0 y xs' (tileID + 1) acc'
      end
  end.

Fixpoint createTiles_rows (td0 : vec2i -> Z -> TileState)
    (ys : list Z) (tileID : Z) (acc : list TileDesc * list nat)
  : Failure + (list TileDesc * list nat) :=
  match ys with
  | [] => inr acc
  | y :: ys' =>
      let w := vx (numPixels cfg) in
      match createTiles_row td0 y (loop_starts (Z.to_nat w) 0 w) tileID acc
      with
      | inl e => inl e
      | inr (tileID', acc') => createTiles_rows td0 ys' tileID' acc'
      end
  end.

Definition createTiles (td0 : vec2i -> Z -> TileState)
  : Failure + (list TileDesc * list nat) :=
  let h := vy (numPixels cfg) in
  createTiles_rows td0 (loop_starts (Z.to_nat h) 0 h) 0 ([], []).

(** ** Messages *)

(** A message of the messaging layer: the [command] every [TileMessage]
    starts with and, when the message is as long as a [WriteTileMessage],
    its [coords] and [tile]. *)
Record Message : Type := mk_Message {
  msg_command : Z;
  msg_body : option (vec2i * Tile)
}.

(** A slot of the gathered result, read as [MasterTileMessage_FB<ColorT>]
    and, through the casts, as its [_Depth] and [_Depth_Aux] extensions.
    The arrays are indexed by [ix + iy * TILE_SIZE]. *)
Record MasterTileMessage_FB : Type := mk_MasterTileMessage_FB {
  m_command : Z;
  m_coords : vec2i;
  m_error : float;
  m_color : Z -> ColorT;
  m_depth : Z -> float;
  m_normal : Z -> vec3f;
  m_albedo : Z -> vec3f
}.

(** ** The local framebuffer on the master

    Each buffer is a flat array; a store at element index [i] is an insert
    at key [i]. *)
Record LocalFrameBuffer : Type := mk_LocalFrameBuffer {
  colorBuffer : gmap Z ColorT;
  depthBuffer : gmap Z float;
  normalBuffer : gmap Z vec3f;
  albedoBuffer : gmap Z vec3f
}.

(** ** The state of a DistributedFrameBuffer object

    [tileGatherBuffer] lists the copies made into the gather buffer (byte
    offset, message header, the tile the pixels were taken from);
    [tileGatherBuffer_size] is the buffer's size in bytes.  [scheduled] is
    the queue of [tasking::schedule]; [sent] lists the calls of
    [mpi::messaging::sendTo] (destination rank, message). *)
Record DFB : Type := mk_DFB {
  allTiles : list TileDesc;
  myTiles : list nat;
  tileAccumID : list Z;
  tileInstances : list Z;
  tileErrorBuffer : list float;
  localFBonMaster : option LocalFrameBuffer;
  frameIsActive : bool;
  frameIsDone : bool;
  cancelRendering : bool;
  numTilesCompletedThisFrame : Z;
  nextTileWrite : Z;
  tileGatherBuffer_size : Z;
  tileGatherBuffer : list (Z * MasterTileHeader * TileState);
  delayedMessage : list Message;
  tileIDs : list vec2i;
  tileErrors : list float;
  scheduled : list Message;
  sent : list (Z * Message)
}.

Definition set_allTiles (v : list TileDesc) (st : DFB) : DFB :=
  mk_DFB v (myTiles st) (tileAccumID st) (tileInstances st)
    (tileErrorBuffer st) (localFBonMaster st) (frameIsActive st)
    (frameIsDone st) (cancelRendering st) (numTilesCompletedThisFrame st)
    (nextTileWrite st) (tileGatherBuffer_size st) (tileGatherBuffer st)
    (delayedMessage st) (tileIDs st) (tileErrors st) (scheduled st)
    (sent st).
Definition set_myTiles (v : list nat) (st : DFB) : DFB :=
  mk_DFB (allTiles st) v (tileAccumID st) (tileInstances st)
    (tileErrorBuffer st) (localFBonMaster st) (frameIsActive st)
    (frameIsDone st) (cancelRendering st) (numTilesCompletedThisFrame st)
    (nextTileWrite st) (tileGatherBuffer_size st) (tileGatherBuffer st)
    (delayedMessage st) (tileIDs st) (tileErrors st) (scheduled st)
    (sent st).
Definition set_tileAccumID (v : list Z) (st : DFB) : DFB :=
  mk_DFB (allTiles st) (myTiles st) v (tileInstances st)
    (tileErrorBuffer st) (localFBonMaster st) (frameIsActive st)
    (frameIsDone st) (cancelRendering st) (numTilesCompletedThisFrame st)
    (nextTileWrite st) (tileGatherBuffer_size st) (tileGatherBuffer st)
    (delayedMessage st) (tileIDs st) (tileErrors st) (scheduled st)
    (sent st).
Definition set_tileInstances (v : list Z) (st : DFB) : DFB :=
  mk_DFB (allTiles st) (myTiles st) (tileAccumID st) v (tileErrorBuffer st)
    (localFBonMaster st) (frameIsActive st) (frameIsDone st)
    (cancelRendering st) (numTilesCompletedThisFrame st) (nextTileWrite st)
    (tileGatherBuffer_size st) (tileGatherBuffer st) (delayedMessage st)
    (tileIDs st) (tileErrors st) (scheduled st) (sent st).
Definition set_tileErrorBuffer (v : list float) (st : DFB) : DFB :=
  mk_DFB (allTiles st) (myTiles st) (tileAccumID st) (tileInstances st) v
    (localFBonMaster st) (frameIsActive st) (frameIsDone st)
    (cancelRendering st) (numTilesCompletedThisFrame st) (nextTileWrite st)
    (tileGatherBuffer_size st) (tileGatherBuffer st) (delayedMessage st)
    (tileIDs st) (tileErrors st) (scheduled st) (sent st).
Definition set_localFBonMaster (v : option LocalFrameBuffer) (st : DFB) : DFB :=
  mk_DFB (allTiles st) (myTiles st) (tileAccumID st) (tileInstances st)
    (tileErrorBuffer st) v (frameIsActive st) (frameIsDone st)
    (cancelRendering st) (numTilesCompletedThisFrame st) (nextTileWrite st)
    (tileGatherBuffer_size st) (tileGatherBuffer st) (delayedMessage st)
    (tileIDs st) (tileErrors st) (scheduled st) (sent st).
Definition set_frameIsActive (v : bool) (st : DFB) : DFB :=
  mk_DFB (allTiles st) (myTiles st) (tileAccumID st) (tileInstances st)
    (tileErrorBuffer st) (localFBonMaster st) v (frameIsDone st)
    (cancelRendering st) (numTilesCompletedThisFrame st) (nextTileWrite st)
    (tileGatherBuffer_size st) (tileGatherBuffer st) (delayedMessage st)
    (tileIDs st) (tileErrors st) (scheduled st) (sent st).
Definition set_frameIsDone (v : bool) (st : DFB) : DFB :=
  mk_DFB (allTiles st) (myTiles st) (tileAccumID st) (tileInstances st)
    (tileErrorBuffer st) (localFBonMaster st) (frameIsActive st) v
    (cancelRendering st) (numTilesCompletedThisFrame st) (nextTileWrite st)
    (tileGatherBuffer_size st) (tileGatherBuffer st) (delayedMessage st)
    (tileIDs st) (tileErrors st) (scheduled st) (sent st).
Definition set_cancelRendering (v : bool) (st : DFB) : DFB :=
  mk_DFB (allTiles st) (myTiles st) (tileAccumID st) (tileInstances st)
    (tileErrorBuffer st) (localFBonMaster st) (frameIsActive st)
    (frameIsDone st) v (numTilesCompletedThisFrame st) (nextTileWrite st)
    (tileGatherBuffer_size st) (tileGatherBuffer st) (delayedMessage st)
    (tileIDs st) (tileErrors st) (scheduled st) (sent st).
Definition set_numTilesCompletedThisFrame (v : Z) (st : DFB) : DFB :=
  mk_DFB (allTiles st) (myTiles st) (tileAccumID st) (tileInstances st)
    (tileErrorBuffer st) (localFBonMaster st) (frameIsActive st)
    (frameIsDone st) (cancelRendering st) v (nextTileWrite st)
    (tileGatherBuffer_size st) (tileGatherBuffer st) (delayedMessage st)
    (tileIDs st) (tileErrors st) (scheduled st) (sent st).
Definition set_nextTileWrite (v : Z) (st : DFB) : DFB :=
  mk_DFB (allTiles st) (myTiles st) (tileAccumID st) (tileInstances st)
    (tileErrorBuffer st) (localFBonMaster st) (frameIsActive st)
    (frameIsDone st) (cancelRendering st) (numTilesCompletedThisFrame st) v
    (tileGatherBuffer_size st) (tileGatherBuffer st) (delayedMessage st)
    (tileIDs st) (tileErrors st) (scheduled st) (sent st).
Definition set_tileGatherBuffer_size (v : Z) (st : DFB) : DFB :=
  mk_DFB (allTiles st) (myTiles st) (tileAccumID st) (tileInstances st)
    (tileErrorBuffer st) (localFBonMaster st) (frameIsActive st)
    (frameIsDone st) (cancelRendering st) (numTilesCompletedThisFrame st)
    (nextTileWrite st) v (tileGatherBuffer st) (delayedMessage st)
    (tileIDs st) (tileErrors st) (scheduled st) (sent st).
Definition set_tileGatherBuffer (v : list (Z * MasterTileHeader * TileState)) (st : DFB) : DFB :=
  mk_DFB (allTiles st) (myTiles st) (tileAccumID st) (tileInstances st)
    (tileErrorBuffer st) (localFBonMaster st) (frameIsActive st)
    (frameIsDone st) (cancelRendering st) (numTilesCompletedThisFrame st)
    (nextTileWrite st) (tileGatherBuffer_size st) v (delayedMessage st)
    (tileIDs st) (tileErrors st) (scheduled st) (sent st).
Definition set_delayedMessage (v : list Message) (st : DFB) : DFB :=
  mk_DFB (allTiles st) (myTiles st) (tileAccumID st) (tileInstances st)
    (tileErrorBuffer st) (localFBonMaster st) (frameIsActive st)
    (frameIsDone st) (cancelRendering st) (numTilesCompletedThisFrame st)
    (nextTileWrite st) (tileGatherBuffer_size st) (tileGatherBuffer st) v
    (tileIDs st) (tileErrors st) (scheduled st) (sent st).
Definition set_tileIDs (v : list vec2i) (st : DFB) : DFB :=
  mk_DFB (allTiles st) (myTiles st) (tileAccumID st) (tileInstances st)
    (tileErrorBuffer st) (localFBonMaster st) (frameIsActive st)
    (frameIsDone st) (cancelRendering st) (numTilesCompletedThisFrame st)
    (nextTileWrite st) (tileGatherBuffer_size st) (tileGatherBuffer st)
    (delayedMessage st) v (tileErrors st) (scheduled st) (sent st).
Definition set_tileErrors (v : list float) (st : DFB) : DFB :=
  mk_DFB (allTiles st) (myTiles st) (tileAccumID st) (tileInstances st)
    (tileErrorBuffer st) (localFBonMaster st) (frameIsActive st)
    (frameIsDone st) (cancelRendering st) (numTilesCompletedThisFrame st)
    (nextTileWrite st) (tileGatherBuffer_size st) (tileGatherBuffer st)
    (delayedMessage st) (tileIDs st) v (scheduled st) (sent st).
Definition set_scheduled (v : list Message) (st : DFB) : DFB :=
  mk_DFB (allTiles st) (myTiles st) (tileAccumID st) (tileInstances st)
    (tileErrorBuffer st) (localFBonMaster st) (frameIsActive st)
    (frameIsDone st) (cancelRendering st) (numTilesCompletedThisFrame st)
    (nextTileWrite st) (tileGatherBuffer_size st) (tileGatherBuffer st)
    (delayedMessage st) (tileIDs st) (tileErrors st) v (sent st).
Definition set_sent (v : list (Z * Message)) (st : DFB) : DFB :=
  mk_DFB (allTiles st) (myTiles st) (tileAccumID st) (tileInstances st)
    (tileErrorBuffer st) (localFBonMaster st) (frameIsActive st)
    (frameIsDone st) (cancelRendering st) (numTilesCompletedThisFrame st)
    (nextTileWrite st) (tileGatherBuffer_size st) (tileGatherBuffer st)
    (delayedMessage st) (tileIDs st) (tileErrors st) (scheduled st) v.

(** ** The monad of member functions *)

Definition M (A : Type) : Type := DFB -> (Failure + A) * DFB.

Definition ret {A} (a : A) : M A := fun st => (inr a, st).
Definition bind {A B} (m : M A) (f : A -> M B) : M B :=
  fun st =>
    match m st with
    | (inl e, st') => (inl e, st')
    | (inr a, st') => f a st'
    end.
Definition throw {A} (e : Failure) : M A := fun st => (inl e, st).
Definition get : M DFB := fun st => (inr st, st).
Definition modify (f : DFB -> DFB) : M unit := fun st => (inr tt, f st).
Definition lift {A} (r : Failure + A) : M A := fun st => (r, st).
Definition when (b : bool) (m : M unit) : M unit := if b then m else ret tt.

Notation "x <- m ;; k" := (bind m (fun x => k))
  (at level 100, m at next level, right associativity).
Notation "m ;; k" := (bind m (fun _ => k))
  (at level 100, right associativity).

Fixpoint forM_ {A} (l : list A) (body : A -> M unit) : M unit :=
  match l with
  | [] => ret tt
  | a :: l' => body a ;; forM_ l' body
  end.

(** ** Arrays indexed by a C++ integer *)

Definition lookupZ {A} (l : list A) (i : Z) : option A :=
  if i <? 0 then None else l !! Z.to_nat i.
Definition insertZ {A} (i : Z) (a : A) (l : list A) : list A :=
  if i <? 0 then l else <[Z.to_nat i := a]> l.

(** ** The tile error region

    Modelled from the spec: TileError (fb/TileError) is not among the sources.
    [tileErrorBuffer] holds one error per tile, indexed by
    [tile.y * numTiles.x + tile.x]; a tile without a stored error reads
    [+inf] (unknown); [update] records an error. *)
Definition TileError_tiles (st : DFB) : Z :=
  Z.of_nat (length (tileErrorBuffer st)).
Definition TileError_index (tile : vec2i) : Z :=
  wrap_int32 (vy tile * vx numTiles + vx tile).
Definition tileError (st : DFB) (tile : vec2i) : float :=
  default inf (lookupZ (tileErrorBuffer st) (TileError_index tile)).
Definition TileError_update (tile : vec2i) (err : float) : M unit :=
  modify (fun st =>
    set_tileErrorBuffer
      (insertZ (TileError_index tile) err (tileErrorBuffer st)) st).


(** [MPI_Bcast(buf, count, ..., 0, world)]: the root keeps its buffer, the
    other ranks receive the root's first [count] elements. *)
Definition Bcast {A} (buf : list A) (count : Z) (root : list A) : list A :=
  if IamTheMaster then buf
  else imap (fun i x =>
               if Z.of_nat i <? count then default x (root !! i) else x) buf.

(** [DistributedTileError::sync] *)
Definition DistributedTileError_sync (root : BcastRoot) : M unit :=
  st <- get ;;
  if TileError_tiles st <=? 0 then ret tt
  else modify (set_tileErrorBuffer
                 (Bcast (tileErrorBuffer st) (TileError_tiles st)
                        (root_tileErrorBuffer root))).

(** ** Frame controller *)

(** [closeCurrentFrame] *)
Definition closeCurrentFrame : M unit :=
  modify (set_frameIsActive false) ;;
  modify (set_frameIsDone true).

(** [isFrameComplete(numTiles)] *)
Definition isFrameComplete (n : Z) : M bool :=
  modify (fun st =>
    set_numTilesCompletedThisFrame (numTilesCompletedThisFrame st + n) st) ;;
  st <- get ;;
  if IamAWorker || (IamTheMaster && masterIsAWorker cfg)
  then ret (numTilesCompletedThisFrame st =? Z.of_nat (length (myTiles st)))
  else ret (numTilesCompletedThisFrame st =? wrap_int32 getTotalTiles).

(** [scheduleProcessing]: the task is queued; its body is [scheduledTask]
    below. *)
Definition scheduleProcessing (message : Message) : M unit :=
  modify (fun st => set_scheduled (scheduled st ++ [message]) st).

(** [tile->newFrame()] for every tile of [myTiles]. *)
Definition TileData_newFrame (i : nat) : M unit :=
  st <- get ;;
  match allTiles st !! i with
  | Some td =>
      match td_data td with
      | Some ts =>
          let ts' := tile_newFrame (tileInstances st) (td_tileID td) ts in
          modify (set_allTiles
                    (<[i := mk_TileDesc (td_begin td) (td_tileID td)
                              (td_ownerID td) (Some ts')]> (allTiles st)))
      | None => throw (UndefinedBehaviour "myTiles entry is not a TileData")
      end
  | None => throw (UndefinedBehaviour "dangling myTiles entry")
  end.

(** The loop of [startNewFrame] that counts the tiles that are already
    below the error threshold. *)
Definition countConvergedTile (errorThreshold : float) (t : Z) : M unit :=
  st <- get ;;
  if SFleb (tileError st (mk_vec2i t 0)) errorThreshold
  then
    match lookupZ (allTiles st) t with
    | Some td =>
        if mine td
        then modify (set_numTilesCompletedThisFrame
                       (numTilesCompletedThisFrame st + 1))
        else ret tt
    | None => throw (UndefinedBehaviour "allTiles[t] out of range")
    end
  else ret tt.

(** [startNewFrame(errorThreshold)].  The [assert(!frameIsActive)] that
    precedes the [throw] fails on the same condition. *)
Definition startNewFrame (root : BcastRoot) (errorThreshold : float)
  : M unit :=
  modify (set_nextTileWrite 0) ;;
  (if fmt_is_none (colorBufferFormat cfg) then ret tt
   else
     finalTileSize <-
       lift (masterMsgSize (colorBufferFormat cfg) (hasDepthBuffer cfg)) ;;
     modify (fun st =>
       set_tileGatherBuffer_size
         (Z.of_nat (length (myTiles st)) * finalTileSize) st)) ;;
  st <- get ;;
  if frameIsActive st
  then throw (RuntimeError
                "Attempt to start frame on already started frame!")
  else
    let _delayedMessage := delayedMessage st in
    modify (set_delayedMessage []) ;;
    DistributedTileError_sync root ;;
    modify (fun st =>
      set_tileInstances
        (Bcast (tileInstances st) getTotalTiles (root_tileInstances root))
        st) ;;
    when (fmt_is_none (colorBufferFormat cfg))
      (modify (set_tileIDs []) ;; modify (set_tileErrors [])) ;;
    forM_ (myTiles st) TileData_newFrame ;;
    modify (set_numTilesCompletedThisFrame 0) ;;
    when (hasAccumBuffer cfg)
      (forM_ (seqZ 0 getTotalTiles) (countConvergedTile errorThreshold)) ;;
    modify (set_frameIsDone false) ;;
    modify (set_frameIsActive true) ;;
    forM_ _delayedMessage scheduleProcessing ;;
    complete <- isFrameComplete 0 ;;
    when complete closeCurrentFrame.

(** [beginFrame] (the base class only advances its frame counter). *)
Definition beginFrame : M unit :=
  modify (set_cancelRendering false).

(** ** Mapping the master's image *)

(** [mapBuffer(channel)]; the result stands for the mapped memory. *)
Definition mapBuffer : M LocalFrameBuffer :=
  st <- get ;;
  match localFBonMaster st with
  | None =>
      throw (RuntimeError
        "#osp:mpi:dfb: tried to 'ospMap()' a frame buffer that doesn't have a host-side correspondence")
  | Some fb => ret fb
  end.

(** [unmap(mappedMem)] *)
Definition unmap : M unit :=
  st <- get ;;
  match localFBonMaster st with
  | None =>
      throw (RuntimeError
        "#osp:mpi:dfb: tried to 'ospUnmap()' a frame buffer that doesn't have a host-side color buffer")
  | Some _ => ret tt
  end.

(** ** Completion of a tile and the router *)

(** [getTileIDof(c)] and [getTileDescFor(c)]: the position in [allTiles]. *)
Definition getTileIDof (c : vec2i) : Z :=
  wrap_size_t
    (wrap_int32 (cdiv (vx c) TILE_SIZE
                 + wrap_int32 (cdiv (vy c) TILE_SIZE * vx numTiles))).

Definition getTileDescFor (c : vec2i) : M (nat * TileDesc) :=
  st <- get ;;
  match lookupZ (allTiles st) (getTileIDof c) with
  | Some td => ret (Z.to_nat (getTileIDof c), td)
  | None => throw (UndefinedBehaviour "allTiles index out of range")
  end.

Definition set_td_data (i : nat) (td : TileDesc) (ts : TileState)
  : M unit :=
  modify (fun st =>
    set_allTiles
      (<[i := mk_TileDesc (td_begin td) (td_tileID td) (td_ownerID td)
               (Some ts)]> (allTiles st)) st).

(** The two branches of [tileIsCompleted] (worker, master) run this same
    code: record the tile for the final gather, then count it. *)
Definition recordCompletedTile (td : TileDesc) (ts : TileState) : M unit :=
  (if fmt_is_none (colorBufferFormat cfg)
   then
     modify (fun st =>
       set_tileIDs
         (tileIDs st ++ [mk_vec2i (cdiv (vx (td_begin td)) TILE_SIZE)
                                  (cdiv (vy (td_begin td)) TILE_SIZE)])
         st) ;;
     modify (fun st => set_tileErrors (tileErrors st ++ [tile_error ts]) st)
   else
     tileMsg <-
       lift (MasterTileMessageBuilder (colorBufferFormat cfg)
               (hasDepthBuffer cfg) (hasNormalBuffer cfg)
               (hasAlbedoBuffer cfg) (td_begin td) (tile_error ts)) ;;
     st <- get ;;
     let n := nextTileWrite st in
     modify (set_nextTileWrite (n + mt_size tileMsg)) ;;
     if n + mt_size tileMsg <=? tileGatherBuffer_size st
     then modify (fun st =>
            set_tileGatherBuffer (tileGatherBuffer st ++ [(n, tileMsg, ts)])
              st)
     else throw (UndefinedBehaviour
                   "memcpy past the end of tileGatherBuffer")) ;;
  complete <- isFrameComplete 1 ;;
  when complete closeCurrentFrame.

(** [tileIsCompleted(tile)], for the tile at position [i] of [allTiles]. *)
Definition tileIsCompleted (i : nat) : M unit :=
  st <- get ;;
  match allTiles st !! i with
  | Some td =>
      match td_data td with
      | Some ts =>
          let ts1 :=
            match pixelOp with
            | Some (_, postAccum) => postAccum ts
            | None => ts
            end in
          let ts2 :=
            if fmt_is_none (colorBufferFormat cfg) then ts1
            else DFB_writeTile (colorBufferFormat cfg) ts1 in
          set_td_data i td ts2 ;;
          if IamAWorker
          then recordCompletedTile td ts2
          else recordCompletedTile td ts2
      | None => throw (UndefinedBehaviour "tile is not a TileData")
      end
  | None => throw (UndefinedBehaviour "dangling tile")
  end.

(** [td->process(tile)] on the tile at position [i]: the compositing step,
    then [tileIsCompleted] when the tile reports completion. *)
Definition TileData_process (i : nat) (tile : Tile) : M unit :=
  st <- get ;;
  match allTiles st !! i with
  | Some td =>
      match td_data td with
      | Some ts =>
          let '(ts', completed) := tile_process ts tile in
          set_td_data i td ts' ;;
          when completed (tileIsCompleted i)
      | None => throw (UndefinedBehaviour "tile is not a TileData")
      end
  | None => throw (UndefinedBehaviour "dangling tile")
  end.

(** [processMessage] for a [WriteTileMessage] *)
Definition processMessage_WriteTile (coords : vec2i) (tile : Tile)
  : M unit :=
  let tile' :=
    match pixelOp with
    | Some (preAccum, _) => preAccum tile
    | None => tile
    end in
  found <- getTileDescFor coords ;;
  TileData_process (fst found) tile'.

(** The task that [scheduleProcessing] hands to [tasking::schedule]. *)
Definition scheduledTask (message : Message) : M unit :=
  let command := msg_command message in
  if has_tag command MASTER_WRITE_TILE_I8
  then throw (RuntimeError "#dfb: master msg should not be scheduled!")
  else if has_tag command MASTER_WRITE_TILE_F32
  then throw (RuntimeError "#dfb: master msg should not be scheduled!")
  else if has_tag command WORKER_WRITE_TILE
  then
    match msg_body message with
    | Some (coords, tile) => processMessage_WriteTile coords tile
    | None => throw (UndefinedBehaviour "message shorter than its type")
    end
  else throw (RuntimeError "#dfb: unknown tile type processed!").

(** The tasking system runs the task at the head of the queue. *)
Definition runScheduled : M unit :=
  st <- get ;;
  match scheduled st with
  | [] => ret tt
  | message :: rest =>
      modify (set_scheduled rest) ;;
      scheduledTask message
  end.

(** [incoming(message)] *)
Definition incoming (message : Message) : M unit :=
  st <- get ;;
  if negb (frameIsActive st)
  then
    st' <- get ;;
    if negb (frameIsActive st')
    then modify (fun st =>
           set_delayedMessage (delayedMessage st ++ [message]) st)
    else scheduleProcessing message
  else scheduleProcessing message.

(** [mpi::messaging::sendTo(rank, myId, msg)] *)
Definition sendTo (rank : Z) (message : Message) : M unit :=
  modify (fun st => set_sent (sent st ++ [(rank, message)]) st).

(** [sendCancelRenderingMessage] *)
Definition sendCancelRenderingMessage : M unit :=
  let msg := mk_Message CANCEL_RENDERING None in
  forM_ (seqZ 0 numGlobalRanks) (fun rank => sendTo rank msg).

(** [setTile(tile)] *)
Definition setTile (tile : Tile) : M unit :=
  found <- getTileDescFor (tile_region_lower tile) ;;
  let '(i, tileDesc) := found in
  if negb (mine tileDesc)
  then
    let msg :=
      mk_Message WORKER_WRITE_TILE (Some (tile_region_lower tile, tile)) in
    let dstRank := wrap_int32 (td_ownerID tileDesc) in
    sendTo dstRank msg
  else
    st <- get ;;
    if negb (frameIsActive st)
    then throw (RuntimeError "#dfb: cannot setTile if frame is inactive!")
    else TileData_process i tile.

(** ** Master assembler *)


Definition store_x (s : Store) : Z :=
  match s with
  | StoreColor x _ _ | StoreDepth x _ _
  | StoreNormal x _ _ | StoreAlbedo x _ _ => x
  end.
Definition store_y (s : Store) : Z :=
  match s with
  | StoreColor _ y _ | StoreDepth _ y _
  | StoreNormal _ y _ | StoreAlbedo _ y _ => y
  end.

(** The element index [iix + iiy * numPixels.x]. *)
Definition pixel_index (iix iiy : Z) : Z :=
  wrap_int32 (iix + wrap_int32 (iiy * vx (numPixels cfg))).

Definition applyStore (fb : LocalFrameBuffer) (s : Store)
  : LocalFrameBuffer :=
  match s with
  | StoreColor x y v =>
      mk_LocalFrameBuffer (<[pixel_index x y := v]> (colorBuffer fb))
        (depthBuffer fb) (normalBuffer fb) (albedoBuffer fb)
  | StoreDepth x y v =>
      mk_LocalFrameBuffer (colorBuffer fb)
        (<[pixel_index x y := v]> (depthBuffer fb))
        (normalBuffer fb) (albedoBuffer fb)
  | StoreNormal x y v =>
      mk_LocalFrameBuffer (colorBuffer fb) (depthBuffer fb)
        (<[pixel_index x y := v]> (normalBuffer fb)) (albedoBuffer fb)
  | StoreAlbedo x y v =>
      mk_LocalFrameBuffer (colorBuffer fb) (depthBuffer fb)
        (normalBuffer fb) (<[pixel_index x y := v]> (albedoBuffer fb))
  end.

(** The body of the inner loop of the master-tile [processMessage], for
    pixel [(ix, iy)] of the tile; [depth] and [aux] tell whether the two
    pointers of the source are non-null. *)
Definition masterTile_pixel (msg : MasterTileMessage_FB)
    (depth aux : bool) (iy iiy ix : Z) : list Store :=
  let iix := wrap_int32 (ix + vx (m_coords msg)) in
  if vx (numPixels cfg) <=? iix then []
  else
    let src := ix + iy * TILE_SIZE in
    StoreColor iix iiy (m_color msg src)
    :: (if depth then [StoreDepth iix iiy (m_depth msg src)] else [])
    ++ (if aux
        then (if hasNormalBuffer cfg
              then [StoreNormal iix iiy (m_normal msg src)] else [])
             ++ (if hasAlbedoBuffer cfg
                 then [StoreAlbedo iix iiy (m_albedo msg src)] else [])
        else []).

(** The body of the outer loop, for row [iy] of the tile. *)
Definition masterTile_row (msg : MasterTileMessage_FB)
    (depth aux : bool) (iy : Z) : list Store :=
  let iiy := wrap_int32 (iy + vy (m_coords msg)) in
  if vy (numPixels cfg) <=? iiy then []
  else flat_map (masterTile_pixel msg depth aux iy iiy) (seqZ 0 TILE_SIZE).

(** All stores of one master-tile message, in program order. *)
Definition masterTile_stores (msg : MasterTileMessage_FB) : list Store :=
  let depth :=
    hasDepthBuffer cfg && has_tag (m_command msg) MASTER_TILE_HAS_DEPTH in
  let aux := has_tag (m_command msg) MASTER_TILE_HAS_AUX in
  flat_map (masterTile_row msg depth aux) (seqZ 0 TILE_SIZE).

(** [processMessage] for a master-tile message (both colour types). *)
Definition processMessage_MasterTile (msg : MasterTileMessage_FB)
  : M unit :=
  when (hasVarianceBuffer cfg)
    (let tileID := mk_vec2i (cdiv (vx (m_coords msg)) TILE_SIZE)
                            (cdiv (vy (m_coords msg)) TILE_SIZE) in
     if SFltb (m_error msg) inf
     then TileError_update tileID (m_error msg)
     else ret tt) ;;
  st <- get ;;
  match localFBonMaster st with
  | None => throw (UndefinedBehaviour "localFBonMaster is null")
  | Some fb =>
      modify (set_localFBonMaster
                (Some (foldl applyStore fb (masterTile_stores msg))))
  end.

(** ** Final gather

    The collectives and the compression are outside the embedding: the
    master's view of the gathered result is an argument, one entry per
    slot of [tileSize] bytes. *)

(** [gatherFinalTiles] *)
Definition gatherFinalTiles (tileGatherResult : list MasterTileMessage_FB)
  : M unit :=
  tileSize <-
    lift (masterMsgSize (colorBufferFormat cfg) (hasDepthBuffer cfg)) ;;
  when IamTheMaster
    (forM_ (seqZ 0 getTotalTiles) (fun tile =>
       match lookupZ tileGatherResult tile with
       | Some msg =>
           if has_tag (m_command msg) MASTER_WRITE_TILE_I8
           then processMessage_MasterTile msg
           else if has_tag (m_command msg) MASTER_WRITE_TILE_F32
           then processMessage_MasterTile msg
           else throw (RuntimeError
                         "#dfb: non-master tile in final gather!")
       | None => throw (UndefinedBehaviour "read past the gathered result")
       end)).

(** [gatherFinalErrors]: per rank, the tile ids and errors it sent. *)
Definition gatherFinalErrors (fromRanks : list (list (vec2i * float)))
  : M unit :=
  when IamTheMaster
    (forM_ fromRanks (fun fromRank =>
       forM_ fromRank (fun entry =>
         if SFltb (snd entry) inf
         then TileError_update (fst entry) (snd entry)
         else ret tt))).

(** [waitUntilFinished]: the wait on [frameDoneCond] returns only once
    [frameIsDone] holds. *)
Definition waitUntilFinished
    (tileGatherResult : list MasterTileMessage_FB)
    (fromRanks : list (list (vec2i * float))) : M unit :=
  st <- get ;;
  if negb (frameIsDone st)
  then throw (Blocked "waiting on frameDoneCond")
  else if negb (fmt_is_none (colorBufferFormat cfg))
  then gatherFinalTiles tileGatherResult
  else if hasVarianceBuffer cfg
  then gatherFinalErrors fromRanks
  else ret tt.

(** ** Accumulation counters *)

(** [accumID(tile)] *)
Definition accumID (tile : vec2i) : M Z :=
  if negb (hasAccumBuffer cfg) then ret 0
  else
    let tileNr := wrap_int32 (wrap_int32 (vy tile * vx numTiles) + vx tile) in
    st <- get ;;
    match lookupZ (tileInstances st) tileNr with
    | None => throw (UndefinedBehaviour "tileInstances index out of range")
    | Some n =>
        modify (fun st =>
          set_tileInstances
            (insertZ tileNr (wrap_int32 (n + 1)) (tileInstances st)) st) ;;
        match lookupZ (tileAccumID st) tileNr with
        | None => throw (UndefinedBehaviour "tileAccumID index out of range")
        | Some a => ret a
        end
    end.

(** [memset(a, 0, sizeof(int32) * n)] *)
Definition memset0 (n : Z) (a : list Z) : Failure + list Z :=
  if Z.of_nat (length a) <? n
  then inl (UndefinedBehaviour "memset past the end of the array")
  else inr (replicate (Z.to_nat n) 0 ++ drop (Z.to_nat n) a).

(** [++tileAccumID[i]] *)
Definition incrementAccumID (i : Z) : M unit :=
  st <- get ;;
  match lookupZ (tileAccumID st) i with
  | None => throw (UndefinedBehaviour "tileAccumID index out of range")
  | Some a =>
      modify (set_tileAccumID
                (insertZ i (wrap_int32 (a + 1)) (tileAccumID st)))
  end.

(** [endFrame(errorThreshold)] (the hook of the pixel operator has no
    effect on the framebuffer). *)
Definition endFrame (errorThreshold : float) : M float :=
  st <- get ;;
  cleared <- lift (memset0 getTotalTiles (tileInstances st)) ;;
  modify (set_tileInstances cleared) ;;
  forM_ (seqZ 0 getTotalTiles) incrementAccumID ;;
  st' <- get ;;
  if IamTheMaster
  then ret (TileError_refine (tileErrorBuffer st') errorThreshold)
  else ret inf.

(** ** Construction *)

(** The constructor: tiles created, counters zeroed, no error known, and a
    local framebuffer on the master unless the format is NONE. *)
Definition DistributedFrameBuffer (td0 : vec2i -> Z -> TileState)
  : Failure + DFB :=
  match createTiles td0 with
  | inl e => inl e
  | inr (all, my) =>
      let n := Z.to_nat getTotalTiles in
      inr (mk_DFB all my (replicate n 0) (replicate n 0)
             (if hasVarianceBuffer cfg then replicate n inf else [])
             (if IamTheMaster
                 && negb (fmt_is_none (colorBufferFormat cfg))
              then Some (mk_LocalFrameBuffer ∅ ∅ ∅ ∅) else None)
             false false false 0 0 0 [] [] [] [] [] [])
  end.

(** ** The operations of a frame

    What the host, the renderer, the transport and the tasking system may do
    to a framebuffer between [beginFrame] and [endFrame].  An operation that
    fails leaves the state it had reached. *)
Inductive FrameOp : Type :=
| Op_startNewFrame (root : BcastRoot) (errorThreshold : float)
| Op_setTile (tile : Tile)
| Op_incoming (message : Message)
| Op_runScheduled
| Op_accumID (tile : vec2i)
| Op_sendCancelRenderingMessage
| Op_waitUntilFinished (tileGatherResult : list MasterTileMessage_FB)
    (fromRanks : list (list (vec2i * float)))
| Op_mapBuffer
| Op_unmap.

Definition runOp (op : FrameOp) (st : DFB) : DFB :=
  match op with
  | Op_startNewFrame root errorThreshold =>
      snd (startNewFrame root errorThreshold st)
  | Op_setTile tile => snd (setTile tile st)
  | Op_incoming message => snd (incoming message st)
  | Op_runScheduled => snd (runScheduled st)
  | Op_accumID tile => snd (accumID tile st)
  | Op_sendCancelRenderingMessage => snd (sendCancelRenderingMessage st)
  | Op_waitUntilFinished tileGatherResult fromRanks =>
      snd (waitUntilFinished tileGatherResult fromRanks st)
  | Op_mapBuffer => snd (mapBuffer st)
  | Op_unmap => snd (unmap st)
  end.

Definition runOps (ops : list FrameOp) (st : DFB) : DFB :=
  foldl (fun st op => runOp op st) st ops.

(** The tiles of a state are well formed when [myTiles] points to
    [TileData] objects of [allTiles] and [allTiles] has a descriptor for
    every tile of the grid, as [createTiles] leaves them. *)
Definition tiles_wf (st : DFB) : Prop :=
  Forall (fun i => exists td ts,
            allTiles st !! i = Some td /\ td_data td = Some ts) (myTiles st)
  /\ getTotalTiles <= Z.of_nat (length (allTiles st)).

(** What a frame operation leaves alone: the accumulation counters, and the
    size of the instance counters. *)
Definition stable (st st' : DFB) : Prop :=
  tileAccumID st' = tileAccumID st
  /\ length (tileInstances st') = length (tileInstances st).

Definition keeps {A} (m : M A) : Prop := forall st, stable st (snd (m st)).

(** The number of elements of a list that pass a test. *)
Fixpoint countb {A} (p : A -> bool) (l : list A) : Z :=
  match l with
  | [] => 0
  | a :: l' => (if p a then 1 else 0) + countb p l'
  end.

(** [allTiles[t]->mine()] *)
Definition mine_at (st : DFB) (t : Z) : bool :=
  match lookupZ (allTiles st) t with
  | Some td => mine td
  | None => false
  end.

(** Tile [t] has a stored error at most the threshold and is a tile of this
    rank. *)
Definition convergedAndMine (st : DFB) (errorThreshold : float) (t : Z)
  : bool :=
  SFleb (tileError st (mk_vec2i t 0)) errorThreshold && mine_at st t.

(** The number of tiles of this rank whose stored error is at most the
    threshold. *)
Definition convergedTilesOfRank (st : DFB) (errorThreshold : float) : Z :=
  countb (convergedAndMine st errorThreshold) (seqZ 0 getTotalTiles).

(** [myTiles] has one entry for each tile of the grid that is [mine()], as
    [createTiles] fills it. *)
Definition myTiles_complete (st : DFB) : Prop :=
  Z.of_nat (length (myTiles st)) = countb (mine_at st) (seqZ 0 getTotalTiles).

(** Two descriptors of the same tile: they differ at most in the
    compositing state they carry. *)
Definition same_desc (td td' : TileDesc) : Prop :=
  td_begin td' = td_begin td
  /\ td_tileID td' = td_tileID td
  /\ td_ownerID td' = td_ownerID td
  /\ (is_Some (td_data td') <-> is_Some (td_data td)).

(** The error buffer after [DistributedTileError::sync]. *)
Definition syncedErrors (st : DFB) (root : BcastRoot) : list float :=
  if TileError_tiles st <=? 0 then tileErrorBuffer st
  else Bcast (tileErrorBuffer st) (TileError_tiles st)
             (root_tileErrorBuffer root).

(** The number of completed tiles at which [isFrameComplete] reports the
    frame complete. *)
Definition expectedTiles (st : DFB) : Z :=
  if IamAWorker || (IamTheMaster && masterIsAWorker cfg)
  then Z.of_nat (length (myTiles st))
  else wrap_int32 getTotalTiles.

(** What [createTiles] keeps true of the two vectors while it fills them. *)
Definition tiles_linked (acc : list TileDesc * list nat) : Prop :=
  Forall (fun i => exists td ts,
            acc.1 !! i = Some td /\ td_data td = Some ts) acc.2.

(** ** Readings of the gathered result *)

(** The slot holds a master-tile message: one of the two MASTER_WRITE_TILE
    bits is set in its command. *)
Definition is_master_tile (msg : MasterTileMessage_FB) : bool :=
  has_tag (m_command msg) MASTER_WRITE_TILE_I8
  || has_tag (m_command msg) MASTER_WRITE_TILE_F32.

(** The stores of the slots [ts] of the gathered result, in this order. *)
Definition gathered_stores (tileGatherResult : list MasterTileMessage_FB)
    (ts : list Z) : list Store :=
  flat_map (fun t => match lookupZ tileGatherResult t with
                     | Some msg => masterTile_stores msg
                     | None => []
                     end) ts.

(** ** What the framebuffer keeps true from one operation to the next *)

(** [tileIDs] and [tileErrors] have the same length. *)
Definition aligned (st : DFB) : Prop :=
  length (tileIDs st) = length (tileErrors st).

(** The frame is not at once active and done. *)
Definition not_active_and_done (st : DFB) : Prop :=
  frameIsActive st && frameIsDone st = false.

(** From [st] to [st']: the same tiles with the same origin, id and owner,
    the same [myTiles], the pending vectors still aligned, the frame still
    not both active and done, and a local framebuffer exactly when there was
    one. *)
Definition frame_inv (st st' : DFB) : Prop :=
  myTiles st' = myTiles st
  /\ Forall2 same_desc (allTiles st) (allTiles st')
  /\ (aligned st -> aligned st')
  /\ (not_active_and_done st -> not_active_and_done st')
  /\ (is_Some (localFBonMaster st') <-> is_Some (localFBonMaster st)).

Definition preserves {A} (m : M A) : Prop :=
  forall st, frame_inv st (snd (m st)).

(** One frame: [beginFrame], the operations, [endFrame]. *)
Definition runFrame (frame : list FrameOp * float) (st : DFB) : DFB :=
  snd (endFrame (snd frame) (runOps (fst frame) (snd (beginFrame st)))).

Definition runFrames (frames : list (list FrameOp * float)) (st : DFB)
  : DFB :=
  foldl (fun st frame => runFrame frame st) st frames.

(** ** The layout that [createTiles] gives the tiles *)

(** The positions, counted from [k], of the descriptors that carry a
    compositing state. *)
Definition has_data (td : TileDesc) : bool :=
  match td_data td with Some _ => true | None => false end.

Fixpoint owned_from (k : nat) (all : list TileDesc) : list nat :=
  match all with
  | [] => []
  | td :: rest =>
      (if has_data td then [k] else []) ++ owned_from (S k) rest
  end.

(** The descriptor of tile [j] of a grid with [nx] tiles per row. *)
Definition tile_at (nx j : Z) (td : TileDesc) : Prop :=
  td_tileID td = j
  /\ td_begin td = mk_vec2i (j mod nx * TILE_SIZE) (j / nx * TILE_SIZE)
  /\ ownerIDFromTileID j = inr (td_ownerID td)
  /\ (is_Some (td_data td) <-> td_ownerID td = wrap_size_t globalRank).

Definition tiles_laid_out (nx : Z) (acc : list TileDesc * list nat) : Prop :=
  (forall (j : nat) td, acc.1 !! j = Some td -> tile_at nx (Z.of_nat j) td)
  /\ acc.2 = owned_from 0 acc.1.

(** ** Completion of the tiles of a frame *)

(** The tile as [tileIsCompleted] records it: after the pixel operator's
    [postAccum] and the write-out kernel of the format. *)
Definition finishedTile (ts : TileState) : TileState :=
  let ts1 :=
    match pixelOp with
    | Some (_, postAccum) => postAccum ts
    | None => ts
    end in
  if fmt_is_none (colorBufferFormat cfg) then ts1
  else DFB_writeTile (colorBufferFormat cfg) ts1.

(** The tile at position [i] of [allTiles] is a [TileData]. *)
Definition is_TileData (st : DFB) (i : nat) : Prop :=
  exists td ts, allTiles st !! i = Some td /\ td_data td = Some ts.

(** [tileIsCompleted] for the tiles at the positions [l], one after the
    other. *)
Definition completeTiles (l : list nat) : M unit :=
  forM_ l tileIsCompleted.

(** The bytes that [MasterTileMessageBuilder] adds to the size that
    [masterMsgSize] returns. *)
Definition builderExtraBytes : Z :=
  (if hasDepthBuffer cfg || hasNormalBuffer cfg || hasAlbedoBuffer cfg
   then sizeof_float * TILE_SIZE * TILE_SIZE else 0)
  + (if hasNormalBuffer cfg || hasAlbedoBuffer cfg
     then 2 * sizeof_vec3f * TILE_SIZE * TILE_SIZE else 0).

(** The offsets of the entries of the gather buffer. *)
Definition gatherOffsets (st : DFB) : list Z :=
  map (fun entry => fst (fst entry)) (tileGatherBuffer st).

(** ** Assertions on the state *)

(** From a state with [P], the operation [m] ends, with a result or with a
    failure, in a state with [Q]. *)
Definition hoare {A} (P : DFB -> Prop) (m : M A) (Q : DFB -> Prop) : Prop :=
  forall st, P st -> Q (snd (m st)).

Definition invariant {A} (I : DFB -> Prop) (m : M A) : Prop := hoare I m I.

(** The gather buffer as [startNewFrame] sizes it: nothing written yet and
    one slot of [slot] bytes for each tile of the rank. *)
Definition gather_ready (slot : Z) (st : DFB) : Prop :=
  nextTileWrite st = 0
  /\ tileGatherBuffer_size st = Z.of_nat (length (myTiles st)) * slot.

(** What holds on a rank that owns no tile, as long as its frame is open:
    no descriptor is a [TileData] or [mine()], no tile has been counted and
    the frame is not done. *)
Definition idle (st : DFB) : Prop :=
  Forall (fun td => td_data td = None /\ mine td = false) (allTiles st)
  /\ numTilesCompletedThisFrame st = 0
  /\ frameIsDone st = false.

(** ** Frame modes

    The compositing mode decides the class of the tiles that [createTile]
    makes.  The constructors of the three classes belong to
    DistributedFrameBuffer_TileTypes, which is not among the sources: they
    are parameters, with the arguments [createTile] gives them. *)
Inductive FrameMode : Type :=
| WRITE_MULTIPLE
| ALPHA_BLEND
| Z_COMPOSITE.

Definition FrameMode_eqb (a b : FrameMode) : bool :=
  match a, b with
  | WRITE_MULTIPLE, WRITE_MULTIPLE => true
  | ALPHA_BLEND, ALPHA_BLEND => true
  | Z_COMPOSITE, Z_COMPOSITE => true
  | _, _ => false
  end.

Record TileClasses : Type := mk_TileClasses {
  WriteMultipleTile : vec2i -> Z -> Z -> TileState;
  AlphaBlendTile_simple : vec2i -> Z -> Z -> TileState;
  ZCompositeTile : vec2i -> Z -> Z -> Z -> TileState
}.

(** [createTile(xy, tileID, ownerID)] in the mode [frameMode]. *)
Definition createTile (classes : TileClasses) (frameMode : FrameMode)
    (xy : vec2i) (tileID ownerID : Z) : TileState :=
  match frameMode with
  | WRITE_MULTIPLE => WriteMultipleTile classes xy tileID ownerID
  | ALPHA_BLEND => AlphaBlendTile_simple classes xy tileID ownerID
  | Z_COMPOSITE =>
      let numWorkers :=
        wrap_size_t
          (if masterIsAWorker cfg then numGlobalRanks else numWorkers) in
      ZCompositeTile classes xy tileID ownerID numWorkers
  end.

(** The state [createTiles] gives a tile of this rank in the mode
    [frameMode]: it calls [createTile] with the owner it has just compared
    with [globalRank()]. *)
Definition newTile (classes : TileClasses) (frameMode : FrameMode)
    (xy : vec2i) (tileID : Z) : TileState :=
  createTile classes frameMode xy tileID (wrap_size_t globalRank).

(** [freeTiles] *)
Definition freeTiles : M unit :=
  modify (set_allTiles []) ;;
  modify (set_myTiles []).

(** [setFrameMode(newFrameMode)] on a framebuffer in the mode [frameMode];
    the result is the mode the framebuffer is in afterwards. *)
Definition setFrameMode (classes : TileClasses)
    (frameMode newFrameMode : FrameMode) : M FrameMode :=
  if FrameMode_eqb frameMode newFrameMode then ret frameMode
  else
    freeTiles ;;
    tiles <- lift (createTiles (newTile classes newFrameMode)) ;;
    modify (set_allTiles (fst tiles)) ;;
    modify (set_myTiles (snd tiles)) ;;
    ret newFrameMode.

(** The descriptor [td] as [createTiles] makes it again with the initial
    state [td0]. *)
Definition recreated (td0 : vec2i -> Z -> TileState) (td : TileDesc)
  : TileDesc :=
  mk_TileDesc (td_begin td) (td_tileID td) (td_ownerID td)
    (match td_data td with
     | Some _ => Some (td0 (td_begin td) (td_tileID td))
     | None => None
     end).

(** ** The layout of the final gather

    The byte counts and offsets that [gatherFinalTiles] computes on the
    master for the gather of the ranks' buffers into [tileGatherResult]:
    [tileBytesExpected[allTiles[i]->ownerID] += tileSize] for every tile,
    then the running sum [recvOffset] ([size_t]) of the counts ([int]). *)
Definition addTileBytes (tileSize : Z) (counts : Failure + list Z)
    (td : TileDesc) : Failure + list Z :=
  match counts with
  | inl e => inl e
  | inr counts =>
      match lookupZ counts (td_ownerID td) with
      | Some c =>
          inr (insertZ (td_ownerID td) (wrap_int32 (c + tileSize)) counts)
      | None =>
          inl (UndefinedBehaviour "tileBytesExpected index out of range")
      end
  end.

Definition tileBytesExpected (tileSize : Z) (all : list TileDesc)
  : Failure + list Z :=
  foldl (addTileBytes tileSize)
    (inr (replicate (Z.to_nat numGlobalRanks) 0)) all.

Fixpoint processOffsets (recvOffset : Z) (counts : list Z) : list Z * Z :=
  match counts with
  | [] => ([], recvOffset)
  | c :: rest =>
      let '(offsets, total) :=
        processOffsets (wrap_size_t (recvOffset + c)) rest in
      (wrap_int32 recvOffset :: offsets, total)
  end.

(** The sum of a list of byte counts. *)
Definition sumZ (l : list Z) : Z := foldr Z.add 0 l.

(** ** Clearing the framebuffer

    [clear(fbChannelFlags)] uses what the sources do not hold: the values
    of the channel flags (the API's OSP_FB_COLOR, OSP_FB_DEPTH and
    OSP_FB_ACCUM), the buffers inside a tile, here the four groups of
    [memset]s and loops of [clear] as functions on the state of a tile, and
    [TileError::clear].  They are parameters. *)
Record ClearModel : Type := mk_ClearModel {
  OSP_FB_COLOR : Z;
  OSP_FB_DEPTH : Z;
  OSP_FB_ACCUM : Z;
  tile_clearAccum : TileState -> TileState;
  tile_clearVariance : TileState -> TileState;
  tile_clearDepth : TileState -> TileState;
  tile_clearColor : TileState -> TileState;
  TileError_clear : list float -> list float
}.

(** The body of the loop of [clear] over [myTiles], on the state of one
    tile. *)
Definition clearTile (cm : ClearModel) (fbChannelFlags : Z)
    (ts : TileState) : TileState :=
  let ts1 :=
    if hasAccumBuffer cfg && has_tag fbChannelFlags (OSP_FB_ACCUM cm)
    then
      let ts0 := tile_clearAccum cm ts in
      if hasVarianceBuffer cfg then tile_clearVariance cm ts0 else ts0
    else ts in
  let ts2 :=
    if hasDepthBuffer cfg && has_tag fbChannelFlags (OSP_FB_DEPTH cm)
    then tile_clearDepth cm ts1
    else ts1 in
  if has_tag fbChannelFlags (OSP_FB_COLOR cm)
  then tile_clearColor cm ts2
  else ts2.

Definition clearMyTile (cm : ClearModel) (fbChannelFlags : Z) (i : nat)
  : M unit :=
  st <- get ;;
  match allTiles st !! i with
  | Some td =>
      match td_data td with
      | Some ts => set_td_data i td (clearTile cm fbChannelFlags ts)
      | None => throw (UndefinedBehaviour "myTiles entry is not a TileData")
      end
  | None => throw (UndefinedBehaviour "dangling myTiles entry")
  end.

(** [clear(fbChannelFlags)] (the frame counter it resets belongs to the
    base class). *)
Definition clear (cm : ClearModel) (fbChannelFlags : Z) : M unit :=
  st <- get ;;
  forM_ (myTiles st) (clearMyTile cm fbChannelFlags) ;;
  when (hasAccumBuffer cfg && has_tag fbChannelFlags (OSP_FB_ACCUM cm))
    (st <- get ;;
     cleared <- lift (memset0 getTotalTiles (tileAccumID st)) ;;
     modify (set_tileAccumID cleared) ;;
     modify (fun st =>
       set_tileErrorBuffer (TileError_clear cm (tileErrorBuffer st)) st)).

End Framebuffer.

(** ** Concrete instances *)

(** A small tile model: tiles of side 2, a renderer tile is its lower
    corner, the compositing state counts the contributions of the frame and
    a tile completes on its first contribution. *)
Definition demoTiles : TileModel :=
  mk_TileModel 2 vec2i Z (fun lower => lower) (fun _ _ _ => 0)
    (fun n _ => (n + 1, true)) (fun _ => S754_zero false) (fun _ ts => ts)
    None (fun _ _ => inf).

(** A 6x4 image (3x2 tiles of side 2, so 6 tiles) on 3 ranks, RGBA8 with
    depth and accumulation. *)
Definition demoConfig (masterIsAWorker : bool) (rank : Z) : Config :=
  mk_Config (mk_vec2i 6 4) OSP_FB_RGBA8 true true false false false
    masterIsAWorker rank 3.

Definition demoTile0 (lower : vec2i) (tileID : Z) : Z := 0.

(** The owners of the tiles that [createTiles] lays out. *)
Definition owners `{TileModel} (tiles : Failure + (list TileDesc * list nat))
  : option (list Z) :=
  match tiles with
  | inr (all, _) => Some (map td_ownerID all)
  | inl _ => None
  end.

Definition owned `{TileModel} (tiles : Failure + (list TileDesc * list nat))
  : option (list nat) :=
  match tiles with
  | inr (_, my) => Some my
  | inl _ => None
  end.

(** The framebuffer that the constructor builds for the small tile model
    (an empty object stands in where construction fails). *)
Definition emptyDFB : @DFB demoTiles :=
  mk_DFB [] [] [] [] [] None false false false 0 0 0 [] [] [] [] [] [].

Definition demoDFB (cfg : Config) : @DFB demoTiles :=
  match @DistributedFrameBuffer demoTiles cfg demoTile0 with
  | inr st => st
  | inl _ => emptyDFB
  end.

(** A 3x3 image: 2x2 tiles of side 2, the last row and column of tiles
    reach one pixel past the image.  The master (rank 0) of 2 ranks. *)
Definition clipConfig : Config :=
  mk_Config (mk_vec2i 3 3) OSP_FB_RGBA8 true true false false false false 0 2.

(** The master-tile message of the tile at pixel (2, 2), with depth. *)
Definition clipMessage : MasterTileMessage_FB :=
  mk_MasterTileMessage_FB (Z.lor MASTER_WRITE_TILE_I8 MASTER_TILE_HAS_DEPTH)
    (mk_vec2i 2 2) inf (fun i => Color_uint32 (100 + i))
    (fun _ => S754_zero false)
    (fun _ => mk_vec3f inf inf inf) (fun _ => mk_vec3f inf inf inf).


(** The message that [sendCancelRenderingMessage] sends. *)
Definition cancelMessage `{TileModel} : Message :=
  mk_Message CANCEL_RENDERING None.

(** One tile of side 2 on 2 ranks, owned by rank 1, the worker; no
    accumulation buffer. *)
Definition noAccumConfig : Config :=
  mk_Config (mk_vec2i 2 2) OSP_FB_RGBA8 false false false false false
    false 1 2.

(** The 6-tile image with a variance buffer, on worker rank 1. *)
Definition varianceConfig : Config :=
  mk_Config (mk_vec2i 6 4) OSP_FB_RGBA8 true true true false false false 1 3.

(** Errors in units of 1/64: 1/64, 3/64 and 5/64. *)
Definition err_1_64 : float := S754_finite false 1 (-6).
Definition err_3_64 : float := S754_finite false 3 (-6).
Definition err_5_64 : float := S754_finite false 5 (-6).

(** The broadcasts of the master: tile 2 is above 3/64, the others below. *)
Definition varianceRoot : BcastRoot :=
  mk_BcastRoot [err_1_64; err_1_64; err_5_64; err_1_64; err_1_64; err_1_64]
    [1; 1; 1; 1; 1; 1].

(** Two worker-tile messages, for the tiles at (0, 0) and (4, 0). *)
Definition writeMessage (x y : Z) : @Message demoTiles :=
  @mk_Message demoTiles WORKER_WRITE_TILE
    (Some (mk_vec2i x y, mk_vec2i x y)).

(** The renderer's tile at pixel (x, y). *)
Definition demoTile (x y : Z) : @Tile demoTiles := mk_vec2i x y.

(** The operations of one frame on worker rank 1. *)
Definition demoFrameOps : list (@FrameOp demoTiles) :=
  [Op_incoming (writeMessage 0 0);
   Op_startNewFrame varianceRoot err_3_64;
   Op_accumID (mk_vec2i 1 1);
   Op_runScheduled;
   Op_setTile (demoTile 4 0);
   Op_setTile (demoTile 2 0);
   Op_sendCancelRenderingMessage;
   Op_waitUntilFinished [] []].

(** The 6-tile image on the master, rank 0 of 3, which owns no tile. *)
Definition masterConfig : Config := demoConfig false 0.

(** A slot of the gathered result that was never written: all zero. *)
Definition zeroSlot : MasterTileMessage_FB :=
  mk_MasterTileMessage_FB 0 (mk_vec2i 0 0) (S754_zero false)
    (fun _ => Color_uint32 0) (fun _ => S754_zero false)
    (fun _ => mk_vec3f (S754_zero false) (S754_zero false) (S754_zero false))
    (fun _ => mk_vec3f (S754_zero false) (S754_zero false) (S754_zero false)).

(** The 6-tile image in the error-only format, on worker rank 1. *)
Definition noneConfig : Config :=
  mk_Config (mk_vec2i 6 4) OSP_FB_NONE false true true false false false 1 3.

(** Two frames on worker rank 1, each with the operations of [demoFrameOps]. *)
Definition demoFrames : list (list (@FrameOp demoTiles) * float) :=
  [(demoFrameOps, inf); (demoFrameOps, err_3_64)].

(** The broadcasts of a master that knows no error yet. *)
Definition freshRoot : BcastRoot :=
  mk_BcastRoot (replicate 6 inf) (replicate 6 0).

(** Worker rank 1 in the error-only format, its frame just started. *)
Definition activeNoneDFB : @DFB demoTiles :=
  snd (@startNewFrame demoTiles noneConfig freshRoot err_3_64
         (demoDFB noneConfig)).

(** The 6-tile image as RGBA8 without depth, on worker rank 1. *)
Definition plainConfig : Config :=
  mk_Config (mk_vec2i 6 4) OSP_FB_RGBA8 false true false false false false
    1 3.

(** Tile classes for the small tile model: a tile of each class starts from
    a state that names the class, 0, 10 or 20 plus the number of workers. *)
Definition demoClasses : @TileClasses demoTiles :=
  @mk_TileClasses demoTiles (fun _ _ _ => 0) (fun _ _ _ => 10)
    (fun _ _ _ numWorkers => 20 + numWorkers).

(** The same framebuffer parameters and MPI world, seen from rank [r]. *)
Definition onRank (r : Z) (cfg : Config) : Config :=
  mk_Config (numPixels cfg) (colorBufferFormat cfg) (hasDepthBuffer cfg)
    (hasAccumBuffer cfg) (hasVarianceBuffer cfg) (hasNormalBuffer cfg)
    (hasAlbedoBuffer cfg) (masterIsAWorker cfg) r (world_size cfg).

(** Worker rank 1 of the 6-tile RGBA8 image, its frame just started. *)
Definition activeDemoDFB : @DFB demoTiles :=
  snd (@startNewFrame demoTiles (demoConfig false 1) freshRoot err_3_64
         (demoDFB (demoConfig false 1))).

(** The flags of the API (color 1, depth 2, accumulation 4) and, for the
    small tile model, buffers that clear to 0 and errors that clear to
    [+inf]. *)
Definition demoClear : @ClearModel demoTiles :=
  @mk_ClearModel demoTiles 1 2 4 (fun _ => 0) (fun _ => 0) (fun ts => ts)
    (fun _ => 0) (map (fun _ => inf)).

(** * Properties *)

Lemma wrap_int32_small (z : Z) :
  - 2 ^ 31 <= z < 2 ^ 31 -> wrap_int32 z = z.
Proof.
  intros Hz. unfold wrap_int32.
  rewrite Z.mod_small by lia. lia.
Qed.

Lemma wrap_size_t_small (z : Z) :
  0 <= z < 2 ^ 64 -> wrap_size_t z = z.
Proof. intros Hz. unfold wrap_size_t. now rewrite Z.mod_small. Qed.

Section Properties.
Context {TM : TileModel}.
Variable cfg : Config.

(** *** Evaluation of the monad *)

Arguments lookupZ : simpl never.
Arguments insertZ : simpl never.
Arguments wrap_int32 : simpl never.
Arguments wrap_size_t : simpl never.
Arguments getTileIDof : simpl never.
Arguments getTotalTiles : simpl never.
Arguments numTiles : simpl never.
Arguments seqZ : simpl never.

(** One step of a member function: the monad's operations unfolded and the
    state threaded through. *)
Ltac mstep :=
  unfold bind, get, modify, ret, throw, lift, when; simpl.

(** *** Tile ownership *)

Lemma ownerIDFromTileID_master_is_worker (tileID : Z) :
  masterIsAWorker cfg = true ->
  1 <= world_size cfg < 2 ^ 31 ->
  ownerIDFromTileID cfg tileID = inr (tileID mod world_size cfg).
Proof.
  intros Hmw HR. unfold ownerIDFromTileID, numGlobalRanks. rewrite Hmw.
  rewrite wrap_size_t_small by lia.
  destruct (Z.eqb_spec (world_size cfg) 0) as [E|_]; [lia|reflexivity].
Qed.

Lemma ownerIDFromTileID_master_is_idle (tileID : Z) :
  masterIsAWorker cfg = false ->
  2 <= world_size cfg < 2 ^ 31 ->
  0 <= tileID ->
  ownerIDFromTileID cfg tileID
  = inr (1 + tileID mod (world_size cfg - 1))
  /\ globalRankFromWorkerRank (tileID mod (world_size cfg - 1))
     = 1 + tileID mod (world_size cfg - 1).
Proof.
  intros Hmw HR Ht. unfold ownerIDFromTileID, numWorkers. rewrite Hmw.
  rewrite (wrap_int32_small (world_size cfg - 1)) by lia.
  rewrite wrap_size_t_small by lia.
  destruct (Z.eqb_spec (world_size cfg - 1) 0) as [E|_]; [lia|].
  pose proof (Z.mod_pos_bound tileID (world_size cfg - 1)) as Hm.
  rewrite (wrap_int32_small (tileID mod _)) by lia.
  unfold globalRankFromWorkerRank.
  rewrite wrap_int32_small by lia.
  rewrite wrap_size_t_small by lia. split; reflexivity.
Qed.

(** C1.  [ownerIDFromTileID] assigns the tiles round-robin: with the master
    taking part the owner of tile [t] is [t mod R]; otherwise it is the global
    rank of worker [t mod (R-1)], which is never the master.  On the 6-tile
    image with 3 ranks [createTiles] gives the owners 1,2,1,2,1,2 and
    0,1,2,0,1,2 respectively, and the idle master owns no tile. *)
Theorem ownerIDFromTileID_round_robin (tileID : Z)
    (Htile : 0 <= tileID < 2 ^ 64)
    (Hranks : 1 <= world_size cfg < 2 ^ 31)
    (Hworkers : masterIsAWorker cfg = false -> 2 <= world_size cfg) :
  ownerIDFromTileID cfg tileID
  = inr (if masterIsAWorker cfg
         then tileID mod world_size cfg
         else globalRankFromWorkerRank (tileID mod (world_size cfg - 1)))
  /\ (masterIsAWorker cfg = false ->
      ownerIDFromTileID cfg tileID <> inr masterRank)
  /\ owners (@createTiles demoTiles (demoConfig false 1) demoTile0)
     = Some [1; 2; 1; 2; 1; 2]
  /\ owners (@createTiles demoTiles (demoConfig true 1) demoTile0)
     = Some [0; 1; 2; 0; 1; 2]
  /\ owned (@createTiles demoTiles (demoConfig false 0) demoTile0) = Some [].
Proof.
  split; [|split; [|repeat split; reflexivity]].
  - destruct (masterIsAWorker cfg) eqn:Hmw.
    + now apply ownerIDFromTileID_master_is_worker.
    + destruct (ownerIDFromTileID_master_is_idle tileID Hmw) as [-> ->];
        [split; [apply Hworkers; reflexivity | lia] | lia | reflexivity].
  - intros Hmw.
    destruct (ownerIDFromTileID_master_is_idle tileID Hmw) as [-> _];
      [split; [apply Hworkers; assumption | lia] | lia |].
    pose proof (Z.mod_pos_bound tileID (world_size cfg - 1)) as Hm.
    specialize (Hworkers Hmw). unfold masterRank.
    intros E. injection E as E. lia.
Qed.


(** *** Master tile messages *)

Lemma masterTile_pixel_clipped (msg : MasterTileMessage_FB)
    (depth aux : bool) (iy iiy ix : Z) (s : Store) :
  iiy < vy (numPixels cfg) ->
  In s (masterTile_pixel cfg msg depth aux iy iiy ix) ->
  store_x s < vx (numPixels cfg) /\ store_y s < vy (numPixels cfg).
Proof.
  intros Hy. unfold masterTile_pixel.
  destruct (Z.leb_spec (vx (numPixels cfg))
              (wrap_int32 (ix + vx (m_coords msg)))) as [|Hx];
    [intros []|].
  destruct depth, aux, (hasNormalBuffer cfg), (hasAlbedoBuffer cfg);
    simpl; intuition (subst; simpl; auto).
Qed.

Lemma masterTile_row_clipped (msg : MasterTileMessage_FB)
    (depth aux : bool) (iy : Z) (s : Store) :
  In s (masterTile_row cfg msg depth aux iy) ->
  store_x s < vx (numPixels cfg) /\ store_y s < vy (numPixels cfg).
Proof.
  unfold masterTile_row.
  destruct (Z.leb_spec (vy (numPixels cfg))
              (wrap_int32 (iy + vy (m_coords msg)))) as [|Hy];
    [intros []|].
  rewrite in_flat_map. intros (ix & _ & Hin).
  eapply masterTile_pixel_clipped; eauto.
Qed.

Lemma masterTile_stores_clipped (msg : MasterTileMessage_FB) (s : Store) :
  In s (masterTile_stores cfg msg) ->
  store_x s < vx (numPixels cfg) /\ store_y s < vy (numPixels cfg).
Proof.
  unfold masterTile_stores. rewrite in_flat_map. intros (iy & _ & Hin).
  eapply masterTile_row_clipped; eauto.
Qed.

(** C7.  The master assembler performs exactly the stores of
    [masterTile_stores] on the local framebuffer, and every one of them
    (colour, depth, normal, albedo) is at a pixel with [x < numPixels.x] and
    [y < numPixels.y]: the pixels of a tile that fall outside the image are
    skipped on both axes. *)
Theorem processMessage_MasterTile_clips_to_image
    (msg : MasterTileMessage_FB) (st : DFB) (fb : LocalFrameBuffer)
    (Hfb : localFBonMaster st = Some fb) :
  let stores := masterTile_stores cfg msg in
  (exists st',
     processMessage_MasterTile cfg msg st = (inr tt, st')
     /\ localFBonMaster st' = Some (foldl (applyStore cfg) fb stores))
  /\ Forall (fun s => store_x s < vx (numPixels cfg)
                      /\ store_y s < vy (numPixels cfg)) stores.
Proof.
  intros stores. split.
  - unfold processMessage_MasterTile, when.
    destruct (hasVarianceBuffer cfg); [destruct (SFltb (m_error msg) inf)|];
      cbn; rewrite Hfb; cbn; eexists; split; reflexivity.
  - apply Forall_forall. intros s Hs.
    apply (masterTile_stores_clipped msg s).
    now apply list_elem_of_In.
Qed.


(** *** What the operations of a frame leave alone *)

Lemma stable_refl (st : DFB) : stable st st.
Proof. split; reflexivity. Qed.

Lemma stable_trans (st1 st2 st3 : DFB) :
  stable st1 st2 -> stable st2 st3 -> stable st1 st3.
Proof. intros [E1 L1] [E2 L2]. split; congruence. Qed.

Lemma keeps_ret {A} (a : A) : keeps (ret a).
Proof. intros st. apply stable_refl. Qed.

Lemma keeps_throw {A} (e : Failure) : keeps (@throw _ A e).
Proof. intros st. apply stable_refl. Qed.

Lemma keeps_get : keeps get.
Proof. intros st. apply stable_refl. Qed.

Lemma keeps_lift {A} (r : Failure + A) : keeps (lift r).
Proof. intros st. apply stable_refl. Qed.

Lemma keeps_modify (f : DFB -> DFB) :
  (forall st, stable st (f st)) -> keeps (modify f).
Proof. intros Hf st. apply Hf. Qed.

Lemma keeps_bind {A B} (m : M A) (f : A -> M B) :
  keeps m -> (forall a, keeps (f a)) -> keeps (bind m f).
Proof.
  intros Hm Hf st. unfold bind.
  specialize (Hm st). destruct (m st) as [[e|a] st']; simpl in *.
  - exact Hm.
  - eapply stable_trans; [exact Hm | apply Hf].
Qed.

Lemma keeps_when (b : bool) (m : M unit) : keeps m -> keeps (when b m).
Proof. intros Hm. destruct b; [exact Hm | apply keeps_ret]. Qed.

Lemma keeps_forM_ {A} (l : list A) (body : A -> M unit) :
  (forall a, keeps (body a)) -> keeps (forM_ l body).
Proof.
  intros Hbody. induction l as [|a l IH]; simpl.
  - apply keeps_ret.
  - apply keeps_bind; [apply Hbody | intros _; exact IH].
Qed.

Lemma length_insertZ {A} (i : Z) (a : A) (l : list A) :
  length (insertZ i a l) = length l.
Proof.
  unfold insertZ. destruct (i <? 0); [reflexivity | apply length_insert].
Qed.

Lemma length_Bcast {A} (buf : list A) (count : Z) (root : list A) :
  length (Bcast cfg buf count root) = length buf.
Proof.
  unfold Bcast. destruct (IamTheMaster cfg); [reflexivity|].
  apply length_imap.
Qed.

Create HintDb keeps.

#[local] Hint Resolve keeps_ret keeps_throw keeps_get keeps_lift : keeps.

(** A state change that touches neither array. *)
Ltac stable_solve :=
  split; simpl; rewrite ?length_insertZ, ?length_Bcast; reflexivity.

Ltac keeps_step :=
  lazymatch goal with
  | |- keeps (let _ := _ in _) => cbv zeta
  | |- keeps (bind _ _) => apply keeps_bind; [|intros ?]
  | |- keeps (when _ _) => apply keeps_when
  | |- keeps (forM_ _ _) => apply keeps_forM_; intros ?
  | |- keeps (modify _) => apply keeps_modify; intros ?; stable_solve
  | |- keeps (match ?x with _ => _ end) => destruct x
  | |- keeps _ => solve [auto with keeps]
  end.

Ltac keeps_auto := repeat keeps_step.

Lemma keeps_TileError_update (tile : vec2i) (err : float) :
  keeps (TileError_update cfg tile err).
Proof. unfold TileError_update. keeps_auto. Qed.

Lemma keeps_DistributedTileError_sync (root : BcastRoot) :
  keeps (DistributedTileError_sync cfg root).
Proof. unfold DistributedTileError_sync. keeps_auto. Qed.

Lemma keeps_closeCurrentFrame : keeps closeCurrentFrame.
Proof. unfold closeCurrentFrame. keeps_auto. Qed.

Lemma keeps_isFrameComplete (n : Z) : keeps (isFrameComplete cfg n).
Proof. unfold isFrameComplete. keeps_auto. Qed.

Lemma keeps_scheduleProcessing (message : Message) :
  keeps (scheduleProcessing message).
Proof. unfold scheduleProcessing. keeps_auto. Qed.

Lemma keeps_TileData_newFrame (i : nat) : keeps (TileData_newFrame i).
Proof. unfold TileData_newFrame. keeps_auto. Qed.

Lemma keeps_countConvergedTile (errorThreshold : float) (t : Z) :
  keeps (countConvergedTile cfg errorThreshold t).
Proof. unfold countConvergedTile. keeps_auto. Qed.

#[local] Hint Resolve keeps_TileError_update keeps_DistributedTileError_sync
  keeps_closeCurrentFrame keeps_isFrameComplete keeps_scheduleProcessing
  keeps_TileData_newFrame keeps_countConvergedTile : keeps.

Lemma keeps_startNewFrame (root : BcastRoot) (errorThreshold : float) :
  keeps (startNewFrame cfg root errorThreshold).
Proof. unfold startNewFrame. keeps_auto. Qed.

Lemma keeps_mapBuffer : keeps mapBuffer.
Proof. unfold mapBuffer. keeps_auto. Qed.

Lemma keeps_unmap : keeps unmap.
Proof. unfold unmap. keeps_auto. Qed.

Lemma keeps_getTileDescFor (c : vec2i) : keeps (getTileDescFor cfg c).
Proof. unfold getTileDescFor. keeps_auto. Qed.

Lemma keeps_set_td_data (i : nat) (td : TileDesc) (ts : TileState) :
  keeps (set_td_data i td ts).
Proof. unfold set_td_data. keeps_auto. Qed.

#[local] Hint Resolve keeps_getTileDescFor keeps_set_td_data : keeps.

Lemma keeps_recordCompletedTile (td : TileDesc) (ts : TileState) :
  keeps (recordCompletedTile cfg td ts).
Proof. unfold recordCompletedTile. keeps_auto. Qed.

#[local] Hint Resolve keeps_recordCompletedTile : keeps.

Lemma keeps_tileIsCompleted (i : nat) : keeps (tileIsCompleted cfg i).
Proof. unfold tileIsCompleted. keeps_auto. Qed.

#[local] Hint Resolve keeps_tileIsCompleted : keeps.

Lemma keeps_TileData_process (i : nat) (tile : Tile) :
  keeps (TileData_process cfg i tile).
Proof. unfold TileData_process. keeps_auto. Qed.

#[local] Hint Resolve keeps_TileData_process : keeps.

Lemma keeps_processMessage_WriteTile (coords : vec2i) (tile : Tile) :
  keeps (processMessage_WriteTile cfg coords tile).
Proof. unfold processMessage_WriteTile. keeps_auto. Qed.

#[local] Hint Resolve keeps_processMessage_WriteTile : keeps.

Lemma keeps_scheduledTask (message : Message) :
  keeps (scheduledTask cfg message).
Proof. unfold scheduledTask. keeps_auto. Qed.

#[local] Hint Resolve keeps_scheduledTask : keeps.

Lemma keeps_runScheduled : keeps (runScheduled cfg).
Proof. unfold runScheduled. keeps_auto. Qed.

Lemma keeps_incoming (message : Message) : keeps (incoming message).
Proof. unfold incoming. keeps_auto. Qed.

Lemma keeps_sendTo (rank : Z) (message : Message) :
  keeps (sendTo rank message).
Proof. unfold sendTo. keeps_auto. Qed.

#[local] Hint Resolve keeps_sendTo : keeps.

Lemma keeps_sendCancelRenderingMessage :
  keeps (sendCancelRenderingMessage cfg).
Proof. unfold sendCancelRenderingMessage. keeps_auto. Qed.

Lemma keeps_setTile (tile : Tile) : keeps (setTile cfg tile).
Proof. unfold setTile. keeps_auto. Qed.

Lemma keeps_processMessage_MasterTile (msg : MasterTileMessage_FB) :
  keeps (processMessage_MasterTile cfg msg).
Proof. unfold processMessage_MasterTile. keeps_auto. Qed.

#[local] Hint Resolve keeps_processMessage_MasterTile : keeps.

Lemma keeps_gatherFinalTiles (tileGatherResult : list MasterTileMessage_FB) :
  keeps (gatherFinalTiles cfg tileGatherResult).
Proof. unfold gatherFinalTiles. keeps_auto. Qed.

Lemma keeps_gatherFinalErrors (fromRanks : list (list (vec2i * float))) :
  keeps (gatherFinalErrors cfg fromRanks).
Proof. unfold gatherFinalErrors. keeps_auto. Qed.

#[local] Hint Resolve keeps_gatherFinalTiles keeps_gatherFinalErrors : keeps.

Lemma keeps_waitUntilFinished
    (tileGatherResult : list MasterTileMessage_FB)
    (fromRanks : list (list (vec2i * float))) :
  keeps (waitUntilFinished cfg tileGatherResult fromRanks).
Proof. unfold waitUntilFinished. keeps_auto. Qed.

Lemma keeps_accumID (tile : vec2i) : keeps (accumID cfg tile).
Proof. unfold accumID. keeps_auto. Qed.

Lemma keeps_beginFrame : keeps beginFrame.
Proof. unfold beginFrame. keeps_auto. Qed.

Lemma runOp_stable (op : FrameOp) (st : DFB) : stable st (runOp cfg op st).
Proof.
  destruct op; simpl.
  - apply keeps_startNewFrame.
  - apply keeps_setTile.
  - apply keeps_incoming.
  - apply keeps_runScheduled.
  - apply keeps_accumID.
  - apply keeps_sendCancelRenderingMessage.
  - apply keeps_waitUntilFinished.
  - apply keeps_mapBuffer.
  - apply keeps_unmap.
Qed.

Lemma runOps_stable (ops : list FrameOp) (st : DFB) :
  stable st (runOps cfg ops st).
Proof.
  revert st. induction ops as [|op ops IH]; intros st; simpl.
  - apply stable_refl.
  - eapply stable_trans; [apply runOp_stable | apply IH].
Qed.

(** *** Arrays indexed by a C++ integer *)

Lemma lookupZ_insertZ_eq {A} (i : Z) (a : A) (l : list A) :
  0 <= i < Z.of_nat (length l) -> lookupZ (insertZ i a l) i = Some a.
Proof.
  intros Hi. unfold lookupZ, insertZ.
  destruct (Z.ltb_spec i 0); [lia|].
  apply list_lookup_insert_eq. lia.
Qed.

Lemma lookupZ_insertZ_ne {A} (i j : Z) (a : A) (l : list A) :
  i <> j -> lookupZ (insertZ i a l) j = lookupZ l j.
Proof.
  intros Hij. unfold lookupZ, insertZ.
  destruct (Z.ltb_spec j 0); [reflexivity|].
  destruct (Z.ltb_spec i 0); [reflexivity|].
  apply list_lookup_insert_ne. lia.
Qed.

Lemma lookupZ_is_Some {A} (i : Z) (l : list A) :
  0 <= i < Z.of_nat (length l) -> exists a, lookupZ l i = Some a.
Proof.
  intros Hi. unfold lookupZ. destruct (Z.ltb_spec i 0); [lia|].
  apply lookup_lt_is_Some_2. lia.
Qed.

(** *** The end of a frame *)

Lemma set_tileAccumID_idem (acc acc' : list Z) (st : DFB) :
  set_tileAccumID acc' (set_tileAccumID acc st) = set_tileAccumID acc' st.
Proof. reflexivity. Qed.

Lemma set_tileAccumID_same (st : DFB) :
  set_tileAccumID (tileAccumID st) st = st.
Proof. destruct st; reflexivity. Qed.

(** The loop [for (i = k; i < k + m; ++i) ++tileAccumID[i]]. *)
Lemma incrementAccumID_loop (m : nat) (k : Z) (st : DFB) :
  0 <= k ->
  k + Z.of_nat m <= Z.of_nat (length (tileAccumID st)) ->
  exists acc',
    forM_ (seqZ k (Z.of_nat m)) incrementAccumID st
    = (inr tt, set_tileAccumID acc' st)
    /\ length acc' = length (tileAccumID st)
    /\ forall i,
         lookupZ acc' i
         = if (k <=? i) && (i <? k + Z.of_nat m)
           then (fun a => wrap_int32 (a + 1)) <$> lookupZ (tileAccumID st) i
           else lookupZ (tileAccumID st) i.
Proof.
  revert k st. induction m as [|m IH]; intros k st Hk Hlen.
  - exists (tileAccumID st). rewrite set_tileAccumID_same.
    split; [reflexivity|]. split; [reflexivity|].
    intros i. destruct (Z.leb_spec k i), (Z.ltb_spec i (k + Z.of_nat 0));
      simpl; try reflexivity; lia.
  - rewrite seqZ_cons by lia.
    replace (Z.pred (Z.of_nat (S m))) with (Z.of_nat m) by lia.
    destruct (lookupZ_is_Some k (tileAccumID st)) as [a Ha]; [lia|].
    simpl forM_. unfold incrementAccumID at 1. mstep. rewrite Ha. simpl.
    set (st1 := set_tileAccumID _ st).
    destruct (IH (Z.succ k) st1) as (acc' & E & Hl & Hlook).
    { lia. }
    { subst st1. simpl. rewrite length_insertZ. lia. }
    exists acc'. rewrite E. subst st1. rewrite set_tileAccumID_idem.
    simpl in Hl, Hlook. rewrite length_insertZ in Hl.
    split; [reflexivity|]. split; [exact Hl|].
    intros i. rewrite Hlook.
    destruct (Z.eq_dec k i) as [<-|Hne].
    + rewrite lookupZ_insertZ_eq by lia. rewrite Ha.
      destruct (Z.leb_spec (Z.succ k) k), (Z.leb_spec k k),
        (Z.ltb_spec k (k + Z.of_nat (S m))); simpl; try reflexivity; lia.
    + rewrite lookupZ_insertZ_ne by exact Hne.
      destruct (Z.leb_spec (Z.succ k) i), (Z.leb_spec k i),
        (Z.ltb_spec i (Z.succ k + Z.of_nat m)),
        (Z.ltb_spec i (k + Z.of_nat (S m)));
        simpl; try reflexivity; lia.
Qed.

Lemma endFrame_increments (errorThreshold : float) (st : DFB) :
  0 <= getTotalTiles cfg ->
  getTotalTiles cfg <= Z.of_nat (length (tileInstances st)) ->
  getTotalTiles cfg <= Z.of_nat (length (tileAccumID st)) ->
  exists err st',
    endFrame cfg errorThreshold st = (inr err, st')
    /\ forall i,
         lookupZ (tileAccumID st') i
         = if (0 <=? i) && (i <? getTotalTiles cfg)
           then (fun a => wrap_int32 (a + 1)) <$> lookupZ (tileAccumID st) i
           else lookupZ (tileAccumID st) i.
Proof.
  intros Hpos Hinst Hacc. unfold endFrame, memset0. mstep.
  destruct (Z.ltb_spec (Z.of_nat (length (tileInstances st)))
              (getTotalTiles cfg)); [lia|]. simpl.
  set (st1 := set_tileInstances _ st).
  destruct (incrementAccumID_loop (Z.to_nat (getTotalTiles cfg)) 0 st1)
    as (acc' & E & _ & Hlook); [lia | subst st1; simpl; lia |].
  rewrite Z2Nat.id in E, Hlook by lia. rewrite E. simpl.
  destruct (IamTheMaster cfg); do 2 eexists; (split; [reflexivity|]);
    simpl; intros i; rewrite Hlook; reflexivity.
Qed.

(** C6.  [endFrame] adds exactly one to [tileAccumID[t]] for every tile [t],
    and no operation of the frame between [beginFrame] and [endFrame]
    ([startNewFrame], [setTile], [incoming], the scheduled tasks, [accumID],
    the cancel fan-out, [waitUntilFinished] with its gather, [mapBuffer],
    [unmap]) changes [tileAccumID]; so after [endFrame] the counter of every
    tile is one greater than before [beginFrame]. *)
Theorem endFrame_increments_accumID
    (ops : list FrameOp) (st : DFB) (errorThreshold : float) (t a : Z)
    (Hinst : getTotalTiles cfg <= Z.of_nat (length (tileInstances st)))
    (Hacc : getTotalTiles cfg <= Z.of_nat (length (tileAccumID st)))
    (Ht : 0 <= t < getTotalTiles cfg)
    (Ha : lookupZ (tileAccumID st) t = Some a)
    (Hrange : - 2 ^ 31 <= a < INT32_MAX) :
  let st1 := snd (beginFrame st) in
  let st2 := runOps cfg ops st1 in
  tileAccumID st1 = tileAccumID st
  /\ tileAccumID st2 = tileAccumID st
  /\ exists err st3,
       endFrame cfg errorThreshold st2 = (inr err, st3)
       /\ lookupZ (tileAccumID st3) t = Some (a + 1).
Proof.
  intros st1 st2.
  destruct (keeps_beginFrame st) as [E1 L1]. fold st1 in E1, L1.
  destruct (runOps_stable ops st1) as [E2 L2]. fold st2 in E2, L2.
  split; [exact E1|]. split; [congruence|].
  destruct (endFrame_increments errorThreshold st2) as (err & st3 & E & Hlook);
    [lia | lia | rewrite E2, E1; lia |].
  exists err, st3. split; [exact E|].
  rewrite Hlook, E2, E1, Ha.
  destruct (Z.leb_spec 0 t), (Z.ltb_spec t (getTotalTiles cfg)); try lia.
  simpl. rewrite wrap_int32_small by (unfold INT32_MAX in Hrange; lia).
  reflexivity.
Qed.

(** *** The start of a frame *)

Lemma same_desc_refl (td : TileDesc) : same_desc td td.
Proof. repeat split; auto. Qed.

Lemma same_desc_trans (td1 td2 td3 : TileDesc) :
  same_desc td1 td2 -> same_desc td2 td3 -> same_desc td1 td3.
Proof.
  intros (B1 & I1 & O1 & D1) (B2 & I2 & O2 & D2).
  repeat split; try congruence; intros H;
    [apply D1, D2 | apply D2, D1]; exact H.
Qed.

Lemma same_descs_refl (all : list TileDesc) : Forall2 same_desc all all.
Proof. induction all; constructor; auto using same_desc_refl. Qed.

Lemma same_descs_trans (l1 l2 l3 : list TileDesc) :
  Forall2 same_desc l1 l2 -> Forall2 same_desc l2 l3 ->
  Forall2 same_desc l1 l3.
Proof.
  intros H12. revert l3. induction H12 as [|a b l k Hab _ IH]; intros l3 H23.
  - inversion H23; constructor.
  - inversion H23 as [|b' c k' l3' Hbc Hrest]; subst.
    constructor; [eapply same_desc_trans; eauto | apply IH; exact Hrest].
Qed.

Lemma same_descs_insert (all : list TileDesc) (i : nat) (td td' : TileDesc) :
  all !! i = Some td -> same_desc td td' ->
  Forall2 same_desc all (<[i := td']> all).
Proof.
  revert i. induction all as [|x all IH]; intros i Hi Hs; [discriminate|].
  destruct i as [|i]; simpl in *.
  - injection Hi as ->. constructor; [exact Hs | apply same_descs_refl].
  - constructor; [apply same_desc_refl | apply IH; assumption].
Qed.

(** The loop over [myTiles] that calls [newFrame] on every tile. *)
Lemma TileData_newFrame_loop (l : list nat) (st : DFB) :
  Forall (fun i => exists td ts,
            allTiles st !! i = Some td /\ td_data td = Some ts) l ->
  exists all',
    forM_ l TileData_newFrame st = (inr tt, set_allTiles all' st)
    /\ Forall2 same_desc (allTiles st) all'.
Proof.
  revert st. induction l as [|i l IH]; intros st Hl.
  - exists (allTiles st). split; [|apply same_descs_refl].
    destruct st; reflexivity.
  - inversion Hl as [|? ? (td & ts & Hi & Hd) Hrest]; subst.
    simpl forM_. unfold TileData_newFrame at 1. mstep. rewrite Hi, Hd. simpl.
    set (td' := mk_TileDesc _ _ _ _).
    set (st1 := set_allTiles _ st).
    assert (Hsame : same_desc td td').
    { subst td'. repeat split; simpl; intros _; [rewrite Hd|]; eauto. }
    destruct (IH st1) as (all' & E & HF).
    { apply Forall_forall. intros j Hj.
      rewrite Forall_forall in Hrest.
      destruct (Hrest j Hj) as (tj & sj & Hj1 & Hj2).
      subst st1. simpl. destruct (decide (i = j)) as [->|Hne].
      - exists td'. eexists. split.
        + apply list_lookup_insert_eq. eapply lookup_lt_Some; eauto.
        + subst td'. reflexivity.
      - exists tj, sj. split; [|exact Hj2].
        rewrite list_lookup_insert_ne by exact Hne. exact Hj1. }
    exists all'. rewrite E. split; [reflexivity|].
    eapply same_descs_trans; [|exact HF].
    subst st1. simpl. eapply same_descs_insert; eauto.
Qed.

Lemma set_numTilesCompletedThisFrame_same (st : DFB) :
  set_numTilesCompletedThisFrame (numTilesCompletedThisFrame st) st = st.
Proof. destruct st; reflexivity. Qed.

(** The loop that counts the tiles already below the threshold. *)
Lemma countConvergedTile_loop (errorThreshold : float) (ts : list Z)
    (st : DFB) :
  Forall (fun t => is_Some (lookupZ (allTiles st) t)) ts ->
  forM_ ts (countConvergedTile cfg errorThreshold) st
  = (inr tt,
     set_numTilesCompletedThisFrame
       (numTilesCompletedThisFrame st
        + countb (convergedAndMine cfg st errorThreshold) ts) st).
Proof.
  revert st. induction ts as [|t ts IH]; intros st Hts.
  - simpl. rewrite Z.add_0_r, set_numTilesCompletedThisFrame_same.
    reflexivity.
  - inversion Hts as [|? ? [td Htd] Hrest]; subst.
    simpl forM_. unfold countConvergedTile at 1. mstep.
    unfold convergedAndMine at 1, mine_at. rewrite Htd.
    destruct (SFleb (tileError cfg st (mk_vec2i t 0)) errorThreshold);
      [destruct (mine cfg td)|]; simpl.
    + rewrite IH by exact Hrest. simpl. rewrite Z.add_assoc. reflexivity.
    + rewrite IH by exact Hrest. reflexivity.
    + rewrite IH by exact Hrest. reflexivity.
Qed.

(** The loop that replays the delayed messages. *)
Lemma scheduleProcessing_loop (msgs : list Message) (st : DFB) :
  forM_ msgs scheduleProcessing st
  = (inr tt, set_scheduled (scheduled st ++ msgs) st).
Proof.
  revert st. induction msgs as [|m msgs IH]; intros st.
  - simpl. rewrite app_nil_r. destruct st; reflexivity.
  - simpl forM_. unfold scheduleProcessing at 1. mstep. rewrite IH. simpl.
    rewrite <- app_assoc. reflexivity.
Qed.

Lemma DistributedTileError_sync_eq (root : BcastRoot) (st : DFB) :
  DistributedTileError_sync cfg root st
  = (inr tt, set_tileErrorBuffer (syncedErrors cfg st root) st).
Proof.
  unfold DistributedTileError_sync, syncedErrors. mstep.
  destruct (TileError_tiles st <=? 0); [|reflexivity].
  destruct st; reflexivity.
Qed.

Lemma isFrameComplete_eq (n : Z) (st : DFB) :
  isFrameComplete cfg n st
  = (inr (numTilesCompletedThisFrame st + n =? expectedTiles cfg st),
     set_numTilesCompletedThisFrame (numTilesCompletedThisFrame st + n) st).
Proof.
  unfold isFrameComplete, expectedTiles. mstep.
  destruct (IamAWorker cfg || IamTheMaster cfg && masterIsAWorker cfg);
    reflexivity.
Qed.

Lemma lookupZ_seqZ_is_Some {A} (l : list A) (n : Z) :
  n <= Z.of_nat (length l) ->
  Forall (fun t => is_Some (lookupZ l t)) (seqZ 0 n).
Proof.
  intros Hn. apply Forall_forall. intros t Ht.
  apply elem_of_seqZ in Ht.
  destruct (lookupZ_is_Some t l) as [a Ha]; [lia|]. rewrite Ha. eauto.
Qed.

Lemma convergedTilesOfRank_ext (st1 st2 : DFB) (errorThreshold : float) :
  tileErrorBuffer st1 = tileErrorBuffer st2 ->
  allTiles st1 = allTiles st2 ->
  convergedTilesOfRank cfg st1 errorThreshold
  = convergedTilesOfRank cfg st2 errorThreshold.
Proof.
  unfold convergedTilesOfRank, convergedAndMine, tileError, mine_at.
  intros -> ->. reflexivity.
Qed.

(** [startNewFrame] on a frame that is not active and on well-formed tiles:
    it returns, and leaves the following state. *)
Lemma startNewFrame_inactive (root : BcastRoot) (errorThreshold : float)
    (st : DFB) :
  frameIsActive st = false ->
  tiles_wf cfg st ->
  exists st',
    startNewFrame cfg root errorThreshold st = (inr tt, st')
    /\ scheduled st' = scheduled st ++ delayedMessage st
    /\ delayedMessage st' = []
    /\ myTiles st' = myTiles st
    /\ Forall2 same_desc (allTiles st) (allTiles st')
    /\ tileErrorBuffer st' = syncedErrors cfg st root
    /\ numTilesCompletedThisFrame st'
       = (if hasAccumBuffer cfg
          then convergedTilesOfRank cfg st' errorThreshold else 0)
    /\ frameIsDone st'
       = (numTilesCompletedThisFrame st' =? expectedTiles cfg st')
    /\ frameIsActive st' = negb (frameIsDone st').
Proof.
  intros Hin [Hmy Hall]. unfold startNewFrame.
  destruct (colorBufferFormat cfg) eqn:Hfmt, (hasDepthBuffer cfg) eqn:Hd.
  all: mstep; rewrite Hin; simpl; rewrite DistributedTileError_sync_eq; simpl.
  all: match goal with
       | |- context [forM_ ?l TileData_newFrame ?s] =>
           destruct (TileData_newFrame_loop l s)
             as (all' & E & HF); [exact Hmy | rewrite E; clear E; simpl]
       end.
  all: simpl in HF; pose proof (Forall2_length _ _ _ HF) as Hlen.
  all: destruct (hasAccumBuffer cfg) eqn:Hacc.
  all: try (rewrite countConvergedTile_loop
              by (apply lookupZ_seqZ_is_Some; simpl; lia)).
  all: simpl; rewrite scheduleProcessing_loop; simpl;
       rewrite isFrameComplete_eq; simpl.
  all: match goal with
       | |- context [if ?c then closeCurrentFrame else ret tt] =>
           destruct c eqn:Hc
       end.
  all: unfold expectedTiles in Hc; simpl in Hc.
  all: eexists; (split; [reflexivity|]); simpl.
  all: repeat split.
  all: lazymatch goal with
       | |- Forall2 _ _ _ => exact HF
       | |- _ = convergedTilesOfRank _ _ _ =>
           rewrite Z.add_0_r;
           apply convergedTilesOfRank_ext; simpl; reflexivity
       | |- _ => unfold expectedTiles; simpl; symmetry; exact Hc
       end.
Qed.

Lemma incoming_inactive_loop (msgs : list Message) (st : DFB) :
  frameIsActive st = false ->
  forM_ msgs incoming st
  = (inr tt, set_delayedMessage (delayedMessage st ++ msgs) st).
Proof.
  revert st. induction msgs as [|m msgs IH]; intros st Hin.
  - simpl. rewrite app_nil_r. destruct st; reflexivity.
  - simpl forM_. unfold incoming at 1. mstep. rewrite Hin. simpl.
    rewrite Hin. simpl. rewrite IH by exact Hin. simpl.
    rewrite <- app_assoc. reflexivity.
Qed.

(** C2.  Messages passed to [incoming] while the frame is not active are
    appended to [delayedMessage], in order, and nothing else of the state
    changes (none is scheduled or applied).  The [startNewFrame] that then
    activates the frame returns, empties the queue and schedules exactly the
    queued messages, each once, in the order in which they were queued. *)
Theorem delayed_messages_are_replayed_in_order
    (msgs : list Message) (st : DFB)
    (root : BcastRoot) (errorThreshold : float)
    (Hinactive : frameIsActive st = false)
    (Hwf : tiles_wf cfg st) :
  let buffered := forM_ msgs incoming st in
  buffered = (inr tt, set_delayedMessage (delayedMessage st ++ msgs) st)
  /\ exists st',
       startNewFrame cfg root errorThreshold (snd buffered) = (inr tt, st')
       /\ scheduled st' = scheduled st ++ (delayedMessage st ++ msgs)
       /\ delayedMessage st' = [].
Proof.
  intros buffered. subst buffered.
  rewrite incoming_inactive_loop by exact Hinactive.
  split; [reflexivity|]. simpl.
  destruct (startNewFrame_inactive root errorThreshold
              (set_delayedMessage (delayedMessage st ++ msgs) st))
    as (st' & E & Hs & Hd & _); [exact Hinactive | exact Hwf |].
  exists st'. split; [exact E|]. split; [exact Hs | exact Hd].
Qed.

(** *** Tiles that are converged when the frame starts *)

Lemma SFleb_inf (e : float) : e <> S754_nan -> SFleb e inf = true.
Proof. destruct e as [s|s| |s m x]; try destruct s; easy. Qed.

Lemma Forall_Bcast {A} (P : A -> Prop) (buf : list A) (count : Z)
    (root : list A) :
  Forall P buf -> Forall P root -> Forall P (Bcast cfg buf count root).
Proof.
  intros Hbuf Hroot. unfold Bcast. destruct (IamTheMaster cfg); [exact Hbuf|].
  apply Forall_lookup. intros i y. rewrite list_lookup_imap.
  destruct (buf !! i) as [x|] eqn:Hx; [|discriminate]. simpl.
  intros [= <-]. rewrite Forall_lookup in Hbuf, Hroot.
  destruct (Z.of_nat i <? count); [|eauto].
  destruct (root !! i) as [r|] eqn:Hr; simpl; eauto.
Qed.

Lemma tileError_not_nan (st : DFB) (tile : vec2i) :
  Forall (fun e => e <> S754_nan) (tileErrorBuffer st) ->
  tileError cfg st tile <> S754_nan.
Proof.
  intros Hbuf. unfold tileError, lookupZ.
  destruct (TileError_index cfg tile <? 0); [discriminate|].
  destruct (tileErrorBuffer st !! _) as [e|] eqn:He; simpl; [|discriminate].
  rewrite Forall_lookup in Hbuf. eauto.
Qed.

Lemma countb_ext {A} (p q : A -> bool) (l : list A) :
  (forall a, p a = q a) -> countb p l = countb q l.
Proof.
  intros Hpq. induction l as [|a l IH]; simpl; [reflexivity|].
  now rewrite Hpq, IH.
Qed.

Lemma mine_at_same_desc (st st' : DFB) (t : Z) :
  Forall2 same_desc (allTiles st) (allTiles st') ->
  mine_at cfg st' t = mine_at cfg st t.
Proof.
  intros HF. unfold mine_at, lookupZ. destruct (t <? 0); [reflexivity|].
  destruct (allTiles st !! Z.to_nat t) as [td|] eqn:Htd.
  - destruct (Forall2_lookup_l _ _ _ _ _ HF Htd) as (td' & -> & Hs).
    unfold mine. destruct Hs as (_ & _ & -> & _). reflexivity.
  - apply Forall2_length in HF.
    rewrite (lookup_ge_None_2 (allTiles st')); [reflexivity|].
    apply lookup_ge_None_1 in Htd. lia.
Qed.

(** C5, as the code has it.  [startNewFrame] on an inactive frame returns
    and has counted as complete the tiles of this rank whose stored error
    (after the sync) is at most the threshold, when the framebuffer has an
    accumulation buffer, and no tile otherwise; the frame is closed exactly
    when that count is the expected number of tiles.  With the threshold
    [+inf], an accumulation buffer and no NaN among the errors, the frame of
    a rank that takes part as a worker is closed when [startNewFrame]
    returns. *)
Theorem startNewFrame_counts_converged_tiles_of_rank
    (root : BcastRoot) (errorThreshold : float) (st : DFB)
    (Hinactive : frameIsActive st = false)
    (Hwf : tiles_wf cfg st) :
  exists st',
    startNewFrame cfg root errorThreshold st = (inr tt, st')
    /\ numTilesCompletedThisFrame st'
       = (if hasAccumBuffer cfg
          then convergedTilesOfRank cfg st' errorThreshold else 0)
    /\ (frameIsDone st' = true
        <-> numTilesCompletedThisFrame st' = expectedTiles cfg st')
    /\ frameIsActive st' = negb (frameIsDone st')
    /\ (errorThreshold = inf ->
        hasAccumBuffer cfg = true ->
        IamAWorker cfg || IamTheMaster cfg && masterIsAWorker cfg = true ->
        myTiles_complete cfg st ->
        Forall (fun e => e <> S754_nan) (tileErrorBuffer st) ->
        Forall (fun e => e <> S754_nan) (root_tileErrorBuffer root) ->
        frameIsDone st' = true /\ frameIsActive st' = false).
Proof.
  destruct (startNewFrame_inactive root errorThreshold st Hinactive Hwf)
    as (st' & E & _ & _ & Hmy & HF & Herr & Hnum & Hdone & Hact).
  exists st'. split; [exact E|]. split; [exact Hnum|].
  split; [rewrite Hdone; apply Z.eqb_eq|]. split; [exact Hact|].
  intros -> Hacc Hworker Hcomplete Hbuf Hroot.
  assert (Hd : frameIsDone st' = true).
  { rewrite Hdone. apply Z.eqb_eq. rewrite Hnum, Hacc.
    unfold expectedTiles. rewrite Hworker, Hmy, Hcomplete.
    unfold convergedTilesOfRank. apply countb_ext. intros t.
    unfold convergedAndMine. rewrite SFleb_inf.
    - simpl. apply mine_at_same_desc. exact HF.
    - apply tileError_not_nan. rewrite Herr. unfold syncedErrors.
      destruct (TileError_tiles st <=? 0); [exact Hbuf|].
      apply Forall_Bcast; assumption. }
  split; [exact Hd|]. rewrite Hact, Hd. reflexivity.
Qed.

(** *** The tiles that the constructor creates *)

Lemma loop_starts_length (fuel : nat) (v n : Z) :
  1 <= TILE_SIZE ->
  n - v <= Z.of_nat fuel ->
  Z.of_nat (length (loop_starts fuel v n))
  = if v <? n then (n - v + TILE_SIZE - 1) / TILE_SIZE else 0.
Proof.
  intros HT. revert v. induction fuel as [|fuel IH]; intros v Hfuel; simpl.
  - destruct (Z.ltb_spec v n); [lia | reflexivity].
  - destruct (Z.ltb_spec v n) as [Hlt|]; [|reflexivity].
    simpl length. rewrite Nat2Z.inj_succ, IH by lia.
    destruct (Z.ltb_spec (v + TILE_SIZE) n).
    + replace (n - v + TILE_SIZE - 1)
        with (n - (v + TILE_SIZE) + TILE_SIZE - 1 + 1 * TILE_SIZE) by lia.
      rewrite Z.div_add by lia. lia.
    + apply Z.div_unique with (r := n - v - 1); lia.
Qed.

Lemma tiles_linked_push (all : list TileDesc) (my : list nat)
    (td : TileDesc) :
  tiles_linked (all, my) -> tiles_linked (all ++ [td], my).
Proof.
  unfold tiles_linked; simpl. intros H. eapply Forall_impl; [exact H|].
  intros i (tdi & ts & Hi & Hd). exists tdi, ts. split; [|exact Hd].
  apply lookup_app_l_Some. exact Hi.
Qed.

Lemma createTiles_row_spec (td0 : vec2i -> Z -> TileState) (y : Z)
    (xs : list Z) (tileID : Z) (acc : list TileDesc * list nat)
    (tileID' : Z) (acc' : list TileDesc * list nat) :
  createTiles_row cfg td0 y xs tileID acc = inr (tileID', acc') ->
  tiles_linked acc ->
  tiles_linked acc' /\ length acc'.1 = (length acc.1 + length xs)%nat.
Proof.
  revert tileID acc. induction xs as [|x xs IH]; intros tileID acc; simpl.
  - intros [= <- <-] H. split; [exact H | lia].
  - destruct (ownerIDFromTileID cfg tileID) as [e|ownerID]; [discriminate|].
    destruct acc as [all my].
    destruct (ownerID =? wrap_size_t (globalRank cfg)); intros E Hacc;
      apply IH in E.
    + destruct E as [H Hl]. split; [exact H|].
      rewrite Hl. simpl. rewrite length_app. simpl. lia.
    + unfold tiles_linked; simpl. apply Forall_app. split.
      * apply (tiles_linked_push all my). exact Hacc.
      * constructor; [|constructor]. do 2 eexists.
        split; [rewrite lookup_app_r by lia; now rewrite Nat.sub_diag|].
        reflexivity.
    + destruct E as [H Hl]. split; [exact H|].
      rewrite Hl. simpl. rewrite length_app. simpl. lia.
    + apply tiles_linked_push. exact Hacc.
Qed.

Lemma createTiles_rows_spec (td0 : vec2i -> Z -> TileState) (ys : list Z)
    (tileID : Z) (acc acc' : list TileDesc * list nat) :
  createTiles_rows cfg td0 ys tileID acc = inr acc' ->
  tiles_linked acc ->
  tiles_linked acc'
  /\ length acc'.1
     = (length acc.1
        + length ys
          * length (loop_starts (Z.to_nat (vx (numPixels cfg))) 0
                      (vx (numPixels cfg))))%nat.
Proof.
  revert tileID acc. induction ys as [|y ys IH]; intros tileID acc; simpl.
  - intros [= <-] H. split; [exact H | lia].
  - destruct (createTiles_row cfg td0 y _ tileID acc)
      as [e|[tileID1 acc1]] eqn:Erow; [discriminate|].
    intros E Hacc.
    destruct (createTiles_row_spec _ _ _ _ _ _ _ Erow Hacc) as [H1 L1].
    destruct (IH _ _ E H1) as [H2 L2].
    split; [exact H2|]. rewrite L2, L1. lia.
Qed.

(** The constructor leaves well-formed tiles: [myTiles] points to
    [TileData] objects and [allTiles] has [getTotalTiles] descriptors. *)
Lemma DistributedFrameBuffer_tiles_wf (td0 : vec2i -> Z -> TileState)
    (st : DFB) :
  1 <= TILE_SIZE ->
  0 <= vx (numPixels cfg) -> 0 <= vy (numPixels cfg) ->
  DistributedFrameBuffer cfg td0 = inr st ->
  tiles_wf cfg st
  /\ Z.of_nat (length (allTiles st)) = getTotalTiles cfg
  /\ Z.of_nat (length (tileAccumID st)) = getTotalTiles cfg
  /\ Z.of_nat (length (tileInstances st)) = getTotalTiles cfg
  /\ frameIsActive st = false.
Proof.
  intros HT Hw Hh. unfold DistributedFrameBuffer, createTiles.
  destruct (createTiles_rows cfg td0 _ 0 ([], [])) as [e|[all my]] eqn:E;
    [discriminate|].
  intros [= <-]. simpl.
  destruct (createTiles_rows_spec _ _ _ _ _ E) as [Hlinked Hlen].
  { constructor. }
  simpl in Hlinked, Hlen.
  assert (Htotal : Z.of_nat (length all) = getTotalTiles cfg).
  { rewrite Hlen, Nat2Z.inj_mul, !loop_starts_length by lia.
    unfold getTotalTiles, numTiles, cdiv. simpl.
    rewrite !Z.quot_div_nonneg by lia. rewrite !Z.sub_0_r.
    destruct (Z.ltb_spec 0 (vx (numPixels cfg))),
      (Z.ltb_spec 0 (vy (numPixels cfg)));
      try lia;
      repeat match goal with
             | H : ?n <= 0, H' : 0 <= ?n |- _ =>
                 replace n with 0 by lia; clear H
             end;
      rewrite ?Z.add_0_l, ?(Z.div_small (TILE_SIZE - 1)) by lia; lia. }
  split; [split; [exact Hlinked | simpl; lia]|].
  rewrite !length_replicate, Z2Nat.id, Htotal by (rewrite <- Htotal; lia).
  repeat split; reflexivity.
Qed.

Lemma countb_app {A} (p : A -> bool) (l k : list A) :
  countb p (l ++ k) = countb p l + countb p k.
Proof. induction l as [|a l IH]; simpl; [reflexivity | rewrite IH; lia]. Qed.

Lemma countb_ext_in {A} (p q : A -> bool) (l : list A) :
  Forall (fun a => p a = q a) l -> countb p l = countb q l.
Proof.
  induction 1 as [|a l Ha _ IH]; simpl; [reflexivity | now rewrite Ha, IH].
Qed.

(** Counting over the indices of an array is counting over its elements. *)
Lemma countb_lookupZ {A} (p : A -> bool) (l : list A) :
  countb (fun t => match lookupZ l t with Some a => p a | None => false end)
         (seqZ 0 (Z.of_nat (length l)))
  = countb p l.
Proof.
  induction l as [|x l IH] using rev_ind; [reflexivity|].
  rewrite length_app, Nat2Z.inj_add, seqZ_app by lia.
  rewrite !countb_app, <- IH. simpl length. f_equal.
  - apply countb_ext_in, Forall_forall. intros t Ht.
    apply elem_of_seqZ in Ht. unfold lookupZ.
    destruct (Z.ltb_spec t 0); [lia|].
    rewrite lookup_app_l by lia. reflexivity.
  - change (Z.of_nat 1) with 1. rewrite seqZ_cons, seqZ_nil by lia. simpl.
    unfold lookupZ. destruct (Z.ltb_spec (0 + Z.of_nat (length l)) 0); [lia|].
    rewrite Z.add_0_l, Nat2Z.id, list_lookup_middle by reflexivity.
    simpl. lia.
Qed.

Lemma createTiles_row_counted (td0 : vec2i -> Z -> TileState) (y : Z)
    (xs : list Z) (tileID : Z) (acc : list TileDesc * list nat)
    (tileID' : Z) (acc' : list TileDesc * list nat) :
  0 <= world_rank cfg < 2 ^ 64 ->
  createTiles_row cfg td0 y xs tileID acc = inr (tileID', acc') ->
  Z.of_nat (length acc.2) = countb (mine cfg) acc.1 ->
  Z.of_nat (length acc'.2) = countb (mine cfg) acc'.1.
Proof.
  intros Hrank. revert tileID acc.
  induction xs as [|x xs IH]; intros tileID acc; simpl.
  - intros [= <- <-] H. exact H.
  - destruct (ownerIDFromTileID cfg tileID) as [e|ownerID]; [discriminate|].
    destruct acc as [all my]. unfold globalRank.
    rewrite wrap_size_t_small by exact Hrank.
    destruct (ownerID =? world_rank cfg) eqn:Eo; intros E Hacc;
      apply IH in E; try exact E; simpl in *;
      rewrite countb_app; simpl; unfold mine at 2, globalRank; simpl;
      rewrite Eo, ?length_app; simpl; lia.
Qed.

Lemma createTiles_rows_counted (td0 : vec2i -> Z -> TileState) (ys : list Z)
    (tileID : Z) (acc acc' : list TileDesc * list nat) :
  0 <= world_rank cfg < 2 ^ 64 ->
  createTiles_rows cfg td0 ys tileID acc = inr acc' ->
  Z.of_nat (length acc.2) = countb (mine cfg) acc.1 ->
  Z.of_nat (length acc'.2) = countb (mine cfg) acc'.1.
Proof.
  intros Hrank. revert tileID acc.
  induction ys as [|y ys IH]; intros tileID acc; simpl.
  - intros [= <-] H. exact H.
  - destruct (createTiles_row cfg td0 y _ tileID acc)
      as [e|[tileID1 acc1]] eqn:Erow; [discriminate|].
    intros E Hacc. eapply IH; [exact E|].
    eapply createTiles_row_counted; eauto.
Qed.

(** [myTiles] of a constructed framebuffer has one entry per tile of the
    rank. *)
Lemma DistributedFrameBuffer_myTiles_complete
    (td0 : vec2i -> Z -> TileState) (st : DFB) :
  1 <= TILE_SIZE ->
  0 <= vx (numPixels cfg) -> 0 <= vy (numPixels cfg) ->
  0 <= world_rank cfg < 2 ^ 64 ->
  DistributedFrameBuffer cfg td0 = inr st ->
  myTiles_complete cfg st.
Proof.
  intros HT Hw Hh Hrank Hst.
  destruct (DistributedFrameBuffer_tiles_wf td0 st HT Hw Hh Hst)
    as (_ & Hlen & _).
  unfold myTiles_complete. rewrite <- Hlen.
  unfold mine_at. rewrite (countb_lookupZ (mine cfg)).
  revert Hst. unfold DistributedFrameBuffer, createTiles.
  destruct (createTiles_rows cfg td0 _ 0 ([], [])) as [e|[all my]] eqn:E;
    [discriminate|].
  intros [= <-]. simpl.
  apply (createTiles_rows_counted _ _ _ _ _ Hrank E). reflexivity.
Qed.

(** *** The router *)

(** C3.  A message whose command is CANCEL_RENDERING that reaches the router
    while a frame is active is queued by [incoming]; its task then takes the
    last branch of the router and raises "unknown tile type processed", with
    the state (and so [cancelRendering]) left as it was. *)
Theorem cancel_message_is_not_routed (st : DFB) (body : option (vec2i * Tile)) :
  let st1 := set_frameIsActive true st in
  let msg := mk_Message CANCEL_RENDERING body in
  incoming msg st1 = (inr tt, set_scheduled (scheduled st1 ++ [msg]) st1)
  /\ scheduledTask cfg msg st1
     = (inl (RuntimeError "#dfb: unknown tile type processed!"), st1)
  /\ cancelRendering (snd (scheduledTask cfg msg st1)) = cancelRendering st.
Proof. repeat split. Qed.

(** *** Sizes of the master tile message *)


(** *** Misuse *)

(** C8.  [mapBuffer] and [unmap] without a local framebuffer on the master,
    [startNewFrame] on a frame that is already active, and a master-tile
    message (MASTER_WRITE_TILE_I8 or MASTER_WRITE_TILE_F32) that reaches the
    router each end in a runtime error with its own message. *)
Theorem misuse_raises_runtime_error
    (st_map st_frame st_router : DFB)
    (root : BcastRoot) (errorThreshold : float) (msg : Message)
    (Hnofb : localFBonMaster st_map = None)
    (Hactive : frameIsActive st_frame = true)
    (Hmaster : has_tag (msg_command msg) MASTER_WRITE_TILE_I8 = true
               \/ has_tag (msg_command msg) MASTER_WRITE_TILE_F32 = true) :
  fst (mapBuffer st_map)
  = inl (RuntimeError
      "#osp:mpi:dfb: tried to 'ospMap()' a frame buffer that doesn't have a host-side correspondence")
  /\ fst (unmap st_map)
     = inl (RuntimeError
         "#osp:mpi:dfb: tried to 'ospUnmap()' a frame buffer that doesn't have a host-side color buffer")
  /\ fst (startNewFrame cfg root errorThreshold st_frame)
     = inl (RuntimeError "Attempt to start frame on already started frame!")
  /\ fst (scheduledTask cfg msg st_router)
     = inl (RuntimeError "#dfb: master msg should not be scheduled!").
Proof.
  repeat split.
  - unfold mapBuffer. cbn. now rewrite Hnofb.
  - unfold unmap. cbn. now rewrite Hnofb.
  - unfold startNewFrame.
    destruct (colorBufferFormat cfg), (hasDepthBuffer cfg);
      cbn; rewrite Hactive; reflexivity.
  - unfold scheduledTask.
    destruct (has_tag (msg_command msg) MASTER_WRITE_TILE_I8); [reflexivity|].
    destruct Hmaster as [H|H]; [discriminate|]. now rewrite H.
Qed.

(** *** The accumulation counters *)

(** C9.  With an accumulation buffer [accumID] returns [tileAccumID[tileNr]]
    and, as a side effect, adds one to [tileInstances[tileNr]]; without one
    it returns 0 and leaves the state as it is. *)
Theorem accumID_counts_the_query
    (tile : vec2i) (st : DFB) (n a : Z)
    (Hn : lookupZ (tileInstances st)
            (wrap_int32 (wrap_int32 (vy tile * vx (numTiles cfg)) + vx tile))
          = Some n)
    (Ha : lookupZ (tileAccumID st)
            (wrap_int32 (wrap_int32 (vy tile * vx (numTiles cfg)) + vx tile))
          = Some a)
    (Hrange : - 2 ^ 31 <= n < INT32_MAX) :
  let tileNr :=
    wrap_int32 (wrap_int32 (vy tile * vx (numTiles cfg)) + vx tile) in
  accumID cfg tile st
  = if hasAccumBuffer cfg
    then (inr a,
          set_tileInstances (insertZ tileNr (n + 1) (tileInstances st)) st)
    else (inr 0, st).
Proof.
  intros tileNr. unfold accumID.
  destruct (hasAccumBuffer cfg); [|reflexivity].
  subst tileNr. mstep. simpl in Hn, Ha. rewrite Hn, Ha.
  rewrite (wrap_int32_small (n + 1)) by (unfold INT32_MAX in Hrange; lia).
  reflexivity.
Qed.

(** *** Local tiles on an inactive frame *)

(** C10.  [setTile] for a tile of the calling rank on a frame that is not
    active raises "cannot setTile if frame is inactive" and leaves the whole
    state as it was: the tile is neither processed nor put on the delayed
    queue, which only [incoming] fills. *)
Theorem setTile_on_inactive_frame
    (tile : Tile) (st : DFB) (tileDesc : TileDesc)
    (Hdesc : lookupZ (allTiles st) (getTileIDof cfg (tile_region_lower tile))
             = Some tileDesc)
    (Hmine : mine cfg tileDesc = true)
    (Hinactive : frameIsActive st = false) :
  setTile cfg tile st
  = (inl (RuntimeError "#dfb: cannot setTile if frame is inactive!"), st).
Proof.
  unfold setTile, getTileDescFor. mstep. rewrite Hdesc. simpl.
  rewrite Hmine. simpl. now rewrite Hinactive.
Qed.

(** ** Further properties of the framebuffer *)

(** *** Tiles of other ranks *)

(** X1.  [setTile] for a tile that another rank owns sends one
    WORKER_WRITE_TILE message, carrying the tile and its lower corner, to
    the owner and changes nothing else, whether or not a frame is active;
    the router of the receiving rank hands exactly that tile to
    [processMessage]. *)
Theorem setTile_forwards_to_owner
    (tile : Tile) (st : DFB) (tileDesc : TileDesc)
    (Hdesc : lookupZ (allTiles st) (getTileIDof cfg (tile_region_lower tile))
             = Some tileDesc)
    (Hforeign : mine cfg tileDesc = false) :
  let msg :=
    mk_Message WORKER_WRITE_TILE (Some (tile_region_lower tile, tile)) in
  setTile cfg tile st
  = (inr tt,
     set_sent (sent st ++ [(wrap_int32 (td_ownerID tileDesc), msg)]) st)
  /\ forall (cfg' : Config) (st' : DFB),
       scheduledTask cfg' msg st'
       = processMessage_WriteTile cfg' (tile_region_lower tile) tile st'.
Proof.
  intros msg. split.
  - unfold setTile, getTileDescFor. mstep. rewrite Hdesc. simpl.
    rewrite Hforeign. reflexivity.
  - intros cfg' st'. reflexivity.
Qed.

(** *** The cancel fan-out *)

Lemma sendTo_loop (ranks : list Z) (message : Message) (st : DFB) :
  forM_ ranks (fun rank => sendTo rank message) st
  = (inr tt,
     set_sent (sent st ++ map (fun rank => (rank, message)) ranks) st).
Proof.
  revert st. induction ranks as [|r ranks IH]; intros st.
  - simpl. rewrite app_nil_r. destruct st; reflexivity.
  - simpl forM_. unfold sendTo at 1. mstep. rewrite IH. simpl.
    rewrite <- app_assoc. reflexivity.
Qed.

(** X2.  [sendCancelRenderingMessage] sends the CANCEL_RENDERING message
    once to every rank, 0 to R-1 in this order (the sender included), and
    changes nothing else; with no rank it sends nothing. *)
Theorem sendCancelRenderingMessage_reaches_every_rank (st : DFB) :
  sendCancelRenderingMessage cfg st
  = (inr tt,
     set_sent
       (sent st
        ++ map (fun rank => (rank, mk_Message CANCEL_RENDERING None))
               (seqZ 0 (world_size cfg))) st)
  /\ (forall rank, 0 <= rank < world_size cfg ->
      In (rank, mk_Message CANCEL_RENDERING None)
         (sent (snd (sendCancelRenderingMessage cfg st))))
  /\ length (sent (snd (sendCancelRenderingMessage cfg st)))
     = (length (sent st) + Z.to_nat (world_size cfg))%nat.
Proof.
  assert (E : sendCancelRenderingMessage cfg st
              = (inr tt,
                 set_sent
                   (sent st
                    ++ map (fun rank =>
                              (rank, mk_Message CANCEL_RENDERING None))
                           (seqZ 0 (world_size cfg))) st)).
  { unfold sendCancelRenderingMessage, numGlobalRanks. apply sendTo_loop. }
  split; [exact E|]. rewrite E. simpl. split.
  - intros rank Hrank. apply in_or_app. right.
    apply (in_map (fun r => (r, mk_Message CANCEL_RENDERING None))).
    apply list_elem_of_In, elem_of_seqZ. lia.
  - rewrite length_app, length_map, length_seqZ. reflexivity.
Qed.

(** *** The master assembler, pixel by pixel *)



Lemma masterTile_stores_inv (msg : MasterTileMessage_FB) (s : Store) :
  In s (masterTile_stores cfg msg) ->
  exists ix iy,
    In s (masterTile_pixel cfg msg
            (hasDepthBuffer cfg
             && has_tag (m_command msg) MASTER_TILE_HAS_DEPTH)
            (has_tag (m_command msg) MASTER_TILE_HAS_AUX)
            iy (wrap_int32 (iy + vy (m_coords msg))) ix).
Proof.
  unfold masterTile_stores. rewrite in_flat_map. intros (iy & _ & Hrow).
  unfold masterTile_row in Hrow.
  destruct (vy (numPixels cfg) <=? wrap_int32 (iy + vy (m_coords msg)));
    [destruct Hrow|].
  apply in_flat_map in Hrow. destruct Hrow as (ix & _ & Hpix). eauto.
Qed.

(** X4.  The master assembler never writes a channel that the framebuffer
    lacks or the message does not carry: a depth store needs a depth buffer
    and the HAS_DEPTH bit, a normal (albedo) store needs a normal (albedo)
    buffer and the HAS_AUX bit. *)
Theorem processMessage_MasterTile_writes_only_present_channels
    (msg : MasterTileMessage_FB) (s : Store)
    (Hs : In s (masterTile_stores cfg msg)) :
  match s with
  | StoreColor _ _ _ => True
  | StoreDepth _ _ _ =>
      hasDepthBuffer cfg = true
      /\ has_tag (m_command msg) MASTER_TILE_HAS_DEPTH = true
  | StoreNormal _ _ _ =>
      hasNormalBuffer cfg = true
      /\ has_tag (m_command msg) MASTER_TILE_HAS_AUX = true
  | StoreAlbedo _ _ _ =>
      hasAlbedoBuffer cfg = true
      /\ has_tag (m_command msg) MASTER_TILE_HAS_AUX = true
  end.
Proof.
  apply masterTile_stores_inv in Hs. destruct Hs as (ix & iy & Hs).
  unfold masterTile_pixel in Hs.
  destruct (vx (numPixels cfg) <=? wrap_int32 (ix + vx (m_coords msg)));
    [destruct Hs|].
  destruct (hasDepthBuffer cfg), (has_tag (m_command msg) MASTER_TILE_HAS_DEPTH),
    (has_tag (m_command msg) MASTER_TILE_HAS_AUX),
    (hasNormalBuffer cfg), (hasAlbedoBuffer cfg); simpl in Hs;
    repeat (destruct Hs as [<-|Hs]; [auto|]); destruct Hs.
Qed.

(** *** The final gather on the master *)

Lemma processMessage_MasterTile_eq (msg : MasterTileMessage_FB) (st : DFB)
    (fb : LocalFrameBuffer) :
  localFBonMaster st = Some fb ->
  exists st',
    processMessage_MasterTile cfg msg st = (inr tt, st')
    /\ localFBonMaster st'
       = Some (foldl (applyStore cfg) fb (masterTile_stores cfg msg)).
Proof.
  intros Hfb. unfold processMessage_MasterTile, when.
  destruct (hasVarianceBuffer cfg); [destruct (SFltb (m_error msg) inf)|];
    mstep; rewrite Hfb; simpl; eexists; split; reflexivity.
Qed.

(** The loop of [gatherFinalTiles] over the slots [ts]. *)
Lemma gatherFinalTiles_loop_ok (tileGatherResult : list MasterTileMessage_FB)
    (ts : list Z) (st : DFB) (fb : LocalFrameBuffer) :
  localFBonMaster st = Some fb ->
  Forall (fun t => exists msg,
            lookupZ tileGatherResult t = Some msg
            /\ is_master_tile msg = true) ts ->
  exists st',
    forM_ ts (fun tile =>
      match lookupZ tileGatherResult tile with
      | Some msg =>
          if has_tag (m_command msg) MASTER_WRITE_TILE_I8
          then processMessage_MasterTile cfg msg
          else if has_tag (m_command msg) MASTER_WRITE_TILE_F32
          then processMessage_MasterTile cfg msg
          else throw (RuntimeError "#dfb: non-master tile in final gather!")
      | None => throw (UndefinedBehaviour "read past the gathered result")
      end) st = (inr tt, st')
    /\ localFBonMaster st'
       = Some (foldl (applyStore cfg) fb
                 (gathered_stores cfg tileGatherResult ts)).
Proof.
  revert st fb. induction ts as [|t ts IH]; intros st fb Hfb Hts.
  - exists st. split; [reflexivity | exact Hfb].
  - inversion Hts as [|? ? (msg & Hmsg & Hmaster) Hrest]; subst.
    destruct (processMessage_MasterTile_eq msg st fb Hfb) as (st1 & E1 & Hfb1).
    destruct (IH st1 _ Hfb1 Hrest) as (st' & E & Hfb').
    exists st'. split.
    + simpl forM_. unfold bind at 1. rewrite Hmsg.
      unfold is_master_tile in Hmaster.
      destruct (has_tag (m_command msg) MASTER_WRITE_TILE_I8);
        [|simpl in Hmaster; rewrite Hmaster]; rewrite E1; exact E.
    + rewrite Hfb'. unfold gathered_stores. simpl. rewrite Hmsg.
      rewrite foldl_app. reflexivity.
Qed.

Lemma gatherFinalTiles_loop_bad (tileGatherResult : list MasterTileMessage_FB)
    (ts : list Z) (st : DFB) :
  is_Some (localFBonMaster st) ->
  Forall (fun t => is_Some (lookupZ tileGatherResult t)) ts ->
  Exists (fun t => exists msg,
            lookupZ tileGatherResult t = Some msg
            /\ is_master_tile msg = false) ts ->
  fst (forM_ ts (fun tile =>
      match lookupZ tileGatherResult tile with
      | Some msg =>
          if has_tag (m_command msg) MASTER_WRITE_TILE_I8
          then processMessage_MasterTile cfg msg
          else if has_tag (m_command msg) MASTER_WRITE_TILE_F32
          then processMessage_MasterTile cfg msg
          else throw (RuntimeError "#dfb: non-master tile in final gather!")
      | None => throw (UndefinedBehaviour "read past the gathered result")
      end) st)
  = inl (RuntimeError "#dfb: non-master tile in final gather!").
Proof.
  revert st. induction ts as [|t ts IH]; intros st [fb Hfb] Hall Hbad.
  - inversion Hbad.
  - inversion Hall as [|? ? [msg Hmsg] Hrest]; subst.
    simpl forM_. unfold bind at 1. rewrite Hmsg.
    destruct (is_master_tile msg) eqn:Hmaster.
    + inversion Hbad as [? ? (msg' & Hmsg' & Hbad')|? ? Hbad']; subst.
      { rewrite Hmsg in Hmsg'. injection Hmsg' as <-. congruence. }
      destruct (processMessage_MasterTile_eq msg st fb Hfb)
        as (st1 & E1 & Hfb1).
      unfold is_master_tile in Hmaster.
      destruct (has_tag (m_command msg) MASTER_WRITE_TILE_I8);
        [|simpl in Hmaster; rewrite Hmaster]; rewrite E1;
        apply IH; eauto.
    + unfold is_master_tile in Hmaster.
      apply orb_false_iff in Hmaster. destruct Hmaster as [-> ->].
      reflexivity.
Qed.

(** X5.  On the master, when every slot of the gathered result holds a
    master-tile message, [gatherFinalTiles] returns and the local
    framebuffer has received the stores of slot 0, then slot 1, and so on up
    to the last tile, and nothing else. *)
Theorem gatherFinalTiles_assembles_all_slots
    (tileGatherResult : list MasterTileMessage_FB) (st : DFB)
    (fb : LocalFrameBuffer)
    (Hmaster : IamTheMaster cfg = true)
    (Hfmt : colorBufferFormat cfg <> OSP_FB_NONE)
    (Hfb : localFBonMaster st = Some fb)
    (Hslots : forall t, 0 <= t < getTotalTiles cfg ->
              exists msg, lookupZ tileGatherResult t = Some msg
                          /\ is_master_tile msg = true) :
  exists st',
    gatherFinalTiles cfg tileGatherResult st = (inr tt, st')
    /\ localFBonMaster st'
       = Some (foldl (applyStore cfg) fb
                 (gathered_stores cfg tileGatherResult
                    (seqZ 0 (getTotalTiles cfg)))).
Proof.
  destruct (gatherFinalTiles_loop_ok tileGatherResult
              (seqZ 0 (getTotalTiles cfg)) st fb Hfb) as (st' & E & Hfb').
  { apply Forall_forall. intros t Ht. apply elem_of_seqZ in Ht.
    apply Hslots. lia. }
  exists st'. split; [|exact Hfb'].
  unfold gatherFinalTiles, when. rewrite Hmaster.
  destruct (colorBufferFormat cfg); [congruence| | |];
    destruct (hasDepthBuffer cfg); mstep; exact E.
Qed.

(** X6.  On the master, a slot of the gathered result whose command has
    neither MASTER_WRITE_TILE bit (a slot that stayed zero because its tile
    never completed, for one) makes [gatherFinalTiles] fail with "non-master
    tile in final gather". *)
Theorem gatherFinalTiles_rejects_foreign_slot
    (tileGatherResult : list MasterTileMessage_FB) (st : DFB)
    (t : Z) (msg : MasterTileMessage_FB)
    (Hmaster : IamTheMaster cfg = true)
    (Hfmt : colorBufferFormat cfg <> OSP_FB_NONE)
    (Hfb : is_Some (localFBonMaster st))
    (Hslots : getTotalTiles cfg <= Z.of_nat (length tileGatherResult))
    (Ht : 0 <= t < getTotalTiles cfg)
    (Hmsg : lookupZ tileGatherResult t = Some msg)
    (Hbad : is_master_tile msg = false) :
  fst (gatherFinalTiles cfg tileGatherResult st)
  = inl (RuntimeError "#dfb: non-master tile in final gather!").
Proof.
  pose proof (gatherFinalTiles_loop_bad tileGatherResult
                (seqZ 0 (getTotalTiles cfg)) st Hfb) as Hloop.
  unfold gatherFinalTiles, when. rewrite Hmaster.
  assert (E : fst (forM_ (seqZ 0 (getTotalTiles cfg)) (fun tile =>
      match lookupZ tileGatherResult tile with
      | Some msg =>
          if has_tag (m_command msg) MASTER_WRITE_TILE_I8
          then processMessage_MasterTile cfg msg
          else if has_tag (m_command msg) MASTER_WRITE_TILE_F32
          then processMessage_MasterTile cfg msg
          else throw (RuntimeError "#dfb: non-master tile in final gather!")
      | None => throw (UndefinedBehaviour "read past the gathered result")
      end) st)
      = inl (RuntimeError "#dfb: non-master tile in final gather!")).
  { apply Hloop.
    - apply lookupZ_seqZ_is_Some. exact Hslots.
    - apply Exists_exists. exists t. split; [|eauto].
      apply elem_of_seqZ. lia. }
  destruct (colorBufferFormat cfg); [congruence| | |];
    destruct (hasDepthBuffer cfg); mstep; exact E.
Qed.

(** *** The per-frame usage counters *)

Lemma lookupZ_Some_range {A} (l : list A) (i : Z) (a : A) :
  lookupZ l i = Some a -> 0 <= i < Z.of_nat (length l).
Proof.
  unfold lookupZ. destruct (Z.ltb_spec i 0) as [|Hi]; [discriminate|].
  intros Hl. apply lookup_lt_Some in Hl. lia.
Qed.

Lemma accumID_state (tile : vec2i) (st : DFB) (n : Z) :
  hasAccumBuffer cfg = true ->
  lookupZ (tileInstances st)
    (wrap_int32 (wrap_int32 (vy tile * vx (numTiles cfg)) + vx tile))
  = Some n ->
  snd (accumID cfg tile st)
  = set_tileInstances
      (insertZ (wrap_int32 (wrap_int32 (vy tile * vx (numTiles cfg))
                            + vx tile))
         (wrap_int32 (n + 1)) (tileInstances st)) st.
Proof.
  intros Hacc Hn. unfold accumID. rewrite Hacc. mstep. simpl in Hn.
  rewrite Hn.
  destruct (lookupZ (tileAccumID st) _); reflexivity.
Qed.

Lemma runOps_cons (op : FrameOp) (ops : list FrameOp) (st : DFB) :
  runOps cfg (op :: ops) st = runOps cfg ops (runOp cfg op st).
Proof. reflexivity. Qed.

(** X7.  The usage counter of a tile counts the [accumID] queries for it:
    [k] queries for the same tile raise [tileInstances[tileNr]] by [k],
    leave the counters of the other tiles alone and never touch
    [tileAccumID]. *)
Theorem accumID_queries_are_counted
    (tile : vec2i) (k : nat) (st : DFB) (n : Z)
    (Hacc : hasAccumBuffer cfg = true)
    (Hn : lookupZ (tileInstances st)
            (wrap_int32 (wrap_int32 (vy tile * vx (numTiles cfg)) + vx tile))
          = Some n)
    (Hrange : - 2 ^ 31 <= n /\ n + Z.of_nat k < 2 ^ 31) :
  let tileNr :=
    wrap_int32 (wrap_int32 (vy tile * vx (numTiles cfg)) + vx tile) in
  let st' := runOps cfg (replicate k (Op_accumID tile)) st in
  lookupZ (tileInstances st') tileNr = Some (n + Z.of_nat k)
  /\ (forall t, t <> tileNr ->
      lookupZ (tileInstances st') t = lookupZ (tileInstances st) t)
  /\ tileAccumID st' = tileAccumID st.
Proof.
  intros tileNr. revert st n Hn Hrange.
  induction k as [|k IH]; intros st n Hn Hrange st'.
  - subst st'. simpl. rewrite Z.add_0_r. auto.
  - subst st'. simpl replicate. rewrite runOps_cons.
    change (runOp cfg (Op_accumID tile) st) with (snd (accumID cfg tile st)).
    rewrite (accumID_state tile st n Hacc Hn). fold tileNr.
    pose proof (lookupZ_Some_range _ _ _ Hn) as Hin. fold tileNr in Hin.
    set (st1 := set_tileInstances _ st).
    destruct (IH st1 (n + 1)) as (H1 & H2 & H3).
    { subst st1. simpl. fold tileNr.
      rewrite (wrap_int32_small (n + 1)) by lia.
      now apply lookupZ_insertZ_eq. }
    { lia. }
    split; [|split].
    + rewrite H1. f_equal. lia.
    + intros t Ht. rewrite H2 by exact Ht. subst st1. simpl.
      apply lookupZ_insertZ_ne. congruence.
    + rewrite H3. reflexivity.
Qed.

(** The state in which [endFrame] leaves the framebuffer. *)
Lemma endFrame_state (errorThreshold : float) (st : DFB) :
  0 <= getTotalTiles cfg ->
  getTotalTiles cfg <= Z.of_nat (length (tileInstances st)) ->
  getTotalTiles cfg <= Z.of_nat (length (tileAccumID st)) ->
  exists acc',
    endFrame cfg errorThreshold st
    = (inr (if IamTheMaster cfg
            then TileError_refine (tileErrorBuffer st) errorThreshold
            else inf),
       set_tileAccumID acc'
         (set_tileInstances
            (replicate (Z.to_nat (getTotalTiles cfg)) 0
             ++ drop (Z.to_nat (getTotalTiles cfg)) (tileInstances st)) st))
    /\ length acc' = length (tileAccumID st)
    /\ forall i,
         lookupZ acc' i
         = if (0 <=? i) && (i <? getTotalTiles cfg)
           then (fun a => wrap_int32 (a + 1)) <$> lookupZ (tileAccumID st) i
           else lookupZ (tileAccumID st) i.
Proof.
  intros Hpos Hinst Hacc. unfold endFrame, memset0. mstep.
  destruct (Z.ltb_spec (Z.of_nat (length (tileInstances st)))
              (getTotalTiles cfg)); [lia|]. simpl.
  set (st1 := set_tileInstances _ st).
  destruct (incrementAccumID_loop (Z.to_nat (getTotalTiles cfg)) 0 st1)
    as (acc' & E & Hl & Hlook); [lia | subst st1; simpl; lia |].
  rewrite Z2Nat.id in E, Hlook by lia. rewrite E. simpl.
  exists acc'. split; [|split; [exact Hl | exact Hlook]].
  destruct (IamTheMaster cfg); reflexivity.
Qed.

(** X8.  [endFrame] starts a new counting period: when it returns, the
    usage counter [tileInstances[t]] of every tile is 0, whatever it was;
    its result is [+inf] on every rank but the master. *)
Theorem endFrame_resets_tileInstances
    (errorThreshold : float) (st : DFB) (t : Z)
    (Hinst : getTotalTiles cfg <= Z.of_nat (length (tileInstances st)))
    (Hacc : getTotalTiles cfg <= Z.of_nat (length (tileAccumID st)))
    (Ht : 0 <= t < getTotalTiles cfg) :
  exists err st',
    endFrame cfg errorThreshold st = (inr err, st')
    /\ lookupZ (tileInstances st') t = Some 0
    /\ length (tileInstances st') = length (tileInstances st)
    /\ (IamTheMaster cfg = false -> err = inf).
Proof.
  destruct (endFrame_state errorThreshold st) as (acc' & E & _);
    [lia | exact Hinst | exact Hacc |].
  do 2 eexists. split; [exact E|]. simpl. split; [|split].
  - unfold lookupZ. destruct (Z.ltb_spec t 0); [lia|].
    rewrite lookup_app_l by (rewrite length_replicate; lia).
    apply lookup_replicate_2. lia.
  - rewrite length_app, length_replicate, length_drop. lia.
  - intros ->. reflexivity.
Qed.

(** *** Invariants of the frame operations *)

Lemma frame_inv_refl (st : DFB) : frame_inv st st.
Proof.
  unfold frame_inv. repeat split; auto. apply same_descs_refl.
Qed.

Lemma frame_inv_trans (st1 st2 st3 : DFB) :
  frame_inv st1 st2 -> frame_inv st2 st3 -> frame_inv st1 st3.
Proof.
  intros (M1 & T1 & A1 & D1 & F1) (M2 & T2 & A2 & D2 & F2).
  unfold frame_inv. repeat split; auto.
  - congruence.
  - eapply same_descs_trans; eauto.
  - intros H. apply F1, F2, H.
  - intros H. apply F2, F1, H.
Qed.

Lemma preserves_ret {A} (a : A) : preserves (ret a).
Proof. intros st. apply frame_inv_refl. Qed.

Lemma preserves_throw {A} (e : Failure) : preserves (@throw _ A e).
Proof. intros st. apply frame_inv_refl. Qed.

Lemma preserves_get : preserves get.
Proof. intros st. apply frame_inv_refl. Qed.

Lemma preserves_lift {A} (r : Failure + A) : preserves (lift r).
Proof. intros st. apply frame_inv_refl. Qed.

Lemma preserves_modify (f : DFB -> DFB) :
  (forall st, frame_inv st (f st)) -> preserves (modify f).
Proof. intros Hf st. apply Hf. Qed.

Lemma preserves_bind {A B} (m : M A) (f : A -> M B) :
  preserves m -> (forall a, preserves (f a)) -> preserves (bind m f).
Proof.
  intros Hm Hf st. unfold bind.
  specialize (Hm st). destruct (m st) as [[e|a] st']; simpl in *.
  - exact Hm.
  - eapply frame_inv_trans; [exact Hm | apply Hf].
Qed.

(** Two state changes in a row, judged together. *)
Lemma preserves_modify_modify {A} (f g : DFB -> DFB) (k : M A) :
  (forall st, frame_inv st (g (f st))) -> preserves k ->
  preserves (bind (modify f) (fun _ => bind (modify g) (fun _ => k))).
Proof.
  intros Hfg Hk st. unfold bind, modify. simpl.
  eapply frame_inv_trans; [apply Hfg | apply Hk].
Qed.

Lemma preserves_modify_modify_end (f g : DFB -> DFB) :
  (forall st, frame_inv st (g (f st))) ->
  preserves (bind (modify f) (fun _ => modify g)).
Proof. intros Hfg st. apply Hfg. Qed.

Lemma preserves_when (b : bool) (m : M unit) :
  preserves m -> preserves (when b m).
Proof. intros Hm. destruct b; [exact Hm | apply preserves_ret]. Qed.

Lemma preserves_forM_ {A} (l : list A) (body : A -> M unit) :
  (forall a, preserves (body a)) -> preserves (forM_ l body).
Proof.
  intros Hbody. induction l as [|a l IH]; simpl.
  - apply preserves_ret.
  - apply preserves_bind; [apply Hbody | intros _; exact IH].
Qed.

Create HintDb preserves.

#[local] Hint Resolve preserves_ret preserves_throw preserves_get
  preserves_lift : preserves.

(** A state change that keeps every part of [frame_inv]. *)
Ltac frame_inv_solve :=
  unfold frame_inv, aligned, not_active_and_done; simpl;
  rewrite ?length_app; simpl;
  repeat split; auto using same_descs_refl;
  try (intros; lia);
  try (intros; apply andb_false_iff; auto);
  try (intros; apply andb_false_r).

Ltac preserves_step :=
  lazymatch goal with
  | |- preserves (let _ := _ in _) => cbv zeta
  | |- preserves (bind (modify _) (fun _ => modify _)) =>
      first [ apply preserves_modify_modify_end; intros ?;
              solve [frame_inv_solve]
            | apply preserves_bind;
              [apply preserves_modify; intros ?; solve [frame_inv_solve]
              |intros ?; apply preserves_modify; intros ?;
               solve [frame_inv_solve]] ]
  | |- preserves (bind (modify _) (fun _ => bind (modify _) (fun _ => _))) =>
      first [ apply preserves_modify_modify;
              [intros ?; solve [frame_inv_solve]|]
            | apply preserves_bind;
              [apply preserves_modify; intros ?; solve [frame_inv_solve]
              |intros ?] ]
  | |- preserves (bind _ _) => apply preserves_bind; [|intros ?]
  | |- preserves (when _ _) => apply preserves_when
  | |- preserves (forM_ _ _) => apply preserves_forM_; intros ?
  | |- preserves (modify _) =>
      apply preserves_modify; intros ?; solve [frame_inv_solve]
  | |- preserves (match ?x with _ => _ end) => destruct x
  | |- preserves _ => solve [auto with preserves]
  end.

Ltac preserves_auto := repeat preserves_step.

Lemma preserves_TileError_update (tile : vec2i) (err : float) :
  preserves (TileError_update cfg tile err).
Proof. unfold TileError_update. preserves_auto. Qed.

Lemma preserves_DistributedTileError_sync (root : BcastRoot) :
  preserves (DistributedTileError_sync cfg root).
Proof. unfold DistributedTileError_sync. preserves_auto. Qed.

Lemma preserves_closeCurrentFrame : preserves closeCurrentFrame.
Proof. unfold closeCurrentFrame. preserves_auto. Qed.

Lemma preserves_isFrameComplete (n : Z) : preserves (isFrameComplete cfg n).
Proof. unfold isFrameComplete. preserves_auto. Qed.

Lemma preserves_scheduleProcessing (message : Message) :
  preserves (scheduleProcessing message).
Proof. unfold scheduleProcessing. preserves_auto. Qed.

Lemma frame_inv_set_td (st : DFB) (i : nat) (td : TileDesc)
    (ts : TileState) :
  allTiles st !! i = Some td -> is_Some (td_data td) ->
  frame_inv st
    (set_allTiles
       (<[i := mk_TileDesc (td_begin td) (td_tileID td) (td_ownerID td)
                 (Some ts)]> (allTiles st)) st).
Proof.
  intros Hi Hd. unfold frame_inv, aligned, not_active_and_done. simpl.
  repeat split; auto.
  eapply same_descs_insert; [exact Hi|].
  repeat split; simpl; eauto.
Qed.

Lemma preserves_TileData_newFrame (i : nat) : preserves (TileData_newFrame i).
Proof.
  intros st. unfold TileData_newFrame. mstep.
  destruct (allTiles st !! i) as [td|] eqn:Hi; [|apply frame_inv_refl].
  destruct (td_data td) as [ts|] eqn:Hd; [|apply frame_inv_refl].
  simpl. apply frame_inv_set_td; [exact Hi | rewrite Hd; eauto].
Qed.

Lemma preserves_countConvergedTile (errorThreshold : float) (t : Z) :
  preserves (countConvergedTile cfg errorThreshold t).
Proof. unfold countConvergedTile. preserves_auto. Qed.

#[local] Hint Resolve preserves_TileError_update
  preserves_DistributedTileError_sync preserves_closeCurrentFrame
  preserves_isFrameComplete preserves_scheduleProcessing
  preserves_TileData_newFrame preserves_countConvergedTile : preserves.

Lemma preserves_startNewFrame (root : BcastRoot) (errorThreshold : float) :
  preserves (startNewFrame cfg root errorThreshold).
Proof. unfold startNewFrame. preserves_auto. Qed.

Lemma preserves_mapBuffer : preserves mapBuffer.
Proof. unfold mapBuffer. preserves_auto. Qed.

Lemma preserves_unmap : preserves unmap.
Proof. unfold unmap. preserves_auto. Qed.

Lemma preserves_getTileDescFor (c : vec2i) : preserves (getTileDescFor cfg c).
Proof. unfold getTileDescFor. preserves_auto. Qed.

#[local] Hint Resolve preserves_getTileDescFor : preserves.

Lemma preserves_recordCompletedTile (td : TileDesc) (ts : TileState) :
  preserves (recordCompletedTile cfg td ts).
Proof. unfold recordCompletedTile. preserves_auto. Qed.

Lemma preserves_tileIsCompleted (i : nat) : preserves (tileIsCompleted cfg i).
Proof.
  intros st. unfold tileIsCompleted. unfold bind at 1, get. simpl.
  destruct (allTiles st !! i) as [td|] eqn:Hi; [|apply frame_inv_refl].
  destruct (td_data td) as [ts|] eqn:Hd; [|apply frame_inv_refl].
  unfold bind at 1, set_td_data, modify. simpl.
  eapply frame_inv_trans.
  - apply frame_inv_set_td; [exact Hi | rewrite Hd; eauto].
  - destruct (IamAWorker cfg); apply preserves_recordCompletedTile.
Qed.

Lemma preserves_TileData_process (i : nat) (tile : Tile) :
  preserves (TileData_process cfg i tile).
Proof.
  intros st. unfold TileData_process. unfold bind at 1, get. simpl.
  destruct (allTiles st !! i) as [td|] eqn:Hi; [|apply frame_inv_refl].
  destruct (td_data td) as [ts|] eqn:Hd; [|apply frame_inv_refl].
  destruct (tile_process ts tile) as [ts' completed].
  unfold bind at 1, set_td_data, modify. simpl.
  eapply frame_inv_trans.
  - apply frame_inv_set_td; [exact Hi | rewrite Hd; eauto].
  - apply preserves_when, preserves_tileIsCompleted.
Qed.

#[local] Hint Resolve preserves_TileData_process : preserves.

Lemma preserves_processMessage_WriteTile (coords : vec2i) (tile : Tile) :
  preserves (processMessage_WriteTile cfg coords tile).
Proof. unfold processMessage_WriteTile. preserves_auto. Qed.

#[local] Hint Resolve preserves_processMessage_WriteTile : preserves.

Lemma preserves_scheduledTask (message : Message) :
  preserves (scheduledTask cfg message).
Proof. unfold scheduledTask. preserves_auto. Qed.

#[local] Hint Resolve preserves_scheduledTask : preserves.

Lemma preserves_runScheduled : preserves (runScheduled cfg).
Proof. unfold runScheduled. preserves_auto. Qed.

Lemma preserves_incoming (message : Message) : preserves (incoming message).
Proof. unfold incoming. preserves_auto. Qed.

Lemma preserves_sendTo (rank : Z) (message : Message) :
  preserves (sendTo rank message).
Proof. unfold sendTo. preserves_auto. Qed.

#[local] Hint Resolve preserves_sendTo : preserves.

Lemma preserves_sendCancelRenderingMessage :
  preserves (sendCancelRenderingMessage cfg).
Proof. unfold sendCancelRenderingMessage. preserves_auto. Qed.

Lemma preserves_setTile (tile : Tile) : preserves (setTile cfg tile).
Proof. unfold setTile. preserves_auto. Qed.

Lemma preserves_processMessage_MasterTile (msg : MasterTileMessage_FB) :
  preserves (processMessage_MasterTile cfg msg).
Proof.
  unfold processMessage_MasterTile. apply preserves_bind.
  - preserves_auto.
  - intros _ st. mstep.
    destruct (localFBonMaster st) as [fb|] eqn:Hfb; simpl;
      [|apply frame_inv_refl].
    unfold frame_inv, aligned, not_active_and_done. simpl.
    repeat split; auto using same_descs_refl; rewrite ?Hfb; eauto.
Qed.

#[local] Hint Resolve preserves_processMessage_MasterTile : preserves.

Lemma preserves_gatherFinalTiles
    (tileGatherResult : list MasterTileMessage_FB) :
  preserves (gatherFinalTiles cfg tileGatherResult).
Proof. unfold gatherFinalTiles. preserves_auto. Qed.

Lemma preserves_gatherFinalErrors
    (fromRanks : list (list (vec2i * float))) :
  preserves (gatherFinalErrors cfg fromRanks).
Proof. unfold gatherFinalErrors. preserves_auto. Qed.

#[local] Hint Resolve preserves_gatherFinalTiles
  preserves_gatherFinalErrors : preserves.

Lemma preserves_waitUntilFinished
    (tileGatherResult : list MasterTileMessage_FB)
    (fromRanks : list (list (vec2i * float))) :
  preserves (waitUntilFinished cfg tileGatherResult fromRanks).
Proof. unfold waitUntilFinished. preserves_auto. Qed.

Lemma preserves_accumID (tile : vec2i) : preserves (accumID cfg tile).
Proof. unfold accumID. preserves_auto. Qed.

Lemma preserves_beginFrame : preserves beginFrame.
Proof. unfold beginFrame. preserves_auto. Qed.

Lemma preserves_incrementAccumID (i : Z) : preserves (incrementAccumID i).
Proof. unfold incrementAccumID. preserves_auto. Qed.

#[local] Hint Resolve preserves_incrementAccumID : preserves.

Lemma preserves_endFrame (errorThreshold : float) :
  preserves (endFrame cfg errorThreshold).
Proof. unfold endFrame. preserves_auto. Qed.

Lemma runOp_frame_inv (op : FrameOp) (st : DFB) :
  frame_inv st (runOp cfg op st).
Proof.
  destruct op; simpl.
  - apply preserves_startNewFrame.
  - apply preserves_setTile.
  - apply preserves_incoming.
  - apply preserves_runScheduled.
  - apply preserves_accumID.
  - apply preserves_sendCancelRenderingMessage.
  - apply preserves_waitUntilFinished.
  - apply preserves_mapBuffer.
  - apply preserves_unmap.
Qed.

Lemma runOps_frame_inv (ops : list FrameOp) (st : DFB) :
  frame_inv st (runOps cfg ops st).
Proof.
  revert st. induction ops as [|op ops IH]; intros st; simpl.
  - apply frame_inv_refl.
  - eapply frame_inv_trans; [apply runOp_frame_inv | apply IH].
Qed.

Lemma runFrame_frame_inv (frame : list FrameOp * float) (st : DFB) :
  frame_inv st (runFrame cfg frame st).
Proof.
  unfold runFrame.
  eapply frame_inv_trans; [apply preserves_beginFrame|].
  eapply frame_inv_trans; [apply runOps_frame_inv|].
  apply preserves_endFrame.
Qed.

Lemma runFrames_frame_inv (frames : list (list FrameOp * float)) (st : DFB) :
  frame_inv st (runFrames cfg frames st).
Proof.
  revert st. induction frames as [|frame frames IH]; intros st; simpl.
  - apply frame_inv_refl.
  - eapply frame_inv_trans; [apply runFrame_frame_inv | apply IH].
Qed.

Lemma tiles_wf_frame_inv (st st' : DFB) :
  frame_inv st st' -> tiles_wf cfg st -> tiles_wf cfg st'.
Proof.
  intros (Hmy & HF & _) [Hlinked Hlen]. split.
  - rewrite Hmy. eapply Forall_impl; [exact Hlinked|].
    intros i (td & ts & Hi & Hd).
    destruct (Forall2_lookup_l _ _ _ _ _ HF Hi) as (td' & Hi' & Hs).
    destruct Hs as (_ & _ & _ & Hdata).
    destruct (proj2 Hdata) as [ts' Hd']; [rewrite Hd; eauto|].
    exists td', ts'. split; assumption.
  - apply Forall2_length in HF. rewrite <- HF. exact Hlen.
Qed.

Lemma myTiles_complete_frame_inv (st st' : DFB) :
  frame_inv st st' -> myTiles_complete cfg st -> myTiles_complete cfg st'.
Proof.
  intros (Hmy & HF & _) Hcomplete. unfold myTiles_complete in *.
  rewrite Hmy, Hcomplete. apply countb_ext. intros t. symmetry.
  apply mine_at_same_desc. exact HF.
Qed.


(** X10.  Well-formed tiles stay well formed over any number of frames:
    [myTiles] keeps pointing to [TileData] objects of [allTiles], one for
    each tile of the rank, so every later [startNewFrame] on an inactive
    frame returns. *)
Theorem frames_keep_tiles_well_formed
    (frames : list (list FrameOp * float)) (st : DFB)
    (root : BcastRoot) (errorThreshold : float)
    (Hwf : tiles_wf cfg st)
    (Hcomplete : myTiles_complete cfg st) :
  let st' := runFrames cfg frames st in
  tiles_wf cfg st'
  /\ myTiles_complete cfg st'
  /\ (frameIsActive st' = false ->
      fst (startNewFrame cfg root errorThreshold st') = inr tt).
Proof.
  intros st'. pose proof (runFrames_frame_inv frames st) as Hinv.
  fold st' in Hinv.
  pose proof (tiles_wf_frame_inv _ _ Hinv Hwf) as Hwf'.
  split; [exact Hwf'|]. split.
  - eapply myTiles_complete_frame_inv; eauto.
  - intros Hin.
    destruct (startNewFrame_inactive root errorThreshold st' Hin Hwf')
      as (st'' & E & _).
    rewrite E. reflexivity.
Qed.

(** X11.  The vectors [tileIDs] and [tileErrors] of the error-only gather
    always have the same length: if they are aligned, they are still
    aligned after any number of frames. *)
Theorem frames_keep_pending_vectors_aligned
    (frames : list (list FrameOp * float)) (st : DFB)
    (Haligned : length (tileIDs st) = length (tileErrors st)) :
  length (tileIDs (runFrames cfg frames st))
  = length (tileErrors (runFrames cfg frames st)).
Proof.
  destruct (runFrames_frame_inv frames st) as (_ & _ & Ha & _).
  apply Ha. exact Haligned.
Qed.

(** X12.  A frame is never both active and done: if the two flags are not
    both set, no sequence of frames sets both. *)
Theorem frames_never_active_and_done
    (frames : list (list FrameOp * float)) (ops : list FrameOp) (st : DFB)
    (Hstart : frameIsActive st && frameIsDone st = false) :
  let st' := runOps cfg ops (runFrames cfg frames st) in
  frameIsActive st' && frameIsDone st' = false.
Proof.
  intros st'.
  destruct (runFrames_frame_inv frames st) as (_ & _ & _ & H1 & _).
  destruct (runOps_frame_inv ops (runFrames cfg frames st))
    as (_ & _ & _ & H2 & _).
  apply H2, H1. exact Hstart.
Qed.

(** X13.  Whether the image can be mapped is fixed at construction: after
    any number of frames [mapBuffer] returns the local framebuffer on the
    master when the format is not NONE, and fails with its runtime error on
    every other rank and for the format NONE. *)
Theorem mapBuffer_available_on_master_only
    (td0 : vec2i -> Z -> TileState)
    (frames : list (list FrameOp * float)) (st : DFB)
    (Hctor : DistributedFrameBuffer cfg td0 = inr st) :
  let st' := runFrames cfg frames st in
  if IamTheMaster cfg && negb (fmt_is_none (colorBufferFormat cfg))
  then exists fb, mapBuffer st' = (inr fb, st') /\ unmap st' = (inr tt, st')
  else fst (mapBuffer st')
       = inl (RuntimeError
           "#osp:mpi:dfb: tried to 'ospMap()' a frame buffer that doesn't have a host-side correspondence").
Proof.
  intros st'.
  destruct (runFrames_frame_inv frames st) as (_ & _ & _ & _ & Hfb).
  fold st' in Hfb.
  assert (H0 : localFBonMaster st
               = if IamTheMaster cfg
                    && negb (fmt_is_none (colorBufferFormat cfg))
                 then Some (mk_LocalFrameBuffer ∅ ∅ ∅ ∅) else None).
  { revert Hctor. unfold DistributedFrameBuffer.
    destruct (createTiles cfg td0) as [e|[all my]]; [discriminate|].
    intros [= <-]. reflexivity. }
  unfold mapBuffer, unmap.
  destruct (IamTheMaster cfg && negb (fmt_is_none (colorBufferFormat cfg))).
  - destruct (proj2 Hfb) as [fb Hfb']; [rewrite H0; eauto|].
    exists fb. mstep. rewrite Hfb'. split; reflexivity.
  - destruct (localFBonMaster st') as [fb|] eqn:Hfb'.
    + destruct (proj1 Hfb) as [fb0 Hfb0]; [eauto|]. congruence.
    + mstep. rewrite Hfb'. reflexivity.
Qed.

(** X14.  The constructor leaves a framebuffer with one descriptor for each
    tile of the grid, [myTiles] pointing to the [TileData] objects of the
    tiles this rank owns and to nothing else, both counters of every tile 0,
    and no frame active or done. *)
Theorem DistributedFrameBuffer_constructs_well_formed
    (td0 : vec2i -> Z -> TileState) (st : DFB) (t : Z)
    (Htile : 1 <= TILE_SIZE)
    (Hwidth : 0 <= vx (numPixels cfg))
    (Hheight : 0 <= vy (numPixels cfg))
    (Hrank : 0 <= world_rank cfg < 2 ^ 64)
    (Hctor : DistributedFrameBuffer cfg td0 = inr st)
    (Ht : 0 <= t < getTotalTiles cfg) :
  tiles_wf cfg st
  /\ myTiles_complete cfg st
  /\ Z.of_nat (length (allTiles st)) = getTotalTiles cfg
  /\ lookupZ (tileAccumID st) t = Some 0
  /\ lookupZ (tileInstances st) t = Some 0
  /\ frameIsActive st = false
  /\ frameIsDone st = false.
Proof.
  destruct (DistributedFrameBuffer_tiles_wf td0 st Htile Hwidth Hheight Hctor)
    as (Hwf & Hlen & _ & _ & Hin).
  split; [exact Hwf|]. split.
  { eapply DistributedFrameBuffer_myTiles_complete; eauto. }
  split; [exact Hlen|].
  revert Hctor. unfold DistributedFrameBuffer.
  destruct (createTiles cfg td0) as [e|[all my]]; [discriminate|].
  intros [= <-]. simpl. unfold lookupZ.
  destruct (Z.ltb_spec t 0); [lia|].
  rewrite !lookup_replicate_2 by lia. repeat split; reflexivity.
Qed.

(** *** The grid of tiles *)

Lemma loop_starts_lookup (fuel : nat) (v n : Z) (k : nat) (x : Z) :
  loop_starts fuel v n !! k = Some x -> x = v + Z.of_nat k * TILE_SIZE.
Proof.
  revert v k. induction fuel as [|fuel IH]; intros v k; simpl;
    [discriminate|].
  destruct (v <? n); [|discriminate].
  destruct k as [|k]; simpl.
  - intros [= <-]. lia.
  - intros H. apply IH in H. lia.
Qed.

Lemma owned_from_app (k : nat) (all : list TileDesc) (td : TileDesc) :
  owned_from k (all ++ [td])
  = owned_from k all
    ++ (if has_data td then [(k + length all)%nat] else []).
Proof.
  revert k. induction all as [|x all IH]; intros k; simpl.
  - rewrite Nat.add_0_r, app_nil_r. reflexivity.
  - rewrite IH, <- app_assoc.
    replace (S k + length all)%nat with (k + S (length all))%nat by lia.
    reflexivity.
Qed.

Lemma tiles_laid_out_push (nx : Z) (all : list TileDesc) (my : list nat)
    (td : TileDesc) :
  tiles_laid_out cfg nx (all, my) ->
  tile_at cfg nx (Z.of_nat (length all)) td ->
  tiles_laid_out cfg nx
    (all ++ [td], if has_data td then my ++ [length all] else my).
Proof.
  intros [Hat Hmy] Htd. simpl in *. split; simpl.
  - intros j tdj Hj. destruct (decide (j < length all)%nat) as [Hlt|Hge].
    + rewrite lookup_app_l in Hj by exact Hlt. eauto.
    + rewrite lookup_app_r in Hj by lia.
      destruct (j - length all)%nat as [|d] eqn:Ed; simpl in Hj;
        [|destruct d; discriminate].
      injection Hj as <-. replace j with (length all) by lia. exact Htd.
  - rewrite owned_from_app, Hmy. simpl.
    destruct (has_data td); [reflexivity | now rewrite app_nil_r].
Qed.

Lemma createTiles_row_layout (td0 : vec2i -> Z -> TileState) (nx r : Z)
    (xs : list Z) (c tileID : Z) (acc : list TileDesc * list nat)
    (tileID' : Z) (acc' : list TileDesc * list nat) :
  0 <= r -> 0 <= c ->
  c + Z.of_nat (length xs) = nx ->
  (forall (k : nat) x, xs !! k = Some x ->
                       x = (c + Z.of_nat k) * TILE_SIZE) ->
  tileID = r * nx + c ->
  Z.of_nat (length acc.1) = tileID ->
  tiles_laid_out cfg nx acc ->
  createTiles_row cfg td0 (r * TILE_SIZE) xs tileID acc
  = inr (tileID', acc') ->
  tiles_laid_out cfg nx acc'
  /\ Z.of_nat (length acc'.1) = r * nx + nx
  /\ tileID' = r * nx + nx.
Proof.
  intros Hr. revert c tileID acc.
  induction xs as [|x xs IH]; intros c tileID acc Hc Hnx Hxs Hid Hlen Hacc;
    simpl.
  - intros [= <- <-]. simpl in Hnx. split; [exact Hacc|]. lia.
  - destruct (ownerIDFromTileID cfg tileID) as [e|ownerID] eqn:Eo;
      [discriminate|].
    destruct acc as [all my]. simpl in Hlen.
    simpl length in Hnx.
    assert (Hx : x = c * TILE_SIZE).
    { rewrite (Hxs 0%nat x eq_refl). f_equal. lia. }
    assert (Hmod : tileID mod nx = c).
    { subst tileID. rewrite Z.add_comm, Z.mod_add by lia.
      apply Z.mod_small. lia. }
    assert (Hdiv : tileID / nx = r).
    { subst tileID. rewrite Z.add_comm, Z.div_add by lia.
      rewrite Z.div_small by lia. lia. }
    set (td := mk_TileDesc (mk_vec2i x (r * TILE_SIZE)) tileID ownerID
                 (if ownerID =? wrap_size_t (globalRank cfg)
                  then Some (td0 (mk_vec2i x (r * TILE_SIZE)) tileID)
                  else None)).
    assert (Htd : tile_at cfg nx (Z.of_nat (length all)) td).
    { rewrite Hlen. unfold tile_at, td. simpl.
      rewrite Hmod, Hdiv, Hx, Eo. repeat split.
      - destruct (Z.eqb_spec ownerID (wrap_size_t (globalRank cfg)));
          [auto | intros [? ?]; discriminate].
      - intros ->. rewrite Z.eqb_refl. eauto. }
    pose proof (tiles_laid_out_push nx all my td Hacc Htd) as Hpush.
    intros E.
    apply (IH (c + 1) (tileID + 1)
             (all ++ [td], if has_data td then my ++ [length all] else my)).
    + lia.
    + lia.
    + intros k y Hk. rewrite (Hxs (S k) y Hk). f_equal. lia.
    + lia.
    + simpl. rewrite length_app. simpl. lia.
    + exact Hpush.
    + rewrite <- E. unfold td, has_data. simpl.
      destruct (ownerID =? wrap_size_t (globalRank cfg)); reflexivity.
Qed.

Lemma createTiles_rows_layout (td0 : vec2i -> Z -> TileState) (nx : Z)
    (ys : list Z) (r tileID : Z) (acc acc' : list TileDesc * list nat) :
  0 <= r ->
  Z.of_nat (length (loop_starts (Z.to_nat (vx (numPixels cfg))) 0
                      (vx (numPixels cfg)))) = nx ->
  (forall (k : nat) y, ys !! k = Some y ->
                       y = (r + Z.of_nat k) * TILE_SIZE) ->
  tileID = r * nx ->
  Z.of_nat (length acc.1) = tileID ->
  tiles_laid_out cfg nx acc ->
  createTiles_rows cfg td0 ys tileID acc = inr acc' ->
  tiles_laid_out cfg nx acc'
  /\ Z.of_nat (length acc'.1) = (r + Z.of_nat (length ys)) * nx.
Proof.
  intros Hr Hnx. revert r tileID acc Hr.
  induction ys as [|y ys IH]; intros r tileID acc Hr Hys Hid Hlen Hacc; simpl.
  - intros [= <-]. split; [exact Hacc|]. simpl. lia.
  - destruct (createTiles_row cfg td0 y _ tileID acc)
      as [e|[tileID1 acc1]] eqn:Erow; [discriminate|].
    intros E.
    assert (Hy : y = r * TILE_SIZE).
    { rewrite (Hys 0%nat y eq_refl). f_equal. lia. }
    subst y.
    pose proof (fun Hc Hn Hx Hi Hl Ha =>
                  createTiles_row_layout td0 nx r _ 0 _ _ _ _
                    Hr Hc Hn Hx Hi Hl Ha Erow) as Hrow.
    destruct Hrow as (H1 & L1 & I1); try assumption; try lia.
    { intros k x Hk. apply loop_starts_lookup in Hk. lia. }
    destruct (IH (r + 1) tileID1 acc1) as [H2 L2]; try assumption; try lia.
    { intros k y Hk. rewrite (Hys (S k) y Hk). f_equal. lia. }
    split; [exact H2|]. rewrite L2. simpl length. lia.
Qed.

(** The tiles of a constructed framebuffer, one by one. *)
Lemma DistributedFrameBuffer_layout (td0 : vec2i -> Z -> TileState)
    (st : DFB) :
  1 <= TILE_SIZE ->
  0 < vx (numPixels cfg) -> 0 <= vy (numPixels cfg) ->
  DistributedFrameBuffer cfg td0 = inr st ->
  tiles_laid_out cfg (vx (numTiles cfg)) (allTiles st, myTiles st)
  /\ 0 < vx (numTiles cfg).
Proof.
  intros HT Hw Hh. unfold DistributedFrameBuffer, createTiles.
  destruct (createTiles_rows cfg td0 _ 0 ([], [])) as [e|[all my]] eqn:E;
    [discriminate|].
  intros [= <-]. simpl.
  assert (Hnx : Z.of_nat (length (loop_starts (Z.to_nat (vx (numPixels cfg)))
                                0 (vx (numPixels cfg))))
                = vx (numTiles cfg)).
  { rewrite loop_starts_length by lia.
    destruct (Z.ltb_spec 0 (vx (numPixels cfg))); [|lia].
    unfold numTiles, cdiv. simpl. rewrite Z.quot_div_nonneg by lia.
    f_equal. lia. }
  assert (Hpos : 0 < vx (numTiles cfg)).
  { rewrite <- Hnx, loop_starts_length by lia.
    destruct (Z.ltb_spec 0 (vx (numPixels cfg))); [|lia].
    apply Z.div_str_pos. lia. }
  split; [|exact Hpos].
  eapply (createTiles_rows_layout td0 (vx (numTiles cfg)) _ 0 0 ([], []));
    try exact E; try exact Hnx; try lia.
  all: try (intros k y Hk; apply loop_starts_lookup in Hk; lia).
  all: try (split; [intros j td Hj; discriminate | reflexivity]).
  reflexivity.
Qed.

(** X15.  Tile ids and tile origins convert into each other: in a
    constructed framebuffer the descriptor at position [t] of [allTiles] has
    id [t], origin ((t mod nx) * TILE_SIZE, (t / nx) * TILE_SIZE) for [nx]
    tiles per row and the owner that [ownerIDFromTileID] gives [t], and
    [getTileIDof] and [getTileDescFor] take that origin back to [t] and to
    the descriptor. *)
Theorem tile_id_and_origin_round_trip
    (td0 : vec2i -> Z -> TileState) (st : DFB) (t : Z)
    (Htile : 1 <= TILE_SIZE)
    (Hwidth : 0 < vx (numPixels cfg))
    (Hheight : 0 <= vy (numPixels cfg))
    (Hctor : DistributedFrameBuffer cfg td0 = inr st)
    (Ht : 0 <= t < getTotalTiles cfg)
    (Hsmall : getTotalTiles cfg < 2 ^ 31) :
  exists td,
    lookupZ (allTiles st) t = Some td
    /\ td_tileID td = t
    /\ td_begin td
       = mk_vec2i (t mod vx (numTiles cfg) * TILE_SIZE)
                  (t / vx (numTiles cfg) * TILE_SIZE)
    /\ ownerIDFromTileID cfg t = inr (td_ownerID td)
    /\ getTileIDof cfg (td_begin td) = t
    /\ getTileDescFor cfg (td_begin td) st = (inr (Z.to_nat t, td), st).
Proof.
  destruct (DistributedFrameBuffer_layout td0 st Htile Hwidth Hheight Hctor)
    as [[Hat _] Hnx]. simpl in Hat.
  destruct (DistributedFrameBuffer_tiles_wf td0 st Htile) as (_ & Hlen & _);
    [lia | exact Hheight | exact Hctor |].
  destruct (lookupZ_is_Some t (allTiles st)) as [td Htd]; [lia|].
  assert (Hnat : allTiles st !! Z.to_nat t = Some td).
  { revert Htd. unfold lookupZ. destruct (Z.ltb_spec t 0); [lia | auto]. }
  destruct (Hat _ _ Hnat) as (Hid & Hbegin & Howner & _).
  rewrite Z2Nat.id in Hid, Hbegin, Howner by lia.
  assert (Hback : getTileIDof cfg (td_begin td) = t).
  { unfold getTileIDof, cdiv. rewrite Hbegin. simpl.
    rewrite !Z.quot_mul by lia.
    change (cdiv (vx (numPixels cfg) + TILE_SIZE - 1) TILE_SIZE)
      with (vx (numTiles cfg)).
    pose proof (Z.mod_pos_bound t (vx (numTiles cfg)) Hnx) as Hm.
    pose proof (Z.div_pos t (vx (numTiles cfg))) as Hd.
    pose proof (Z.mul_div_le t (vx (numTiles cfg)) Hnx) as Hle.
    pose proof (Z.div_mod t (vx (numTiles cfg))) as Hdm.
    rewrite (wrap_int32_small (t / _ * _)) by lia.
    rewrite wrap_int32_small by lia.
    rewrite wrap_size_t_small by lia. lia. }
  exists td. repeat split; try assumption.
  unfold getTileDescFor. mstep. rewrite Hback, Htd. reflexivity.
Qed.


(** *** The accumulation counter over whole frames *)

Lemma runFrame_accumID (frame : list FrameOp * float) (st : DFB) :
  0 <= getTotalTiles cfg ->
  getTotalTiles cfg <= Z.of_nat (length (tileInstances st)) ->
  getTotalTiles cfg <= Z.of_nat (length (tileAccumID st)) ->
  length (tileInstances (runFrame cfg frame st)) = length (tileInstances st)
  /\ length (tileAccumID (runFrame cfg frame st)) = length (tileAccumID st)
  /\ forall i,
       lookupZ (tileAccumID (runFrame cfg frame st)) i
       = if (0 <=? i) && (i <? getTotalTiles cfg)
         then (fun a => wrap_int32 (a + 1)) <$> lookupZ (tileAccumID st) i
         else lookupZ (tileAccumID st) i.
Proof.
  intros Hpos Hinst Hacc. unfold runFrame.
  set (st1 := runOps cfg (fst frame) (snd (beginFrame st))).
  assert (Hst : stable st st1).
  { eapply stable_trans; [apply keeps_beginFrame | apply runOps_stable]. }
  destruct Hst as [Eacc Elen].
  destruct (endFrame_state (snd frame) st1) as (acc' & E & Hl & Hlook);
    [exact Hpos | rewrite Elen; exact Hinst | rewrite Eacc; exact Hacc |].
  rewrite E. simpl. split; [|split].
  - rewrite length_app, length_replicate, length_drop. lia.
  - rewrite Hl, Eacc. reflexivity.
  - intros i. rewrite Hlook, Eacc. reflexivity.
Qed.

(** X16.  Each frame advances the accumulation counter of every tile by
    exactly one, whatever happens between [beginFrame] and [endFrame]
    (queries, completed tiles, failing operations): after [n] frames
    [tileAccumID[t]] is [n] higher. *)
Theorem frames_advance_accumID
    (frames : list (list FrameOp * float)) (st : DFB) (t a : Z)
    (Hinst : getTotalTiles cfg <= Z.of_nat (length (tileInstances st)))
    (Hacc : getTotalTiles cfg <= Z.of_nat (length (tileAccumID st)))
    (Ht : 0 <= t < getTotalTiles cfg)
    (Ha : lookupZ (tileAccumID st) t = Some a)
    (Hrange : - 2 ^ 31 <= a /\ a + Z.of_nat (length frames) < 2 ^ 31) :
  lookupZ (tileAccumID (runFrames cfg frames st)) t
  = Some (a + Z.of_nat (length frames)).
Proof.
  revert st a Hinst Hacc Ha Hrange.
  induction frames as [|frame frames IH]; intros st a Hinst Hacc Ha Hrange.
  - simpl. rewrite Z.add_0_r. exact Ha.
  - simpl runFrames.
    destruct (runFrame_accumID frame st) as (Hl1 & Hl2 & Hlook);
      [lia | exact Hinst | exact Hacc |].
    change (foldl (fun st0 frame0 => runFrame cfg frame0 st0)
              (runFrame cfg frame st) frames)
      with (runFrames cfg frames (runFrame cfg frame st)).
    simpl length in Hrange.
    rewrite (IH (runFrame cfg frame st) (a + 1)).
    + f_equal. simpl length. lia.
    + rewrite Hl1. exact Hinst.
    + rewrite Hl2. exact Hacc.
    + rewrite Hlook.
      destruct (Z.leb_spec 0 t); [|lia].
      destruct (Z.ltb_spec t (getTotalTiles cfg)); [|lia].
      simpl. rewrite Ha. simpl. rewrite wrap_int32_small by lia. reflexivity.
    + lia.
Qed.

(** *** Completion of tiles *)

Lemma tileIsCompleted_NONE_eq (i : nat) (st : DFB) (td : TileDesc)
    (ts : TileState) :
  colorBufferFormat cfg = OSP_FB_NONE ->
  allTiles st !! i = Some td ->
  td_data td = Some ts ->
  exists st',
    tileIsCompleted cfg i st = (inr tt, st')
    /\ allTiles st'
       = <[i := mk_TileDesc (td_begin td) (td_tileID td) (td_ownerID td)
                  (Some (finishedTile cfg ts))]> (allTiles st)
    /\ myTiles st' = myTiles st
    /\ tileIDs st'
       = tileIDs st ++ [mk_vec2i (cdiv (vx (td_begin td)) TILE_SIZE)
                                 (cdiv (vy (td_begin td)) TILE_SIZE)]
    /\ tileErrors st' = tileErrors st ++ [tile_error (finishedTile cfg ts)]
    /\ numTilesCompletedThisFrame st' = numTilesCompletedThisFrame st + 1
    /\ (if numTilesCompletedThisFrame st + 1 =? expectedTiles cfg st
        then frameIsActive st' = false /\ frameIsDone st' = true
        else frameIsActive st' = frameIsActive st
             /\ frameIsDone st' = frameIsDone st).
Proof.
  intros Hfmt Hi Hd.
  unfold tileIsCompleted, finishedTile. unfold bind at 1, get. simpl.
  rewrite Hi, Hd, Hfmt. simpl.
  set (ts' := match pixelOp with
              | Some (_, postAccum) => postAccum ts
              | None => ts
              end).
  unfold bind at 1, set_td_data, modify. simpl.
  assert (E : forall st0,
    recordCompletedTile cfg td ts' st0
    = (inr tt,
       let st2 :=
         set_numTilesCompletedThisFrame (numTilesCompletedThisFrame st0 + 1)
           (set_tileErrors (tileErrors st0 ++ [tile_error ts'])
              (set_tileIDs
                 (tileIDs st0
                  ++ [mk_vec2i (cdiv (vx (td_begin td)) TILE_SIZE)
                               (cdiv (vy (td_begin td)) TILE_SIZE)]) st0)) in
       if numTilesCompletedThisFrame st0 + 1 =? expectedTiles cfg st0
       then set_frameIsDone true (set_frameIsActive false st2)
       else st2)).
  { intros st0. unfold recordCompletedTile. rewrite Hfmt. simpl.
    unfold bind at 1. unfold bind at 1. unfold modify at 1 2. simpl.
    unfold bind at 1. rewrite isFrameComplete_eq. simpl.
    unfold expectedTiles. simpl.
    destruct (_ =? _); reflexivity. }
  destruct (IamAWorker cfg); rewrite E; clear E; simpl;
    unfold expectedTiles; simpl;
    (eexists; split; [reflexivity|]);
    destruct (_ =? _); simpl; repeat split; reflexivity.
Qed.

Lemma tile_at_same_desc (nx j : Z) (td td' : TileDesc) :
  same_desc td td' -> tile_at cfg nx j td -> tile_at cfg nx j td'.
Proof.
  intros (Hb & Hi & Ho & Hd) (Hid & Hbegin & Hown & Hdata).
  unfold tile_at. rewrite Hb, Hi, Ho, Hd. auto.
Qed.

(** The tile [t] of a framebuffer that went through frame operations since
    its construction is still where [createTiles] put it. *)
Lemma reached_tile (td0 : vec2i -> Z -> TileState) (st0 st : DFB) (t : Z) :
  1 <= TILE_SIZE ->
  0 < vx (numPixels cfg) -> 0 <= vy (numPixels cfg) ->
  DistributedFrameBuffer cfg td0 = inr st0 ->
  frame_inv st0 st ->
  0 <= t < getTotalTiles cfg ->
  exists td,
    allTiles st !! Z.to_nat t = Some td
    /\ tile_at cfg (vx (numTiles cfg)) t td.
Proof.
  intros HT Hw Hh Hctor (_ & Hsame & _) Ht.
  destruct (DistributedFrameBuffer_layout td0 st0 HT Hw Hh Hctor)
    as [[Hat _] _]. simpl in Hat.
  destruct (DistributedFrameBuffer_tiles_wf td0 st0 HT) as (_ & Hlen & _);
    [lia | exact Hh | exact Hctor |].
  destruct (lookupZ_is_Some t (allTiles st0)) as [td Htd]; [lia|].
  assert (Hnat : allTiles st0 !! Z.to_nat t = Some td).
  { revert Htd. unfold lookupZ. destruct (Z.ltb_spec t 0); [lia | auto]. }
  destruct (Forall2_lookup_l _ _ _ _ _ Hsame Hnat) as (td' & Htd' & Hdesc).
  exists td'. split; [exact Htd'|].
  apply (tile_at_same_desc _ _ td); [exact Hdesc|].
  specialize (Hat (Z.to_nat t) td Hnat).
  rewrite Z2Nat.id in Hat by lia. exact Hat.
Qed.

(** X17.  In the error-only format a completed tile is reported under its
    position in the tile grid: for the tile [t] that this rank owns,
    [tileIsCompleted] returns, pushes [(t mod nx, t / nx)] on [tileIDs] and
    the tile's error on [tileErrors], and counts the tile, at any point of
    the life of a constructed framebuffer. *)
Theorem completed_tile_reports_its_grid_position
    (td0 : vec2i -> Z -> TileState)
    (frames : list (list FrameOp * float)) (ops : list FrameOp)
    (st0 : DFB) (t : Z)
    (Htile : 1 <= TILE_SIZE)
    (Hwidth : 0 < vx (numPixels cfg))
    (Hheight : 0 <= vy (numPixels cfg))
    (Hctor : DistributedFrameBuffer cfg td0 = inr st0)
    (Hfmt : colorBufferFormat cfg = OSP_FB_NONE)
    (Ht : 0 <= t < getTotalTiles cfg)
    (Hmine : ownerIDFromTileID cfg t = inr (wrap_size_t (world_rank cfg))) :
  let st := runOps cfg ops (runFrames cfg frames st0) in
  exists st' err,
    tileIsCompleted cfg (Z.to_nat t) st = (inr tt, st')
    /\ tileIDs st'
       = tileIDs st ++ [mk_vec2i (t mod vx (numTiles cfg))
                                 (t / vx (numTiles cfg))]
    /\ tileErrors st' = tileErrors st ++ [err]
    /\ numTilesCompletedThisFrame st' = numTilesCompletedThisFrame st + 1.
Proof.
  intros st.
  assert (Hinv : frame_inv st0 st).
  { eapply frame_inv_trans; [apply runFrames_frame_inv|].
    apply runOps_frame_inv. }
  destruct (DistributedFrameBuffer_layout td0 st0 Htile Hwidth Hheight Hctor)
    as [_ Hnx].
  destruct (reached_tile td0 st0 st t Htile Hwidth Hheight Hctor Hinv Ht)
    as (td & Htd & Hid & Hbegin & Hown & Hdata).
  assert (Hts : is_Some (td_data td)).
  { apply Hdata. rewrite Hmine in Hown. injection Hown as <-. reflexivity. }
  destruct Hts as [ts Hts].
  destruct (tileIsCompleted_NONE_eq (Z.to_nat t) st td ts Hfmt Htd Hts)
    as (st' & E & _ & _ & Hids & Herrs & Hcount & _).
  exists st', (tile_error (finishedTile cfg ts)).
  split; [exact E|]. split; [|split; [exact Herrs | exact Hcount]].
  rewrite Hids, Hbegin. simpl. unfold cdiv.
  rewrite !Z.quot_mul by lia. reflexivity.
Qed.

Lemma forM__app {A} (l1 l2 : list A) (body : A -> M unit) (st : DFB) :
  forM_ (l1 ++ l2) body st
  = match forM_ l1 body st with
    | (inl e, st1) => (inl e, st1)
    | (inr _, st1) => forM_ l2 body st1
    end.
Proof.
  revert st. induction l1 as [|a l1 IH]; intros st; simpl.
  - reflexivity.
  - unfold bind. destruct (body a st) as [[e|[]] st1]; [reflexivity|].
    apply IH.
Qed.

Lemma is_TileData_insert (st st' : DFB) (i j : nat) (td : TileDesc)
    (ts : TileState) :
  allTiles st'
  = <[i := mk_TileDesc (td_begin td) (td_tileID td) (td_ownerID td)
             (Some ts)]> (allTiles st) ->
  is_TileData st j -> is_TileData st' j.
Proof.
  intros E (tdj & tsj & Hj & Hd). unfold is_TileData. rewrite E.
  destruct (decide (i = j)) as [->|Hne].
  - exists (mk_TileDesc (td_begin td) (td_tileID td) (td_ownerID td)
              (Some ts)), ts.
    split; [|reflexivity].
    apply list_lookup_insert_eq. eapply lookup_lt_Some; exact Hj.
  - exists tdj, tsj. split; [|exact Hd].
    rewrite list_lookup_insert_ne by exact Hne. exact Hj.
Qed.

(** Tiles completed while the count stays away from the expected number
    leave the frame as it is. *)
Lemma completeTiles_open (l : list nat) (st : DFB) :
  colorBufferFormat cfg = OSP_FB_NONE ->
  Forall (is_TileData st) l ->
  (forall k, 1 <= k <= Z.of_nat (length l) ->
             numTilesCompletedThisFrame st + k <> expectedTiles cfg st) ->
  exists st',
    completeTiles cfg l st = (inr tt, st')
    /\ frameIsActive st' = frameIsActive st
    /\ frameIsDone st' = frameIsDone st
    /\ numTilesCompletedThisFrame st'
       = numTilesCompletedThisFrame st + Z.of_nat (length l)
    /\ expectedTiles cfg st' = expectedTiles cfg st
    /\ (forall j, is_TileData st j -> is_TileData st' j).
Proof.
  intros Hfmt. revert st. induction l as [|i l IH]; intros st Hown Hk.
  - exists st. simpl. repeat split; auto. lia.
  - inversion Hown as [|? ? (td & ts & Hi & Hd) Hrest]; subst.
    destruct (tileIsCompleted_NONE_eq i st td ts Hfmt Hi Hd)
      as (st1 & E1 & Hall & Hmy & _ & _ & Hcount & Hflags).
    assert (Hexp : expectedTiles cfg st1 = expectedTiles cfg st).
    { unfold expectedTiles. rewrite Hmy. reflexivity. }
    destruct (Z.eqb_spec (numTilesCompletedThisFrame st + 1)
                (expectedTiles cfg st)) as [Heq|_].
    { exfalso. apply (Hk 1); [simpl length; lia | exact Heq]. }
    destruct Hflags as [Ha Hdn].
    destruct (IH st1) as (st' & E & Ha' & Hd' & Hc' & He' & Hdata').
    + eapply Forall_impl; [exact Hrest|].
      intros j. apply (is_TileData_insert st st1 i j td _ Hall).
    + intros k Hkr. rewrite Hcount, Hexp.
      specialize (Hk (k + 1)). simpl length in Hk. lia.
    + exists st'. unfold completeTiles in *. simpl forM_.
      unfold bind at 1. rewrite E1. split; [exact E|].
      rewrite Ha', Hd', Hc', He', Ha, Hdn, Hcount, Hexp.
      simpl length. repeat split; try lia.
      intros j Hj. apply Hdata'.
      apply (is_TileData_insert st st1 i j td _ Hall Hj).
Qed.

Lemma gatherFinalErrors_returns (fromRanks : list (list (vec2i * float)))
    (st : DFB) :
  fst (gatherFinalErrors cfg fromRanks st) = inr tt.
Proof.
  unfold gatherFinalErrors, when. destruct (IamTheMaster cfg); [|reflexivity].
  revert st. induction fromRanks as [|fromRank rest IH]; intros st.
  - reflexivity.
  - simpl forM_. unfold bind at 1.
    assert (E : forall l st0,
      fst (forM_ l (fun entry : vec2i * float =>
                      if SFltb (snd entry) inf
                      then TileError_update cfg (fst entry) (snd entry)
                      else ret tt) st0) = inr tt).
    { induction l as [|e l IHl]; intros st0; [reflexivity|].
      simpl forM_. unfold bind at 1.
      destruct (SFltb (snd e) inf); simpl; apply IHl. }
    specialize (E fromRank st).
    destruct (forM_ fromRank _ st) as [[e|[]] st1]; [discriminate|].
    apply IH.
Qed.

(** X18.  In the error-only format the frame of a rank closes exactly when
    the last of the expected tiles is completed: while tiles are still
    missing the frame stays active and not done, the completion that brings
    the count to the expected number clears [frameIsActive] and sets
    [frameIsDone], and [waitUntilFinished] then returns. *)
Theorem last_completed_tile_closes_the_frame
    (l : list nat) (st : DFB)
    (tileGatherResult : list MasterTileMessage_FB)
    (fromRanks : list (list (vec2i * float)))
    (Hfmt : colorBufferFormat cfg = OSP_FB_NONE)
    (Hown : Forall (is_TileData st) l)
    (Hactive : frameIsActive st = true)
    (Hdone : frameIsDone st = false)
    (Hl : l <> [])
    (Hcount : numTilesCompletedThisFrame st + Z.of_nat (length l)
              = expectedTiles cfg st) :
  (forall l1 l2, l = l1 ++ l2 -> l2 <> [] ->
     exists st1,
       completeTiles cfg l1 st = (inr tt, st1)
       /\ frameIsActive st1 = true /\ frameIsDone st1 = false
       /\ fst (waitUntilFinished cfg tileGatherResult fromRanks st1)
          = inl (Blocked "waiting on frameDoneCond"))
  /\ exists st',
       completeTiles cfg l st = (inr tt, st')
       /\ frameIsActive st' = false /\ frameIsDone st' = true
       /\ fst (waitUntilFinished cfg tileGatherResult fromRanks st')
          = inr tt.
Proof.
  assert (Hprefix : forall l1 l2, l = l1 ++ l2 -> l2 <> [] ->
    exists st1,
      completeTiles cfg l1 st = (inr tt, st1)
      /\ frameIsActive st1 = true /\ frameIsDone st1 = false
      /\ numTilesCompletedThisFrame st1
         = numTilesCompletedThisFrame st + Z.of_nat (length l1)
      /\ expectedTiles cfg st1 = expectedTiles cfg st
      /\ (forall j, is_TileData st j -> is_TileData st1 j)).
  { intros l1 l2 -> Hl2.
    apply Forall_app in Hown as [Hown1 _].
    destruct (completeTiles_open l1 st Hfmt Hown1)
      as (st1 & E & Ha & Hd & Hc & He & Hdata).
    - intros k Hk. rewrite length_app in Hcount.
      destruct l2; [congruence|]. simpl length in Hcount. lia.
    - exists st1. rewrite Ha, Hd. repeat split; assumption. }
  split.
  - intros l1 l2 El Hl2.
    destruct (Hprefix l1 l2 El Hl2) as (st1 & E & Ha & Hd & _).
    exists st1. repeat split; try assumption.
    unfold waitUntilFinished. unfold bind at 1, get. simpl.
    rewrite Hd. reflexivity.
  - destruct (exists_last Hl) as (l0 & i & ->).
    destruct (Hprefix l0 [i] eq_refl) as (st1 & E & Ha & Hd & Hc & He & Hdata);
      [discriminate|].
    apply Forall_app in Hown as [_ Hi].
    inversion Hi as [|? ? Hi' _]; subst.
    destruct (Hdata i Hi') as (td & ts & Htd & Hts).
    destruct (tileIsCompleted_NONE_eq i st1 td ts Hfmt Htd Hts)
      as (st' & E' & _ & _ & _ & _ & _ & Hflags).
    rewrite length_app in Hcount. simpl length in Hcount.
    destruct (Z.eqb_spec (numTilesCompletedThisFrame st1 + 1)
                (expectedTiles cfg st1)) as [_|Hne]; [|lia].
    destruct Hflags as [Ha' Hd'].
    exists st'. unfold completeTiles in *. rewrite forM__app, E.
    simpl forM_. unfold bind at 1. rewrite E'. simpl.
    repeat split; try assumption.
    unfold waitUntilFinished. unfold bind at 1, get. simpl.
    rewrite Hd', Hfmt. simpl.
    destruct (hasVarianceBuffer cfg);
      [apply gatherFinalErrors_returns | reflexivity].
Qed.

(** *** The gather buffer of a rank *)

Lemma MasterTileMessageBuilder_size (coords : vec2i) (error : float)
    (slot : Z) :
  masterMsgSize (colorBufferFormat cfg) (hasDepthBuffer cfg) = inr slot ->
  exists hdr,
    MasterTileMessageBuilder (colorBufferFormat cfg) (hasDepthBuffer cfg)
      (hasNormalBuffer cfg) (hasAlbedoBuffer cfg) coords error = inr hdr
    /\ mt_size hdr = slot + builderExtraBytes cfg
    /\ mt_coords hdr = coords
    /\ mt_error hdr = error.
Proof.
  unfold MasterTileMessageBuilder, builderExtraBytes, masterMsgSize.
  intros H.
  destruct (colorBufferFormat cfg), (hasDepthBuffer cfg),
    (hasNormalBuffer cfg), (hasAlbedoBuffer cfg);
    try discriminate H; injection H as <-;
    simpl; eexists; (split; [reflexivity|]); simpl; repeat split; lia.
Qed.

Lemma masterMsgSize_not_none (slot : Z) :
  masterMsgSize (colorBufferFormat cfg) (hasDepthBuffer cfg) = inr slot ->
  fmt_is_none (colorBufferFormat cfg) = false.
Proof. destruct (colorBufferFormat cfg); [discriminate | reflexivity..]. Qed.

(** One completed tile in a format with a gather buffer. *)
Lemma tileIsCompleted_gather_eq (i : nat) (st : DFB) (td : TileDesc)
    (ts : TileState) (slot : Z) :
  masterMsgSize (colorBufferFormat cfg) (hasDepthBuffer cfg) = inr slot ->
  allTiles st !! i = Some td ->
  td_data td = Some ts ->
  if nextTileWrite st + (slot + builderExtraBytes cfg)
     <=? tileGatherBuffer_size st
  then exists st',
         tileIsCompleted cfg i st = (inr tt, st')
         /\ allTiles st'
            = <[i := mk_TileDesc (td_begin td) (td_tileID td)
                       (td_ownerID td) (Some (finishedTile cfg ts))]>
                (allTiles st)
         /\ myTiles st' = myTiles st
         /\ nextTileWrite st'
            = nextTileWrite st + (slot + builderExtraBytes cfg)
         /\ tileGatherBuffer_size st' = tileGatherBuffer_size st
         /\ gatherOffsets st' = gatherOffsets st ++ [nextTileWrite st]
  else fst (tileIsCompleted cfg i st)
       = inl (UndefinedBehaviour "memcpy past the end of tileGatherBuffer").
Proof.
  intros Hslot Hi Hd.
  pose proof (masterMsgSize_not_none slot Hslot) as Hfmt.
  set (ts' := finishedTile cfg ts).
  set (st1 :=
    set_allTiles
      (<[i := mk_TileDesc (td_begin td) (td_tileID td) (td_ownerID td)
                (Some ts')]> (allTiles st)) st).
  assert (Etc : tileIsCompleted cfg i st = recordCompletedTile cfg td ts' st1).
  { unfold tileIsCompleted. unfold bind at 1, get. simpl.
    rewrite Hi, Hd. unfold bind at 1, set_td_data, modify. simpl.
    subst ts' st1. unfold finishedTile. rewrite Hfmt.
    destruct (IamAWorker cfg); reflexivity. }
  destruct (MasterTileMessageBuilder_size (td_begin td) (tile_error ts')
              slot Hslot) as (hdr & Hb & Hsz & _).
  assert (E : recordCompletedTile cfg td ts' st1
    = if nextTileWrite st + mt_size hdr <=? tileGatherBuffer_size st
      then
        (let st2 :=
           set_tileGatherBuffer
             (tileGatherBuffer st ++ [(nextTileWrite st, hdr, ts')])
             (set_nextTileWrite (nextTileWrite st + mt_size hdr) st1) in
         let st3 :=
           set_numTilesCompletedThisFrame
             (numTilesCompletedThisFrame st + 1) st2 in
         (inr tt,
          if numTilesCompletedThisFrame st + 1 =? expectedTiles cfg st
          then set_frameIsDone true (set_frameIsActive false st3)
          else st3))
      else
        (inl (UndefinedBehaviour "memcpy past the end of tileGatherBuffer"),
         set_nextTileWrite (nextTileWrite st + mt_size hdr) st1)).
  { unfold recordCompletedTile. rewrite Hfmt, Hb. simpl.
    unfold bind at 1. unfold bind at 1. unfold lift at 1. simpl.
    unfold bind at 1, get. simpl.
    unfold bind at 1, modify at 1. simpl.
    destruct (_ <=? _); [|reflexivity].
    unfold modify at 1. simpl.
    unfold bind at 1. rewrite isFrameComplete_eq. simpl.
    unfold expectedTiles. simpl.
    destruct (_ =? _); reflexivity. }
  rewrite Hsz in E. rewrite Etc, E. clear Etc E.
  destruct (_ <=? _); [|reflexivity].
  simpl. eexists. split; [reflexivity|].
  destruct (_ =? _); simpl; unfold gatherOffsets; simpl;
    rewrite ?map_app, ?Hsz; repeat split; reflexivity.
Qed.

(** *** Assertions that an operation keeps *)

Lemma invariant_ret {A} (I : DFB -> Prop) (a : A) : invariant I (ret a).
Proof. intros st H. exact H. Qed.

Lemma invariant_throw {A} (I : DFB -> Prop) (e : Failure) :
  invariant I (@throw _ A e).
Proof. intros st H. exact H. Qed.

Lemma invariant_get (I : DFB -> Prop) : invariant I get.
Proof. intros st H. exact H. Qed.

Lemma invariant_lift {A} (I : DFB -> Prop) (r : Failure + A) :
  invariant I (lift r).
Proof. intros st H. exact H. Qed.

Lemma invariant_modify (I : DFB -> Prop) (f : DFB -> DFB) :
  (forall st, I st -> I (f st)) -> invariant I (modify f).
Proof. intros Hf st H. apply Hf, H. Qed.

Lemma hoare_bind {A B} (P Q R : DFB -> Prop) (m : M A) (f : A -> M B) :
  hoare P m Q -> (forall a, hoare Q (f a) R) ->
  (forall st, Q st -> R st) ->
  hoare P (bind m f) R.
Proof.
  intros Hm Hf HQR st HP. unfold bind.
  specialize (Hm st HP). destruct (m st) as [[e|a] st']; simpl in *.
  - apply HQR, Hm.
  - apply Hf, Hm.
Qed.

Lemma hoare_modify_bind {B} (P Q R : DFB -> Prop) (f : DFB -> DFB)
    (k : M B) :
  (forall st, P st -> Q (f st)) -> hoare Q k R ->
  hoare P (bind (modify f) (fun _ => k)) R.
Proof. intros Hf Hk st HP. apply Hk, Hf, HP. Qed.

Lemma invariant_bind {A B} (I : DFB -> Prop) (m : M A) (f : A -> M B) :
  invariant I m -> (forall a, invariant I (f a)) -> invariant I (bind m f).
Proof. intros Hm Hf. apply (hoare_bind I I I); auto. Qed.

(** The continuation of [get] runs in the state that [get] returned. *)
Lemma invariant_get_bind {B} (I : DFB -> Prop) (k : DFB -> M B) :
  (forall st, I st -> I (snd (k st st))) -> invariant I (bind get k).
Proof. intros Hk st H. apply Hk, H. Qed.

Lemma invariant_when (I : DFB -> Prop) (b : bool) (m : M unit) :
  invariant I m -> invariant I (when b m).
Proof. intros Hm. destruct b; [exact Hm | apply invariant_ret]. Qed.

Lemma invariant_forM_ {A} (I : DFB -> Prop) (l : list A)
    (body : A -> M unit) :
  (forall a, invariant I (body a)) -> invariant I (forM_ l body).
Proof.
  intros Hbody. induction l as [|a l IH]; simpl.
  - apply invariant_ret.
  - apply invariant_bind; [apply Hbody | intros _; exact IH].
Qed.

(** One step of a proof that an operation keeps an assertion; [tac] proves
    that a state change keeps it. *)
Ltac invariant_step tac :=
  lazymatch goal with
  | |- invariant _ (let _ := _ in _) => cbv zeta
  | |- invariant _ (bind _ _) => apply invariant_bind; [|intros ?]
  | |- invariant _ (when _ _) => apply invariant_when
  | |- invariant _ (forM_ _ _) => apply invariant_forM_; intros ?
  | |- invariant _ (modify _) =>
      apply invariant_modify; intros ? ?; solve [tac]
  | |- invariant _ (ret _) => apply invariant_ret
  | |- invariant _ (throw _) => apply invariant_throw
  | |- invariant _ get => apply invariant_get
  | |- invariant _ (lift _) => apply invariant_lift
  | |- invariant _ (match ?x with _ => _ end) => destruct x
  end.

(** *** The gather buffer of a rank *)

Ltac gather_ready_solve :=
  idtac;
  match goal with
  | H : gather_ready _ _ |- _ =>
      unfold gather_ready in *; simpl; exact H
  end.

(** [startNewFrame] leaves the gather buffer ready, also when it fails
    because the frame is already active. *)
Lemma startNewFrame_gather_ready (root : BcastRoot) (errorThreshold : float)
    (slot : Z) :
  masterMsgSize (colorBufferFormat cfg) (hasDepthBuffer cfg) = inr slot ->
  hoare (fun _ => True) (startNewFrame cfg root errorThreshold)
    (gather_ready slot).
Proof.
  intros Hslot.
  pose proof (masterMsgSize_not_none slot Hslot) as Hfmt.
  unfold startNewFrame.
  apply (hoare_modify_bind _ (fun st => nextTileWrite st = 0) _).
  { intros st _. reflexivity. }
  apply (hoare_bind _ (gather_ready slot) _); [| |auto].
  { intros st H. rewrite Hfmt, Hslot. unfold gather_ready. simpl.
    split; [exact H | reflexivity]. }
  intros _. fold (@invariant _ unit (gather_ready slot)).
  apply invariant_get_bind. intros st H.
  destruct (frameIsActive st); [exact H|].
  cbv zeta. revert H.
  generalize (myTiles st) (delayedMessage st). intros my delayed.
  revert st.
  refine (_ : invariant (gather_ready slot) (bind _ _)).
  unfold DistributedTileError_sync, scheduleProcessing, closeCurrentFrame,
    isFrameComplete, TileData_newFrame, countConvergedTile.
  repeat invariant_step gather_ready_solve.
Qed.

Lemma masterMsgSize_nonneg (slot : Z) :
  masterMsgSize (colorBufferFormat cfg) (hasDepthBuffer cfg) = inr slot ->
  0 < slot.
Proof.
  unfold masterMsgSize, sizeof_MasterTileMessage_RGBA_I8,
    sizeof_MasterTileMessage_RGBA_F32, sizeof_MasterTileMessage,
    sizeof_uint32, sizeof_vec4f, sizeof_float.
  pose proof (Z.square_nonneg TILE_SIZE) as Hsq.
  intros H.
  destruct (colorBufferFormat cfg), (hasDepthBuffer cfg);
    try discriminate H; injection H as <-; nia.
Qed.

Lemma builderExtraBytes_nonneg : 0 <= builderExtraBytes cfg.
Proof.
  unfold builderExtraBytes, sizeof_float, sizeof_vec3f.
  pose proof (Z.square_nonneg TILE_SIZE) as Hsq.
  destruct (_ || _ || _), (_ || _); nia.
Qed.


Lemma seqZ_offsets (k b : Z) (n : nat) :
  k :: map (fun j => k + b + j * b) (seqZ 0 (Z.of_nat n))
  = map (fun j => k + j * b) (seqZ 0 (Z.of_nat (S n))).
Proof.
  rewrite Nat2Z.inj_succ.
  rewrite (seqZ_cons 0 (Z.succ (Z.of_nat n))) by lia.
  rewrite Z.pred_succ. simpl. f_equal; [lia|].
  change (Z.succ 0) with (1 + 0).
  rewrite <- fmap_add_seqZ.
  change (map (fun j => k + j * b) (Z.add 1 <$> seqZ 0 (Z.of_nat n)))
    with (map (fun j => k + j * b) (map (Z.add 1) (seqZ 0 (Z.of_nat n)))).
  rewrite map_map. apply map_ext. intros j. lia.
Qed.

(** Tiles completed while the gather buffer has room are written back to
    back. *)
Lemma completeTiles_gather_fits (l : list nat) (st : DFB) (slot : Z) :
  masterMsgSize (colorBufferFormat cfg) (hasDepthBuffer cfg) = inr slot ->
  Forall (is_TileData st) l ->
  nextTileWrite st
  + Z.of_nat (length l) * (slot + builderExtraBytes cfg)
  <= tileGatherBuffer_size st ->
  exists st',
    completeTiles cfg l st = (inr tt, st')
    /\ nextTileWrite st'
       = nextTileWrite st
         + Z.of_nat (length l) * (slot + builderExtraBytes cfg)
    /\ tileGatherBuffer_size st' = tileGatherBuffer_size st
    /\ gatherOffsets st'
       = gatherOffsets st
         ++ map (fun j => nextTileWrite st
                          + j * (slot + builderExtraBytes cfg))
                (seqZ 0 (Z.of_nat (length l))).
Proof.
  intros Hslot.
  pose proof (masterMsgSize_nonneg slot Hslot) as Hpos.
  pose proof builderExtraBytes_nonneg as Hextra.
  set (b := slot + builderExtraBytes cfg) in *.
  revert st. induction l as [|i l IH]; intros st Hown Hroom.
  - exists st. simpl. rewrite app_nil_r. repeat split; lia.
  - inversion Hown as [|? ? (td & ts & Hi & Hd) Hrest]; subst.
    pose proof (tileIsCompleted_gather_eq i st td ts slot Hslot Hi Hd)
      as Hstep.
    fold b in Hstep. simpl length in Hroom.
    destruct (Z.leb_spec (nextTileWrite st + b) (tileGatherBuffer_size st))
      as [_|Hbad]; [|nia].
    destruct Hstep as (st1 & E1 & Hall & _ & Hnext & Hsize & Hoff).
    destruct (IH st1) as (st' & E & Hnext' & Hsize' & Hoff').
    + eapply Forall_impl; [exact Hrest|].
      intros j. apply (is_TileData_insert st st1 i j td _ Hall).
    + rewrite Hnext, Hsize. lia.
    + exists st'. unfold completeTiles in *. simpl forM_.
      unfold bind at 1. rewrite E1. split; [exact E|].
      rewrite Hnext', Hsize', Hoff', Hnext, Hsize, Hoff.
      repeat split; [simpl length; lia|].
      rewrite <- app_assoc. f_equal. simpl app.
      apply seqZ_offsets.
Qed.


(** X19.  Without a depth, normal or albedo buffer the gather buffer that
    [startNewFrame] sizes holds the tiles of the rank: each tile completed
    in the frame is written right after the one before, at 0, [slot], 2 *
    [slot], ..., and as many tiles as the rank owns never pass the end of
    the buffer. *)
Theorem completed_tiles_are_packed_in_the_gather_buffer
    (root : BcastRoot) (errorThreshold : float) (l : list nat)
    (st0 st : DFB) (slot : Z)
    (Hslot : masterMsgSize (colorBufferFormat cfg) (hasDepthBuffer cfg)
             = inr slot)
    (Hplain : hasDepthBuffer cfg || hasNormalBuffer cfg
              || hasAlbedoBuffer cfg = false)
    (Hst : st = snd (startNewFrame cfg root errorThreshold st0))
    (Hown : Forall (is_TileData st) l)
    (Hlen : (length l <= length (myTiles st))%nat) :
  exists st',
    completeTiles cfg l st = (inr tt, st')
    /\ nextTileWrite st' = Z.of_nat (length l) * slot
    /\ gatherOffsets st'
       = gatherOffsets st
         ++ map (fun j => j * slot) (seqZ 0 (Z.of_nat (length l)))
    /\ nextTileWrite st' <= tileGatherBuffer_size st'.
Proof.
  destruct (startNewFrame_gather_ready root errorThreshold slot Hslot st0 I)
    as [Hnext Hbuf].
  rewrite <- Hst in Hnext, Hbuf.
  pose proof (masterMsgSize_nonneg slot Hslot) as Hpos.
  assert (Hextra : builderExtraBytes cfg = 0).
  { unfold builderExtraBytes. rewrite Hplain.
    apply orb_false_iff in Hplain as [Hplain Ha].
    apply orb_false_iff in Hplain as [_ Hn].
    rewrite Hn, Ha. reflexivity. }
  destruct (completeTiles_gather_fits l st slot Hslot Hown)
    as (st' & E & Hnext' & Hsize' & Hoff').
  { rewrite Hnext, Hbuf, Hextra. nia. }
  rewrite Hextra, Hnext, Z.add_0_r in *.
  exists st'. split; [exact E|]. split; [lia|]. split.
  - rewrite Hoff'. f_equal.
  - rewrite Hnext', Hsize', Hbuf. nia.
Qed.


(** *** A master that renders no tile *)

Ltac idle_solve :=
  idtac;
  match goal with
  | H : idle _ _ |- idle _ _ =>
      unfold idle in *; simpl;
      first [ exact H
            | destruct H as (? & ? & ?); repeat split; auto; lia ]
  end.

Lemma idle_no_TileData (st : DFB) (i : nat) (td : TileDesc) :
  idle cfg st -> allTiles st !! i = Some td ->
  td_data td = None /\ mine cfg td = false.
Proof.
  intros (Hall & _) Hi.
  exact (Forall_lookup_1 _ _ _ _ Hall Hi).
Qed.

Lemma idle_TileData_newFrame (i : nat) : invariant (idle cfg) (TileData_newFrame i).
Proof.
  intros st H. unfold TileData_newFrame, bind, get. simpl.
  destruct (allTiles st !! i) as [td|] eqn:Hi; [|exact H].
  destruct (idle_no_TileData st i td H Hi) as [-> _]. exact H.
Qed.

Lemma idle_tileIsCompleted (i : nat) : invariant (idle cfg) (tileIsCompleted cfg i).
Proof.
  intros st H. unfold tileIsCompleted. unfold bind at 1, get. simpl.
  destruct (allTiles st !! i) as [td|] eqn:Hi; [|exact H].
  destruct (idle_no_TileData st i td H Hi) as [-> _]. exact H.
Qed.

Lemma idle_TileData_process (i : nat) (tile : Tile) :
  invariant (idle cfg) (TileData_process cfg i tile).
Proof.
  intros st H. unfold TileData_process. unfold bind at 1, get. simpl.
  destruct (allTiles st !! i) as [td|] eqn:Hi; [|exact H].
  destruct (idle_no_TileData st i td H Hi) as [-> _]. exact H.
Qed.

Lemma idle_countConvergedTile (errorThreshold : float) (t : Z) :
  invariant (idle cfg) (countConvergedTile cfg errorThreshold t).
Proof.
  intros st H. unfold countConvergedTile. unfold bind at 1, get. simpl.
  destruct (SFleb _ _); [|exact H].
  destruct (lookupZ (allTiles st) t) as [td|] eqn:Ht; [|exact H].
  assert (Hi : allTiles st !! Z.to_nat t = Some td).
  { revert Ht. unfold lookupZ. destruct (t <? 0); [discriminate | auto]. }
  destruct (idle_no_TileData st _ td H Hi) as [_ ->]. exact H.
Qed.

(** The test that ends [startNewFrame] never closes the frame of such a
    rank. *)
Lemma idle_isFrameComplete_0 :
  IamAWorker cfg || IamTheMaster cfg && masterIsAWorker cfg = false ->
  wrap_int32 (getTotalTiles cfg) <> 0 ->
  invariant (idle cfg)
    (bind (isFrameComplete cfg 0)
       (fun complete => when complete closeCurrentFrame)).
Proof.
  intros Hrole Htotal st H. unfold bind. rewrite isFrameComplete_eq.
  unfold expectedTiles. rewrite Hrole.
  destruct H as (Hall & Hc & Hd). rewrite Hc.
  replace (0 + 0 =? wrap_int32 (getTotalTiles cfg)) with false
    by (symmetry; apply Z.eqb_neq; lia).
  unfold idle. simpl. auto.
Qed.

Ltac unfold_operation :=
  lazymatch goal with
  | |- invariant _ (?f _ _ _ _) => unfold f
  | |- invariant _ (?f _ _ _) => unfold f
  | |- invariant _ (?f _ _) => unfold f
  | |- invariant _ (?f _) => unfold f
  | |- invariant _ ?f => unfold f
  end.

Ltac idle_step :=
  first [ apply idle_TileData_newFrame
        | apply idle_tileIsCompleted
        | apply idle_TileData_process
        | apply idle_countConvergedTile
        | apply idle_isFrameComplete_0; assumption
        | invariant_step idle_solve
        | unfold_operation ].

Lemma idle_startNewFrame (root : BcastRoot) (errorThreshold : float) :
  IamAWorker cfg || IamTheMaster cfg && masterIsAWorker cfg = false ->
  wrap_int32 (getTotalTiles cfg) <> 0 ->
  invariant (idle cfg) (startNewFrame cfg root errorThreshold).
Proof. intros Hrole Htotal. repeat idle_step. Qed.

Lemma idle_runOp (op : FrameOp) (st : DFB) :
  IamAWorker cfg || IamTheMaster cfg && masterIsAWorker cfg = false ->
  wrap_int32 (getTotalTiles cfg) <> 0 ->
  idle cfg st -> idle cfg (runOp cfg op st).
Proof.
  intros Hrole Htotal. revert st.
  destruct op; simpl;
    match goal with
    | |- forall st, idle cfg st -> idle cfg (snd (?m st)) =>
        change (invariant (idle cfg) m)
    end.
  - apply idle_startNewFrame; assumption.
  - repeat idle_step.
  - repeat idle_step.
  - repeat idle_step.
  - repeat idle_step.
  - repeat idle_step.
  - repeat idle_step.
  - repeat idle_step.
  - repeat idle_step.
Qed.

Lemma idle_runOps (ops : list FrameOp) (st : DFB) :
  IamAWorker cfg || IamTheMaster cfg && masterIsAWorker cfg = false ->
  wrap_int32 (getTotalTiles cfg) <> 0 ->
  idle cfg st -> idle cfg (runOps cfg ops st).
Proof.
  intros Hrole Htotal. revert st.
  induction ops as [|op ops IH]; intros st H; simpl.
  - exact H.
  - apply IH, idle_runOp; assumption.
Qed.

Lemma idle_beginFrame : invariant (idle cfg) beginFrame.
Proof. repeat idle_step. Qed.

Lemma idle_endFrame (errorThreshold : float) :
  invariant (idle cfg) (endFrame cfg errorThreshold).
Proof. repeat idle_step. Qed.

Lemma idle_runFrames (frames : list (list FrameOp * float)) (st : DFB) :
  IamAWorker cfg || IamTheMaster cfg && masterIsAWorker cfg = false ->
  wrap_int32 (getTotalTiles cfg) <> 0 ->
  idle cfg st -> idle cfg (runFrames cfg frames st).
Proof.
  intros Hrole Htotal. revert st.
  induction frames as [|frame frames IH]; intros st H; simpl.
  - exact H.
  - apply IH. unfold runFrame.
    apply idle_endFrame, idle_runOps, idle_beginFrame; assumption.
Qed.

Lemma owned_from_no_data (k : nat) (all : list TileDesc) :
  Forall (fun td => td_data td = None /\ mine cfg td = false) all ->
  owned_from k all = [].
Proof.
  revert k. induction all as [|td all IH]; intros k Hall; [reflexivity|].
  inversion Hall as [|? ? [Hd _] Hrest]; subst. simpl.
  unfold has_data. rewrite Hd. simpl. apply IH, Hrest.
Qed.

(** The master that is not a worker is constructed without a tile of its
    own. *)
Lemma DistributedFrameBuffer_idle (td0 : vec2i -> Z -> TileState)
    (st : DFB) :
  1 <= TILE_SIZE ->
  0 < vx (numPixels cfg) -> 0 <= vy (numPixels cfg) ->
  world_rank cfg = 0 ->
  masterIsAWorker cfg = false ->
  2 <= world_size cfg < 2 ^ 31 ->
  DistributedFrameBuffer cfg td0 = inr st ->
  idle cfg st /\ myTiles st = [].
Proof.
  intros HT Hw Hh Hrank Hidle HR Hctor.
  destruct (DistributedFrameBuffer_layout td0 st HT Hw Hh Hctor)
    as [[Hat Hmy] _]. simpl in Hat, Hmy.
  assert (Hall : Forall (fun td => td_data td = None /\ mine cfg td = false)
                   (allTiles st)).
  { apply Forall_lookup_2. intros j td Hj.
    destruct (Hat j td Hj) as (_ & _ & Hown & Hdata).
    destruct (ownerIDFromTileID_master_is_idle (Z.of_nat j) Hidle HR)
      as [Eown _]; [lia|].
    rewrite Eown in Hown. injection Hown as Hown.
    pose proof (Z.mod_pos_bound (Z.of_nat j) (world_size cfg - 1)) as Hm.
    unfold mine, globalRank. unfold globalRank in Hdata.
    rewrite Hrank in *. rewrite wrap_size_t_small in Hdata by lia.
    split.
    - destruct (td_data td) as [ts|] eqn:Hd; [|reflexivity].
      assert (td_ownerID td = 0) by (apply Hdata; eauto). lia.
    - apply Z.eqb_neq. lia. }
  split.
  - unfold idle. split; [exact Hall|].
    revert Hctor. unfold DistributedFrameBuffer.
    destruct (createTiles cfg td0) as [e|[all my]]; [discriminate|].
    intros [= <-]. split; reflexivity.
  - rewrite Hmy. apply owned_from_no_data, Hall.
Qed.

(** X21.  A master that is not a worker never finishes a frame: it owns no
    tile, so no tile is ever counted as completed on it, while
    [isFrameComplete] compares the count with the number of all tiles.
    After any frames and operations [frameIsDone] is still false and
    [waitUntilFinished] does not return. *)
Theorem idle_master_never_finishes_a_frame
    (td0 : vec2i -> Z -> TileState)
    (frames : list (list FrameOp * float)) (ops : list FrameOp)
    (st0 : DFB)
    (tileGatherResult : list MasterTileMessage_FB)
    (fromRanks : list (list (vec2i * float)))
    (Htile : 1 <= TILE_SIZE)
    (Hwidth : 0 < vx (numPixels cfg))
    (Hheight : 0 <= vy (numPixels cfg))
    (Htotal : 0 < getTotalTiles cfg < 2 ^ 31)
    (Hmaster : world_rank cfg = 0)
    (Hidle : masterIsAWorker cfg = false)
    (Hranks : 2 <= world_size cfg < 2 ^ 31)
    (Hctor : DistributedFrameBuffer cfg td0 = inr st0) :
  let st := runOps cfg ops (runFrames cfg frames st0) in
  myTiles st = []
  /\ numTilesCompletedThisFrame st = 0
  /\ frameIsDone st = false
  /\ fst (waitUntilFinished cfg tileGatherResult fromRanks st)
     = inl (Blocked "waiting on frameDoneCond").
Proof.
  intros st.
  destruct (DistributedFrameBuffer_idle td0 st0 Htile Hwidth Hheight
              Hmaster Hidle Hranks Hctor) as [H0 Hmy0].
  assert (Hrole : IamAWorker cfg || IamTheMaster cfg && masterIsAWorker cfg
                  = false).
  { unfold IamAWorker, IamTheMaster. rewrite Hmaster, Hidle. reflexivity. }
  assert (Hwrap : wrap_int32 (getTotalTiles cfg) <> 0).
  { rewrite wrap_int32_small by lia. lia. }
  assert (H : idle cfg st).
  { apply idle_runOps, idle_runFrames; assumption. }
  assert (Hinv : frame_inv st0 st).
  { eapply frame_inv_trans; [apply runFrames_frame_inv|].
    apply runOps_frame_inv. }
  destruct H as (_ & Hc & Hd). destruct Hinv as (Hmy & _).
  split; [rewrite Hmy; exact Hmy0|]. split; [exact Hc|].
  split; [exact Hd|].
  unfold waitUntilFinished. unfold bind at 1, get. simpl.
  rewrite Hd. reflexivity.
Qed.

(** *** Change of the frame mode *)

Lemma createTiles_row_recreated (td0 td0' : vec2i -> Z -> TileState)
    (y : Z) (xs : list Z) (tileID tileID1 : Z)
    (all all1 : list TileDesc) (my my1 : list nat) :
  createTiles_row cfg td0 y xs tileID (all, my) = inr (tileID1, (all1, my1)) ->
  createTiles_row cfg td0' y xs tileID (map (recreated td0') all, my)
  = inr (tileID1, (map (recreated td0') all1, my1)).
Proof.
  revert tileID all my. induction xs as [|x xs IH]; intros tileID all my.
  - simpl. intros [= <- <- <-]. reflexivity.
  - simpl. destruct (ownerIDFromTileID cfg tileID) as [e|ownerID];
      [discriminate|].
    destruct (ownerID =? wrap_size_t (globalRank cfg)); intros E;
      apply IH in E; rewrite map_app in E; simpl in E;
      rewrite ?length_map; exact E.
Qed.

Lemma createTiles_rows_recreated (td0 td0' : vec2i -> Z -> TileState)
    (ys : list Z) (tileID : Z)
    (all all1 : list TileDesc) (my my1 : list nat) :
  createTiles_rows cfg td0 ys tileID (all, my) = inr (all1, my1) ->
  createTiles_rows cfg td0' ys tileID (map (recreated td0') all, my)
  = inr (map (recreated td0') all1, my1).
Proof.
  revert tileID all my. induction ys as [|y ys IH]; intros tileID all my.
  - simpl. intros [= <- <-]. reflexivity.
  - simpl.
    destruct (createTiles_row cfg td0 y _ tileID (all, my))
      as [e|[tileID1 [all2 my2]]] eqn:Erow; [discriminate|].
    rewrite (createTiles_row_recreated td0 td0' _ _ _ _ _ _ _ _ Erow).
    apply IH.
Qed.

Lemma createTiles_recreated (td0 td0' : vec2i -> Z -> TileState)
    (all : list TileDesc) (my : list nat) :
  createTiles cfg td0 = inr (all, my) ->
  createTiles cfg td0' = inr (map (recreated td0') all, my).
Proof.
  unfold createTiles. intros E.
  apply (createTiles_rows_recreated td0 td0') in E. exact E.
Qed.

Lemma same_desc_sym (td td' : TileDesc) :
  same_desc td td' -> same_desc td' td.
Proof.
  intros (Hb & Hi & Ho & Hd). repeat split; try congruence; apply Hd.
Qed.

Lemma same_desc_recreated (td0 : vec2i -> Z -> TileState) (td : TileDesc) :
  same_desc td (recreated td0 td).
Proof.
  unfold same_desc, recreated. simpl. repeat split;
    destruct (td_data td); intros [x Hx]; try discriminate; eauto.
Qed.

Lemma same_descs_recreated (td0 : vec2i -> Z -> TileState)
    (all all' : list TileDesc) :
  Forall2 same_desc all all' ->
  Forall2 same_desc all' (map (recreated td0) all).
Proof.
  induction 1 as [|td td' all all' Hs _ IH]; simpl; constructor.
  - eapply same_desc_trans; [apply same_desc_sym; exact Hs|].
    apply same_desc_recreated.
  - exact IH.
Qed.

Lemma FrameMode_eqb_eq (a b : FrameMode) :
  FrameMode_eqb a b = true <-> a = b.
Proof. destruct a, b; simpl; split; congruence. Qed.

(** X22.  [setFrameMode] keeps the layout of the tiles.  With the mode the
    framebuffer is in it changes nothing.  With another mode it makes all
    tiles again: the descriptors keep their origin, id and owner, [myTiles]
    lists the same tiles, every tile of the rank starts from the state
    that [createTile] gives it in the new mode, and the accumulation
    counters and the frame flags stay as they are. *)
Theorem setFrameMode_rebuilds_the_same_layout
    (classes : TileClasses) (frameMode newFrameMode : FrameMode)
    (td0 : vec2i -> Z -> TileState)
    (frames : list (list FrameOp * float)) (ops : list FrameOp)
    (st0 : DFB)
    (Hctor : DistributedFrameBuffer cfg td0 = inr st0) :
  let st := runOps cfg ops (runFrames cfg frames st0) in
  exists st',
    setFrameMode cfg classes frameMode newFrameMode st = (inr newFrameMode, st')
    /\ (frameMode = newFrameMode -> st' = st)
    /\ Forall2 same_desc (allTiles st) (allTiles st')
    /\ myTiles st' = myTiles st
    /\ tileAccumID st' = tileAccumID st
    /\ tileInstances st' = tileInstances st
    /\ frameIsActive st' = frameIsActive st
    /\ frameIsDone st' = frameIsDone st
    /\ (frameMode <> newFrameMode ->
        Forall (fun td =>
                  forall ts, td_data td = Some ts ->
                    ts = createTile cfg classes newFrameMode (td_begin td)
                           (td_tileID td) (wrap_size_t (world_rank cfg)))
               (allTiles st')).
Proof.
  intros st.
  assert (Hinv : frame_inv st0 st).
  { eapply frame_inv_trans; [apply runFrames_frame_inv|].
    apply runOps_frame_inv. }
  destruct Hinv as (Hmy & Hsame & _).
  unfold setFrameMode.
  destruct (FrameMode_eqb frameMode newFrameMode) eqn:Emode.
  - apply FrameMode_eqb_eq in Emode. subst newFrameMode.
    exists st. repeat split; auto using same_descs_refl. congruence.
  - assert (Hne : frameMode <> newFrameMode).
    { intros E. apply FrameMode_eqb_eq in E. congruence. }
    revert Hctor. unfold DistributedFrameBuffer.
    destruct (createTiles cfg td0) as [e|[all my]] eqn:Ect; [discriminate|].
    intros Hctor.
    assert (Hall : allTiles st0 = all /\ myTiles st0 = my).
    { injection Hctor as <-. split; reflexivity. }
    destruct Hall as [Hall Hmy0].
    pose proof (createTiles_recreated td0 (newTile cfg classes newFrameMode)
                  all my Ect) as Enew.
    unfold freeTiles, bind, modify, lift. simpl. rewrite Enew. simpl.
    eexists. split; [reflexivity|]. simpl.
    split; [intros E; contradiction|].
    split; [apply same_descs_recreated; rewrite <- Hall; exact Hsame|].
    split; [congruence|].
    repeat split; try reflexivity.
    intros _. apply Forall_map, Forall_forall. intros td _ ts.
    unfold recreated. simpl. destruct (td_data td); [|discriminate].
    intros [= <-]. reflexivity.
Qed.

(** *** The layout of the final gather *)

Lemma sumZ_app (l k : list Z) : sumZ (l ++ k) = sumZ l + sumZ k.
Proof. induction l as [|a l IH]; simpl; [reflexivity|]. rewrite IH. lia. Qed.

Lemma sumZ_nonneg (l : list Z) : Forall (fun c => 0 <= c) l -> 0 <= sumZ l.
Proof. induction 1; simpl; lia. Qed.

Lemma sumZ_insert (l : list Z) (i : nat) (c v : Z) :
  l !! i = Some c -> sumZ (<[i := v]> l) = sumZ l - c + v.
Proof.
  revert i. induction l as [|a l IH]; intros i Hi; [discriminate|].
  destruct i as [|i]; simpl in *.
  - injection Hi as ->. lia.
  - rewrite (IH i Hi). lia.
Qed.

Lemma lookup_le_sumZ (l : list Z) (i : nat) (c : Z) :
  Forall (fun c => 0 <= c) l -> l !! i = Some c -> 0 <= c <= sumZ l.
Proof.
  intros Hl. revert i. induction Hl as [|a l Ha Hl IH]; intros i Hi;
    [discriminate|].
  pose proof (sumZ_nonneg l Hl).
  destruct i as [|i]; simpl in *.
  - injection Hi as ->. lia.
  - specialize (IH i Hi). lia.
Qed.

Lemma sumZ_take_S (l : list Z) (i : nat) (c : Z) :
  l !! i = Some c -> sumZ (take (S i) l) = sumZ (take i l) + c.
Proof.
  intros Hi. rewrite (take_S_r l i c Hi), sumZ_app. simpl. lia.
Qed.

(** The loop that adds [tileSize] to the count of the owner of each tile. *)
Lemma tileBytesExpected_loop (tileSize : Z) (l : list TileDesc)
    (counts : list Z) :
  0 <= tileSize ->
  Forall (fun td => 0 <= td_ownerID td < Z.of_nat (length counts)) l ->
  Forall (fun c => 0 <= c) counts ->
  sumZ counts + Z.of_nat (length l) * tileSize < 2 ^ 31 ->
  exists counts',
    foldl (addTileBytes tileSize) (inr counts) l = inr counts'
    /\ length counts' = length counts
    /\ Forall (fun c => 0 <= c) counts'
    /\ sumZ counts' = sumZ counts + Z.of_nat (length l) * tileSize
    /\ forall r,
         lookupZ counts' r
         = (fun c => c + tileSize
                         * countb (fun td => td_ownerID td =? r) l)
           <$> lookupZ counts r.
Proof.
  intros Hsize. revert counts.
  induction l as [|td l IH]; intros counts Hown Hpos Hsum.
  - exists counts. simpl. repeat split; auto; try lia.
    intros r. destruct (lookupZ counts r); simpl; [f_equal; lia | reflexivity].
  - inversion Hown as [|? ? Ho Hrest]; subst.
    destruct (lookupZ_is_Some (td_ownerID td) counts) as [c Hc]; [exact Ho|].
    assert (Hnat : counts !! Z.to_nat (td_ownerID td) = Some c).
    { revert Hc. unfold lookupZ.
      destruct (Z.ltb_spec (td_ownerID td) 0); [lia | auto]. }
    pose proof (lookup_le_sumZ counts _ c Hpos Hnat) as Hle.
    simpl length in Hsum.
    assert (Hw : wrap_int32 (c + tileSize) = c + tileSize).
    { apply wrap_int32_small. nia. }
    set (counts1 := insertZ (td_ownerID td) (c + tileSize) counts).
    assert (E1 : counts1 = <[Z.to_nat (td_ownerID td) := c + tileSize]> counts).
    { unfold counts1, insertZ.
      destruct (Z.ltb_spec (td_ownerID td) 0); [lia | reflexivity]. }
    destruct (IH counts1) as (counts' & E & Hlen & Hpos' & Hsum' & Hlook).
    + rewrite E1, length_insert. exact Hrest.
    + rewrite E1. apply Forall_insert; [exact Hpos | lia].
    + rewrite E1, (sumZ_insert counts _ c) by exact Hnat. nia.
    + exists counts'.
      assert (Estep : addTileBytes tileSize (inr counts) td = inr counts1).
      { unfold addTileBytes. rewrite Hc, Hw. reflexivity. }
      change (foldl (addTileBytes tileSize) (inr counts) (td :: l))
        with (foldl (addTileBytes tileSize)
                (addTileBytes tileSize (inr counts) td) l).
      rewrite Estep. split; [exact E|].
      split; [rewrite Hlen, E1, length_insert; reflexivity|].
      split; [exact Hpos'|].
      split.
      * rewrite Hsum', E1, (sumZ_insert counts _ c) by exact Hnat.
        simpl length. nia.
      * intros r. rewrite Hlook. simpl countb.
        destruct (Z.eqb_spec (td_ownerID td) r) as [<-|Hne].
        -- unfold counts1. rewrite lookupZ_insertZ_eq by exact Ho.
           rewrite Hc. simpl. f_equal. lia.
        -- unfold counts1. rewrite lookupZ_insertZ_ne by exact Hne.
           destruct (lookupZ counts r); simpl; [f_equal; lia | reflexivity].
Qed.

(** The running sum of the counts. *)
Lemma processOffsets_spec (counts : list Z) (recvOffset : Z) :
  Forall (fun c => 0 <= c) counts ->
  0 <= recvOffset ->
  recvOffset + sumZ counts < 2 ^ 31 ->
  snd (processOffsets recvOffset counts) = recvOffset + sumZ counts
  /\ length (fst (processOffsets recvOffset counts)) = length counts
  /\ forall i : nat,
       (i < length counts)%nat ->
       fst (processOffsets recvOffset counts) !! i
       = Some (recvOffset + sumZ (take i counts)).
Proof.
  intros Hpos. revert recvOffset.
  induction Hpos as [|c counts Hc Hpos IH]; intros recvOffset Hoff Hsum.
  - simpl. repeat split; [lia|]. intros i Hi. simpl in Hi. lia.
  - simpl in Hsum. pose proof (sumZ_nonneg counts Hpos) as Hs.
    simpl processOffsets.
    rewrite (wrap_size_t_small (recvOffset + c)) by lia.
    destruct (IH (recvOffset + c)) as (Ht & Hl & Hlook); [lia | lia |].
    destruct (processOffsets (recvOffset + c) counts) as [offsets total].
    simpl in *. split; [lia|]. split; [lia|].
    intros [|i] Hi; simpl.
    + rewrite wrap_int32_small by lia. f_equal. lia.
    + rewrite Hlook by lia. f_equal. lia.
Qed.

Lemma ownerIDFromTileID_range (tileID ownerID : Z) :
  1 <= world_size cfg < 2 ^ 31 ->
  (masterIsAWorker cfg = false -> 2 <= world_size cfg) ->
  0 <= tileID ->
  ownerIDFromTileID cfg tileID = inr ownerID ->
  0 <= ownerID < world_size cfg.
Proof.
  intros HR Hw Ht. destruct (masterIsAWorker cfg) eqn:Hm.
  - rewrite (ownerIDFromTileID_master_is_worker tileID Hm HR).
    intros [= <-]. apply Z.mod_pos_bound. lia.
  - destruct (ownerIDFromTileID_master_is_idle tileID Hm) as [E _];
      [specialize (Hw eq_refl); lia | exact Ht |].
    rewrite E. intros [= <-].
    pose proof (Z.mod_pos_bound tileID (world_size cfg - 1)).
    specialize (Hw eq_refl). lia.
Qed.

(** The byte counts for the tiles of a constructed framebuffer. *)
Lemma gather_layout (td0 : vec2i -> Z -> TileState) (st : DFB) (slot : Z) :
  1 <= TILE_SIZE ->
  0 < vx (numPixels cfg) -> 0 <= vy (numPixels cfg) ->
  1 <= world_size cfg < 2 ^ 31 ->
  (masterIsAWorker cfg = false -> 2 <= world_size cfg) ->
  DistributedFrameBuffer cfg td0 = inr st ->
  0 <= slot ->
  getTotalTiles cfg * slot < 2 ^ 31 ->
  exists counts,
    tileBytesExpected cfg slot (allTiles st) = inr counts
    /\ Z.of_nat (length counts) = world_size cfg
    /\ Forall (fun c => 0 <= c) counts
    /\ sumZ counts = getTotalTiles cfg * slot
    /\ forall r, 0 <= r < world_size cfg ->
         lookupZ counts r
         = Some (slot * countb (fun td => td_ownerID td =? r) (allTiles st)).
Proof.
  intros HT Hw Hh HR Hworkers Hctor Hslot Hbytes.
  destruct (DistributedFrameBuffer_layout td0 st HT Hw Hh Hctor)
    as [[Hat _] _]. simpl in Hat.
  destruct (DistributedFrameBuffer_tiles_wf td0 st HT) as (_ & Hlen & _);
    [lia | exact Hh | exact Hctor |].
  set (counts0 := replicate (Z.to_nat (world_size cfg)) 0).
  assert (Hsum0 : sumZ counts0 = 0).
  { unfold counts0.
    induction (Z.to_nat (world_size cfg)) as [|n IHn];
      [reflexivity | simpl; exact IHn]. }
  destruct (tileBytesExpected_loop slot (allTiles st) counts0 Hslot)
    as (counts & E & Hl & Hpos & Hsum & Hlook).
  - apply Forall_lookup_2. intros j td Hj.
    destruct (Hat j td Hj) as (_ & _ & Hown & _).
    unfold counts0. rewrite length_replicate, Z2Nat.id by lia.
    apply (ownerIDFromTileID_range (Z.of_nat j)); auto. lia.
  - unfold counts0. apply Forall_replicate. lia.
  - rewrite Hsum0, Hlen. lia.
  - exists counts. split; [exact E|].
    split; [rewrite Hl; unfold counts0; rewrite length_replicate; lia|].
    split; [exact Hpos|]. split; [rewrite Hsum, Hsum0, Hlen; lia|].
    intros r Hr. rewrite Hlook.
    unfold counts0, lookupZ. destruct (Z.ltb_spec r 0); [lia|].
    rewrite lookup_replicate_2 by lia. simpl. reflexivity.
Qed.

(** X23.  The regions of the final gather tile the receive buffer.  On a
    constructed framebuffer the master expects [slot] bytes from a rank for
    each tile the rank owns, the region of rank [r] starts where the regions
    of the ranks below it end, and the regions of all ranks together are the
    [allTiles.size() * slot] bytes of [tileGatherResult]: no region
    overlaps another or passes the end. *)
Theorem gather_regions_tile_the_receive_buffer
    (td0 : vec2i -> Z -> TileState) (st : DFB) (slot r : Z)
    (Htile : 1 <= TILE_SIZE)
    (Hwidth : 0 < vx (numPixels cfg))
    (Hheight : 0 <= vy (numPixels cfg))
    (Hranks : 1 <= world_size cfg < 2 ^ 31)
    (Hworkers : masterIsAWorker cfg = false -> 2 <= world_size cfg)
    (Hctor : DistributedFrameBuffer cfg td0 = inr st)
    (Hslot : masterMsgSize (colorBufferFormat cfg) (hasDepthBuffer cfg)
             = inr slot)
    (Hbytes : getTotalTiles cfg * slot < 2 ^ 31)
    (Hr : 0 <= r < world_size cfg) :
  exists counts offsets,
    tileBytesExpected cfg slot (allTiles st) = inr counts
    /\ processOffsets 0 counts
       = (offsets, Z.of_nat (length (allTiles st)) * slot)
    /\ lookupZ counts r
       = Some (slot * countb (fun td => td_ownerID td =? r) (allTiles st))
    /\ lookupZ offsets r = Some (sumZ (take (Z.to_nat r) counts))
    /\ sumZ (take (Z.to_nat r) counts)
       + slot * countb (fun td => td_ownerID td =? r) (allTiles st)
       = sumZ (take (S (Z.to_nat r)) counts)
    /\ sumZ (take (S (Z.to_nat r)) counts)
       <= Z.of_nat (length (allTiles st)) * slot.
Proof.
  pose proof (masterMsgSize_nonneg slot Hslot) as Hpos.
  destruct (gather_layout td0 st slot) as (counts & E & Hl & Hc & Hsum & Hlook);
    try assumption; [lia|].
  destruct (DistributedFrameBuffer_tiles_wf td0 st Htile) as (_ & Hlen & _);
    [lia | exact Hheight | exact Hctor |].
  destruct (processOffsets_spec counts 0 Hc) as (Htotal & Hlo & Hoff);
    [lia | lia |].
  exists counts, (fst (processOffsets 0 counts)).
  split; [exact E|]. split.
  { rewrite Hlen, <- Hsum, <- (Z.add_0_l (sumZ counts)), <- Htotal.
    destruct (processOffsets 0 counts); reflexivity. }
  pose proof (Hlook r Hr) as Hcr. split; [exact Hcr|].
  assert (Hnat : counts !! Z.to_nat r
                 = Some (slot * countb (fun td => td_ownerID td =? r)
                                  (allTiles st))).
  { revert Hcr. unfold lookupZ. destruct (Z.ltb_spec r 0); [lia | auto]. }
  split.
  { unfold lookupZ. destruct (Z.ltb_spec r 0); [lia|].
    rewrite Hoff by lia. f_equal. }
  split; [symmetry; apply sumZ_take_S; exact Hnat|].
  rewrite Hlen, <- Hsum.
  rewrite <- (take_drop (S (Z.to_nat r)) counts) at 2.
  rewrite sumZ_app.
  assert (0 <= sumZ (drop (S (Z.to_nat r)) counts)).
  { apply sumZ_nonneg, Forall_drop, Hc. }
  lia.
Qed.

(** *** A tile that arrives from another rank *)

Lemma set_scheduled_back (msgs : list Message) (st : DFB) :
  scheduled st = [] ->
  set_scheduled [] (set_scheduled msgs st) = st.
Proof. destruct st; simpl. intros ->. reflexivity. Qed.

(** X25.  A tile that another rank forwarded is composited like a tile
    rendered on the owner itself: when a frame is active, no task is
    waiting and no pixel operator is installed, receiving the message that
    [setTile] sends for a tile and running the task the router schedules
    for it has the result and the effect of [setTile] for that tile on the
    owner. *)
Theorem forwarded_tile_is_processed_like_a_local_one
    (tile : Tile) (st : DFB) (tileDesc : TileDesc)
    (Hop : pixelOp = None)
    (Hdesc : lookupZ (allTiles st) (getTileIDof cfg (tile_region_lower tile))
             = Some tileDesc)
    (Hmine : mine cfg tileDesc = true)
    (Hactive : frameIsActive st = true)
    (Hqueue : scheduled st = []) :
  let msg :=
    mk_Message WORKER_WRITE_TILE (Some (tile_region_lower tile, tile)) in
  fst (incoming msg st) = inr tt
  /\ runScheduled cfg (snd (incoming msg st)) = setTile cfg tile st.
Proof.
  intros msg.
  assert (Ein : incoming msg st = (inr tt, set_scheduled [msg] st)).
  { unfold incoming. unfold bind at 1, get. simpl. rewrite Hactive. simpl.
    unfold scheduleProcessing, modify. rewrite Hqueue. reflexivity. }
  rewrite Ein. split; [reflexivity|]. simpl snd.
  assert (Erun : runScheduled cfg (set_scheduled [msg] st)
                 = scheduledTask cfg msg st).
  { unfold runScheduled. unfold bind at 1, get. simpl.
    unfold bind at 1, modify. simpl.
    rewrite (set_scheduled_back [msg] st Hqueue). reflexivity. }
  rewrite Erun.
  change (scheduledTask cfg msg st)
    with (processMessage_WriteTile cfg (tile_region_lower tile) tile st).
  assert (Edesc : getTileDescFor cfg (tile_region_lower tile) st
                  = (inr (Z.to_nat (getTileIDof cfg (tile_region_lower tile)),
                          tileDesc), st)).
  { unfold getTileDescFor. unfold bind, get. rewrite Hdesc. reflexivity. }
  unfold processMessage_WriteTile, setTile. rewrite Hop.
  unfold bind at 1. rewrite Edesc. simpl fst.
  unfold bind at 1. rewrite Edesc. rewrite Hmine.
  change (negb true) with false. cbv iota.
  unfold bind at 1, get. cbv beta iota. rewrite Hactive. reflexivity.
Qed.

(** *** Clearing the framebuffer *)

(** The loop of [clear] over the tiles of the rank. *)
Lemma clearMyTile_loop (cm : ClearModel) (fbChannelFlags : Z) (l : list nat)
    (st : DFB) :
  Forall (is_TileData st) l ->
  exists all',
    forM_ l (clearMyTile cfg cm fbChannelFlags) st
    = (inr tt, set_allTiles all' st)
    /\ Forall2 same_desc (allTiles st) all'.
Proof.
  revert st. induction l as [|i l IH]; intros st Hl.
  - exists (allTiles st). split; [|apply same_descs_refl].
    destruct st; reflexivity.
  - inversion Hl as [|? ? (td & ts & Hi & Hd) Hrest]; subst.
    simpl forM_. unfold clearMyTile at 1. unfold bind at 1.
    unfold bind at 1, get. simpl. rewrite Hi, Hd.
    unfold set_td_data, modify. simpl.
    set (td' := mk_TileDesc _ _ _ _).
    set (st1 := set_allTiles _ st).
    assert (Hsame : same_desc td td').
    { subst td'. repeat split; simpl; intros _; [rewrite Hd|]; eauto. }
    destruct (IH st1) as (all' & E & HF).
    { eapply Forall_impl; [exact Hrest|]. intros j.
      apply (is_TileData_insert st st1 i j td
               (clearTile cfg cm fbChannelFlags ts)).
      reflexivity. }
    exists all'. rewrite E. split; [reflexivity|].
    eapply same_descs_trans; [|exact HF].
    subst st1. simpl. eapply same_descs_insert; eauto.
Qed.

Lemma clear_state (cm : ClearModel) (fbChannelFlags : Z) (st : DFB) :
  tiles_wf cfg st ->
  getTotalTiles cfg <= Z.of_nat (length (tileAccumID st)) ->
  exists all',
    Forall2 same_desc (allTiles st) all'
    /\ clear cfg cm fbChannelFlags st
       = (inr tt,
          if hasAccumBuffer cfg && has_tag fbChannelFlags (OSP_FB_ACCUM cm)
          then
            set_tileErrorBuffer (TileError_clear cm (tileErrorBuffer st))
              (set_tileAccumID
                 (replicate (Z.to_nat (getTotalTiles cfg)) 0
                  ++ drop (Z.to_nat (getTotalTiles cfg)) (tileAccumID st))
                 (set_allTiles all' st))
          else set_allTiles all' st).
Proof.
  intros [Hwf _] Hlen.
  destruct (clearMyTile_loop cm fbChannelFlags (myTiles st) st Hwf)
    as (all' & E & HF).
  exists all'. split; [exact HF|].
  unfold clear. unfold bind at 1, get. simpl.
  unfold bind at 1. rewrite E.
  destruct (hasAccumBuffer cfg && has_tag fbChannelFlags (OSP_FB_ACCUM cm));
    [|reflexivity].
  simpl. unfold bind at 1, get. simpl.
  unfold memset0. simpl.
  destruct (Z.ltb_spec (Z.of_nat (length (tileAccumID st)))
              (getTotalTiles cfg)); [lia|].
  reflexivity.
Qed.

Lemma runFrames_lengths (frames : list (list FrameOp * float)) (st : DFB) :
  0 <= getTotalTiles cfg ->
  getTotalTiles cfg <= Z.of_nat (length (tileInstances st)) ->
  getTotalTiles cfg <= Z.of_nat (length (tileAccumID st)) ->
  length (tileInstances (runFrames cfg frames st)) = length (tileInstances st)
  /\ length (tileAccumID (runFrames cfg frames st))
     = length (tileAccumID st).
Proof.
  intros Hpos. revert st.
  induction frames as [|frame frames IH]; intros st Hinst Hacc; simpl.
  - split; reflexivity.
  - destruct (runFrame_accumID frame st Hpos Hinst Hacc) as (Hl1 & Hl2 & _).
    destruct (IH (runFrame cfg frame st)) as [H1 H2]; [lia | lia |].
    split; [rewrite <- Hl1 | rewrite <- Hl2]; assumption.
Qed.

(** X26.  [clear] with the accumulation flag restarts the accumulation of
    a framebuffer that has an accumulation buffer: it returns, and
    afterwards [tileAccumID[t]] is 0 for every tile, whatever number of
    frames ran before, so that the next [accumID] query answers 0; the
    tiles keep their origin, id and owner.  Without the flag, or without an
    accumulation buffer, [clear] leaves the counters and the tile errors as
    they are. *)
Theorem clear_restarts_the_accumulation
    (cm : ClearModel) (fbChannelFlags : Z)
    (td0 : vec2i -> Z -> TileState)
    (frames : list (list FrameOp * float)) (st0 : DFB) (t : Z)
    (Htile : 1 <= TILE_SIZE)
    (Hwidth : 0 <= vx (numPixels cfg))
    (Hheight : 0 <= vy (numPixels cfg))
    (Hctor : DistributedFrameBuffer cfg td0 = inr st0)
    (Ht : 0 <= t < getTotalTiles cfg)
    (Hsmall : getTotalTiles cfg < 2 ^ 31) :
  let st := runFrames cfg frames st0 in
  exists st1,
    clear cfg cm fbChannelFlags st = (inr tt, st1)
    /\ Forall2 same_desc (allTiles st) (allTiles st1)
    /\ myTiles st1 = myTiles st
    /\ tileInstances st1 = tileInstances st
    /\ if hasAccumBuffer cfg && has_tag fbChannelFlags (OSP_FB_ACCUM cm)
       then lookupZ (tileAccumID st1) t = Some 0
            /\ fst (accumID cfg (mk_vec2i t 0) st1) = inr 0
       else tileAccumID st1 = tileAccumID st
            /\ tileErrorBuffer st1 = tileErrorBuffer st.
Proof.
  intros st.
  destruct (DistributedFrameBuffer_tiles_wf td0 st0 Htile Hwidth Hheight Hctor)
    as (Hwf0 & _ & Hacc0 & Hinst0 & _).
  assert (Hwf : tiles_wf cfg st).
  { apply (tiles_wf_frame_inv st0); [apply runFrames_frame_inv | exact Hwf0]. }
  destruct (runFrames_lengths frames st0) as [Hinst Hacc]; [lia | lia | lia |].
  fold st in Hinst, Hacc.
  destruct (clear_state cm fbChannelFlags st Hwf) as (all' & HF & E); [lia|].
  eexists. split; [exact E|].
  destruct (hasAccumBuffer cfg && has_tag fbChannelFlags (OSP_FB_ACCUM cm))
    eqn:Hflag; simpl.
  - split; [exact HF|]. split; [reflexivity|]. split; [reflexivity|].
    assert (Hzero : lookupZ
                      (replicate (Z.to_nat (getTotalTiles cfg)) 0
                       ++ drop (Z.to_nat (getTotalTiles cfg)) (tileAccumID st))
                      t = Some 0).
    { unfold lookupZ. destruct (Z.ltb_spec t 0); [lia|].
      rewrite lookup_app_l by (rewrite length_replicate; lia).
      apply lookup_replicate_2. lia. }
    split; [exact Hzero|].
    apply andb_true_iff in Hflag as [Hacc' _].
    unfold accumID. rewrite Hacc'. simpl.
    assert (Hnr : forall x, wrap_int32 (wrap_int32 (0 * x) + t) = t).
    { intros x. rewrite Z.mul_0_l, (wrap_int32_small 0) by lia.
      apply wrap_int32_small. lia. }
    rewrite !Hnr. unfold bind at 1, get. simpl.
    destruct (lookupZ_is_Some t (tileInstances st)) as [n Hn]; [lia|].
    rewrite Hn. unfold bind at 1, modify. simpl.
    rewrite Hzero. reflexivity.
  - split; [exact HF|]. repeat split; reflexivity.
Qed.
End Properties.

(** * The framebuffer on several ranks *)

Section Ranks.
Context {TM : TileModel}.

(** Every rank lays out the same tiles with the same owners. *)
Lemma owners_on_every_rank (cfg : Config) (r : Z)
    (td0 td0' : vec2i -> Z -> TileState) (st st_r : DFB) :
  1 <= TILE_SIZE ->
  0 < vx (numPixels cfg) -> 0 <= vy (numPixels cfg) ->
  DistributedFrameBuffer cfg td0 = inr st ->
  DistributedFrameBuffer (onRank r cfg) td0' = inr st_r ->
  map td_ownerID (allTiles st) = map td_ownerID (allTiles st_r).
Proof.
  intros HT Hw Hh Hctor Hctor_r.
  destruct (DistributedFrameBuffer_layout cfg td0 st HT Hw Hh Hctor)
    as [[Hat _] _]. simpl in Hat.
  destruct (DistributedFrameBuffer_layout (onRank r cfg) td0' st_r HT Hw Hh
              Hctor_r) as [[Hat_r _] _]. simpl in Hat_r.
  destruct (DistributedFrameBuffer_tiles_wf cfg td0 st HT) as (_ & Hlen & _);
    [lia | exact Hh | exact Hctor |].
  destruct (DistributedFrameBuffer_tiles_wf (onRank r cfg) td0' st_r HT)
    as (_ & Hlen_r & _); [simpl; lia | exact Hh | exact Hctor_r |].
  change (getTotalTiles (onRank r cfg)) with (getTotalTiles cfg) in Hlen_r.
  apply list_eq. intros j. rewrite !list_lookup_fmap.
  destruct (allTiles st !! j) as [td|] eqn:Hj;
    destruct (allTiles st_r !! j) as [td'|] eqn:Hj'; simpl.
  - destruct (Hat j td Hj) as (_ & _ & Hown & _).
    destruct (Hat_r j td' Hj') as (_ & _ & Hown' & _).
    change (ownerIDFromTileID (onRank r cfg) (Z.of_nat j))
      with (ownerIDFromTileID cfg (Z.of_nat j)) in Hown'.
    congruence.
  - apply lookup_lt_Some in Hj. apply lookup_ge_None in Hj'. lia.
  - apply lookup_ge_None in Hj. apply lookup_lt_Some in Hj'. lia.
  - reflexivity.
Qed.

Lemma countb_map {A B} (p : B -> bool) (f : A -> B) (l : list A) :
  countb p (map f l) = countb (fun a => p (f a)) l.
Proof. induction l as [|a l IH]; simpl; [reflexivity | rewrite IH; lia]. Qed.

(** X24.  The master and the ranks agree on the size of the regions of the
    final gather: the number of bytes the master expects from rank [r],
    computed from its own [allTiles], is the size of the gather buffer that
    rank [r] has after its [startNewFrame], in whatever frame. *)
Theorem master_expects_what_each_rank_gathers
    (cfg : Config) (td0 td0' : vec2i -> Z -> TileState) (r : Z)
    (frames : list (list FrameOp * float))
    (root : BcastRoot) (errorThreshold : float)
    (st st_r : DFB) (slot : Z)
    (Htile : 1 <= TILE_SIZE)
    (Hwidth : 0 < vx (numPixels cfg))
    (Hheight : 0 <= vy (numPixels cfg))
    (Hranks : 1 <= world_size cfg < 2 ^ 31)
    (Hworkers : masterIsAWorker cfg = false -> 2 <= world_size cfg)
    (Hr : 0 <= r < world_size cfg)
    (Hslot : masterMsgSize (colorBufferFormat cfg) (hasDepthBuffer cfg)
             = inr slot)
    (Hbytes : getTotalTiles cfg * slot < 2 ^ 31)
    (Hctor : DistributedFrameBuffer cfg td0 = inr st)
    (Hctor_r : DistributedFrameBuffer (onRank r cfg) td0' = inr st_r) :
  let st_r' :=
    snd (startNewFrame (onRank r cfg) root errorThreshold
           (runFrames (onRank r cfg) frames st_r)) in
  exists counts,
    tileBytesExpected cfg slot (allTiles st) = inr counts
    /\ lookupZ counts r = Some (tileGatherBuffer_size st_r')
    /\ tileGatherBuffer_size st_r'
       = Z.of_nat (length (myTiles st_r)) * slot.
Proof.
  intros st_r'.
  pose proof (masterMsgSize_nonneg cfg slot Hslot) as Hpos.
  destruct (gather_layout cfg td0 st slot) as (counts & E & _ & _ & _ & Hlook);
    try assumption; [lia|].
  exists counts. split; [exact E|]. rewrite (Hlook r Hr).
  destruct (startNewFrame_gather_ready (onRank r cfg) root errorThreshold
              slot Hslot (runFrames (onRank r cfg) frames st_r) I)
    as [_ Hbuf].
  fold st_r' in Hbuf.
  assert (Hmy : myTiles st_r' = myTiles st_r).
  { destruct (preserves_startNewFrame (onRank r cfg) root errorThreshold
                (runFrames (onRank r cfg) frames st_r)) as (Hm1 & _).
    destruct (runFrames_frame_inv (onRank r cfg) frames st_r) as (Hm2 & _).
    unfold st_r'. congruence. }
  rewrite Hbuf, Hmy.
  pose proof (DistributedFrameBuffer_myTiles_complete (onRank r cfg) td0'
                st_r Htile) as Hcomplete.
  unfold myTiles_complete in Hcomplete.
  rewrite Hcomplete; [|simpl; lia | exact Hheight | simpl; lia | exact Hctor_r].
  destruct (DistributedFrameBuffer_tiles_wf (onRank r cfg) td0' st_r Htile)
    as (_ & Hlen_r & _); [simpl; lia | exact Hheight | exact Hctor_r |].
  rewrite <- Hlen_r. unfold mine_at.
  rewrite (countb_lookupZ (mine (onRank r cfg)) (allTiles st_r)).
  assert (Hcount : countb (fun td => td_ownerID td =? r) (allTiles st)
                   = countb (mine (onRank r cfg)) (allTiles st_r)).
  { transitivity (countb (fun o => o =? r) (map td_ownerID (allTiles st)));
      [symmetry; exact (countb_map _ _ _)|].
    rewrite (owners_on_every_rank cfg r td0 td0' st st_r Htile Hwidth
               Hheight Hctor Hctor_r).
    exact (countb_map _ _ _). }
  rewrite Hcount. split; [f_equal; lia | reflexivity].
Qed.

End Ranks.

(** * Instances of the theorems *)

#[local] Existing Instance demoTiles.

Lemma ownerIDFromTileID_round_robin_witness :
  ownerIDFromTileID (demoConfig false 1) 5
  = inr (if masterIsAWorker (demoConfig false 1)
         then 5 mod world_size (demoConfig false 1)
         else globalRankFromWorkerRank
                (5 mod (world_size (demoConfig false 1) - 1)))
  /\ (masterIsAWorker (demoConfig false 1) = false ->
      ownerIDFromTileID (demoConfig false 1) 5 <> inr masterRank)
  /\ owners (@createTiles demoTiles (demoConfig false 1) demoTile0)
     = Some [1; 2; 1; 2; 1; 2]
  /\ owners (@createTiles demoTiles (demoConfig true 1) demoTile0)
     = Some [0; 1; 2; 0; 1; 2]
  /\ owned (@createTiles demoTiles (demoConfig false 0) demoTile0) = Some [].
Proof.
  apply (ownerIDFromTileID_round_robin (demoConfig false 1) 5);
    simpl; intros; lia.
Defined.

Lemma processMessage_MasterTile_clips_to_image_witness :
  let stores := masterTile_stores clipConfig clipMessage in
  (exists st',
     processMessage_MasterTile clipConfig clipMessage (demoDFB clipConfig)
     = (inr tt, st')
     /\ localFBonMaster st'
        = Some (foldl (applyStore clipConfig)
                  (mk_LocalFrameBuffer ∅ ∅ ∅ ∅) stores))
  /\ Forall (fun s => store_x s < vx (numPixels clipConfig)
                      /\ store_y s < vy (numPixels clipConfig)) stores.
Proof.
  apply (@processMessage_MasterTile_clips_to_image demoTiles clipConfig
           clipMessage (demoDFB clipConfig) (mk_LocalFrameBuffer ∅ ∅ ∅ ∅)).
  reflexivity.
Defined.

(** Of the four pixels of the tile at (2, 2) of the 3x3 image only the one
    inside the image is stored. *)
Example masterTile_stores_on_the_border :
  @masterTile_stores demoTiles clipConfig clipMessage
  = [StoreColor 2 2 (Color_uint32 100); StoreDepth 2 2 (S754_zero false)].
Proof. reflexivity. Qed.

Lemma misuse_raises_runtime_error_witness :
  fst (mapBuffer (demoDFB (demoConfig false 1)))
  = inl (RuntimeError
      "#osp:mpi:dfb: tried to 'ospMap()' a frame buffer that doesn't have a host-side correspondence")
  /\ fst (unmap (demoDFB (demoConfig false 1)))
     = inl (RuntimeError
         "#osp:mpi:dfb: tried to 'ospUnmap()' a frame buffer that doesn't have a host-side color buffer")
  /\ fst (startNewFrame (demoConfig false 1) (mk_BcastRoot [] []) inf
            (set_frameIsActive true (demoDFB (demoConfig false 1))))
     = inl (RuntimeError "Attempt to start frame on already started frame!")
  /\ fst (scheduledTask (demoConfig false 1)
            (mk_Message MASTER_WRITE_TILE_F32 None)
            (demoDFB (demoConfig false 1)))
     = inl (RuntimeError "#dfb: master msg should not be scheduled!").
Proof.
  apply (@misuse_raises_runtime_error demoTiles (demoConfig false 1)
           (demoDFB (demoConfig false 1))
           (set_frameIsActive true (demoDFB (demoConfig false 1)))
           (demoDFB (demoConfig false 1))
           (mk_BcastRoot [] []) inf (mk_Message MASTER_WRITE_TILE_F32 None)).
  - reflexivity.
  - reflexivity.
  - right. reflexivity.
Defined.

Lemma accumID_counts_the_query_witness :
  accumID (demoConfig false 1) (mk_vec2i 1 1) (demoDFB (demoConfig false 1))
  = (inr 0,
     set_tileInstances [0; 0; 0; 0; 1; 0] (demoDFB (demoConfig false 1))).
Proof.
  apply (@accumID_counts_the_query demoTiles (demoConfig false 1)
           (mk_vec2i 1 1) (demoDFB (demoConfig false 1)) 0 0).
  - reflexivity.
  - reflexivity.
  - unfold INT32_MAX. lia.
Defined.

Lemma setTile_on_inactive_frame_witness :
  setTile (demoConfig false 1) (demoTile 0 0) (demoDFB (demoConfig false 1))
  = (inl (RuntimeError "#dfb: cannot setTile if frame is inactive!"),
     demoDFB (demoConfig false 1)).
Proof.
  apply (@setTile_on_inactive_frame demoTiles (demoConfig false 1)
           (mk_vec2i 0 0) (demoDFB (demoConfig false 1))
           (@mk_TileDesc demoTiles (mk_vec2i 0 0) 0 1 (Some 0))).
  - reflexivity.
  - reflexivity.
  - reflexivity.
Defined.

(** The tiles that the constructor lays out are well formed. *)
Lemma demoDFB_tiles_wf :
  tiles_wf (demoConfig false 1) (demoDFB (demoConfig false 1)).
Proof.
  split.
  - repeat (constructor; [do 2 eexists; split; reflexivity|]). constructor.
  - vm_compute. discriminate.
Defined.

Lemma delayed_messages_are_replayed_in_order_witness :
  let cfg := demoConfig false 1 in
  let msgs := [writeMessage 0 0; writeMessage 4 0] in
  let buffered := forM_ msgs incoming (demoDFB cfg) in
  buffered
  = (inr tt,
     set_delayedMessage (delayedMessage (demoDFB cfg) ++ msgs) (demoDFB cfg))
  /\ exists st',
       startNewFrame cfg varianceRoot err_3_64 (snd buffered) = (inr tt, st')
       /\ scheduled st'
          = scheduled (demoDFB cfg) ++ (delayedMessage (demoDFB cfg) ++ msgs)
       /\ delayedMessage st' = [].
Proof.
  apply (@delayed_messages_are_replayed_in_order demoTiles
           (demoConfig false 1) [writeMessage 0 0; writeMessage 4 0]
           (demoDFB (demoConfig false 1)) varianceRoot err_3_64).
  - reflexivity.
  - exact demoDFB_tiles_wf.
Defined.

(** The two buffered messages are scheduled in their order of arrival. *)
Example delayed_messages_scheduled_fifo :
  scheduled
    (runOps (demoConfig false 1)
       [Op_incoming (writeMessage 0 0); Op_incoming (writeMessage 4 0);
        Op_startNewFrame varianceRoot err_3_64]
       (demoDFB (demoConfig false 1)))
  = [writeMessage 0 0; writeMessage 4 0].
Proof. vm_compute. reflexivity. Qed.

Lemma startNewFrame_counts_converged_tiles_of_rank_witness :
  let cfg := demoConfig false 1 in
  exists st',
    startNewFrame cfg varianceRoot inf (demoDFB cfg) = (inr tt, st')
    /\ numTilesCompletedThisFrame st'
       = (if hasAccumBuffer cfg
          then convergedTilesOfRank cfg st' inf else 0)
    /\ (frameIsDone st' = true
        <-> numTilesCompletedThisFrame st' = expectedTiles cfg st')
    /\ frameIsActive st' = negb (frameIsDone st')
    /\ (inf = inf ->
        hasAccumBuffer cfg = true ->
        IamAWorker cfg || IamTheMaster cfg && masterIsAWorker cfg = true ->
        myTiles_complete cfg (demoDFB cfg) ->
        Forall (fun e => e <> S754_nan) (tileErrorBuffer (demoDFB cfg)) ->
        Forall (fun e => e <> S754_nan) (root_tileErrorBuffer varianceRoot) ->
        frameIsDone st' = true /\ frameIsActive st' = false).
Proof.
  apply (@startNewFrame_counts_converged_tiles_of_rank demoTiles
           (demoConfig false 1) varianceRoot inf
           (demoDFB (demoConfig false 1))).
  - reflexivity.
  - exact demoDFB_tiles_wf.
Defined.

(** With threshold [+inf] the worker counts its three tiles and closes the
    frame; with threshold 3/64 and the errors of [varianceRoot] it counts
    its tiles 0 and 4 and the frame stays open. *)
Example startNewFrame_adaptive_termination :
  (let st' := snd (startNewFrame (demoConfig false 1) varianceRoot inf
                     (demoDFB (demoConfig false 1))) in
   (numTilesCompletedThisFrame st', frameIsDone st', frameIsActive st')
   = (3, true, false))
  /\ (let st' := snd (startNewFrame varianceConfig varianceRoot err_3_64
                        (demoDFB varianceConfig)) in
      (numTilesCompletedThisFrame st', frameIsDone st', frameIsActive st')
      = (2, false, true)).
Proof. split; vm_compute; reflexivity. Qed.

(** C5 as stated fails: on the worker without an accumulation buffer the
    tile of the rank has a stored error at most the threshold [+inf], yet
    [startNewFrame] counts no tile and returns with the frame open. *)
Lemma startNewFrame_without_accum_buffer_counterexample :
  let r := startNewFrame noAccumConfig (mk_BcastRoot [] [0]) inf
             (demoDFB noAccumConfig) in
  fst r = inr tt
  /\ IamAWorker noAccumConfig = true
  /\ mine_at noAccumConfig (snd r) 0 = true
  /\ SFleb (tileError noAccumConfig (snd r) (mk_vec2i 0 0)) inf = true
  /\ numTilesCompletedThisFrame (snd r) = 0
  /\ frameIsDone (snd r) <> true
  /\ frameIsActive (snd r) = true.
Proof. vm_compute. repeat split. discriminate. Qed.

Lemma endFrame_increments_accumID_witness :
  let cfg := demoConfig false 1 in
  let st1 := snd (beginFrame (demoDFB cfg)) in
  let st2 := runOps cfg demoFrameOps st1 in
  tileAccumID st1 = tileAccumID (demoDFB cfg)
  /\ tileAccumID st2 = tileAccumID (demoDFB cfg)
  /\ exists err st3,
       endFrame cfg inf st2 = (inr err, st3)
       /\ lookupZ (tileAccumID st3) 4 = Some (0 + 1).
Proof.
  apply (@endFrame_increments_accumID demoTiles (demoConfig false 1)
           demoFrameOps
           (demoDFB (demoConfig false 1)) inf 4 0).
  - vm_compute. discriminate.
  - vm_compute. discriminate.
  - vm_compute. split; [discriminate | reflexivity].
  - reflexivity.
  - unfold INT32_MAX. lia.
Defined.

(** On the demo framebuffer a whole frame takes every counter from 0 to 1. *)
Example endFrame_after_a_frame :
  tileAccumID
    (snd (endFrame (demoConfig false 1) inf
            (runOps (demoConfig false 1)
               [Op_startNewFrame varianceRoot err_3_64;
                Op_setTile (demoTile 0 0); Op_accumID (mk_vec2i 1 1)]
               (snd (beginFrame (demoDFB (demoConfig false 1)))))))
  = [1; 1; 1; 1; 1; 1].
Proof. vm_compute. reflexivity. Qed.

(** ** Instances of the further properties *)

Lemma setTile_forwards_to_owner_witness :
  let cfg := demoConfig false 1 in
  let msg := writeMessage 2 0 in
  setTile cfg (demoTile 2 0) (demoDFB cfg)
  = (inr tt, set_sent (sent (demoDFB cfg) ++ [(2, msg)]) (demoDFB cfg))
  /\ forall (cfg' : Config) (st' : DFB),
       scheduledTask cfg' msg st'
       = processMessage_WriteTile cfg' (mk_vec2i 2 0) (demoTile 2 0) st'.
Proof.
  apply (@setTile_forwards_to_owner demoTiles (demoConfig false 1)
           (demoTile 2 0) (demoDFB (demoConfig false 1))
           (@mk_TileDesc demoTiles (mk_vec2i 2 0) 1 2 None)).
  - reflexivity.
  - reflexivity.
Defined.


Lemma processMessage_MasterTile_writes_only_present_channels_witness :
  hasDepthBuffer clipConfig = true
  /\ has_tag (m_command clipMessage) MASTER_TILE_HAS_DEPTH = true.
Proof.
  apply (@processMessage_MasterTile_writes_only_present_channels demoTiles
           clipConfig clipMessage (StoreDepth 2 2 (S754_zero false))).
  vm_compute. right. left. reflexivity.
Defined.

Lemma gatherFinalTiles_assembles_all_slots_witness :
  exists st',
    gatherFinalTiles masterConfig (replicate 6 clipMessage)
      (demoDFB masterConfig) = (inr tt, st')
    /\ localFBonMaster st'
       = Some (foldl (applyStore masterConfig) (mk_LocalFrameBuffer ∅ ∅ ∅ ∅)
                 (gathered_stores masterConfig (replicate 6 clipMessage)
                    (seqZ 0 (getTotalTiles masterConfig)))).
Proof.
  apply (@gatherFinalTiles_assembles_all_slots demoTiles masterConfig
           (replicate 6 clipMessage) (demoDFB masterConfig)
           (mk_LocalFrameBuffer ∅ ∅ ∅ ∅)).
  - reflexivity.
  - discriminate.
  - reflexivity.
  - intros t Ht. change (getTotalTiles masterConfig) with 6 in Ht.
    exists clipMessage. split; [|reflexivity].
    unfold lookupZ. destruct (Z.ltb_spec t 0); [lia|].
    apply lookup_replicate_2. lia.
Defined.

Lemma gatherFinalTiles_rejects_foreign_slot_witness :
  fst (gatherFinalTiles masterConfig
         [clipMessage; clipMessage; zeroSlot; clipMessage; clipMessage;
          clipMessage]
         (demoDFB masterConfig))
  = inl (RuntimeError "#dfb: non-master tile in final gather!").
Proof.
  apply (@gatherFinalTiles_rejects_foreign_slot demoTiles masterConfig
           [clipMessage; clipMessage; zeroSlot; clipMessage; clipMessage;
            clipMessage]
           (demoDFB masterConfig) 2 zeroSlot).
  - reflexivity.
  - discriminate.
  - eexists. reflexivity.
  - vm_compute. discriminate.
  - vm_compute. split; [discriminate | reflexivity].
  - reflexivity.
  - reflexivity.
Defined.

Lemma accumID_queries_are_counted_witness :
  let cfg := demoConfig false 1 in
  let st' := runOps cfg (replicate 3 (Op_accumID (mk_vec2i 1 1)))
               (demoDFB cfg) in
  lookupZ (tileInstances st') 4 = Some (0 + Z.of_nat 3)
  /\ (forall t, t <> 4 ->
      lookupZ (tileInstances st') t
      = lookupZ (tileInstances (demoDFB cfg)) t)
  /\ tileAccumID st' = tileAccumID (demoDFB cfg).
Proof.
  apply (@accumID_queries_are_counted demoTiles (demoConfig false 1)
           (mk_vec2i 1 1) 3 (demoDFB (demoConfig false 1)) 0).
  - reflexivity.
  - reflexivity.
  - simpl. lia.
Defined.

Lemma endFrame_resets_tileInstances_witness :
  let cfg := demoConfig false 1 in
  let st := runOps cfg (replicate 3 (Op_accumID (mk_vec2i 1 1)))
              (demoDFB cfg) in
  exists err st',
    endFrame cfg inf st = (inr err, st')
    /\ lookupZ (tileInstances st') 4 = Some 0
    /\ length (tileInstances st') = length (tileInstances st)
    /\ (IamTheMaster cfg = false -> err = inf).
Proof.
  apply (@endFrame_resets_tileInstances demoTiles (demoConfig false 1) inf
           (runOps (demoConfig false 1)
              (replicate 3 (Op_accumID (mk_vec2i 1 1)))
              (demoDFB (demoConfig false 1))) 4).
  - vm_compute. discriminate.
  - vm_compute. discriminate.
  - vm_compute. split; [discriminate | reflexivity].
Defined.


Lemma demoDFB_myTiles_complete :
  myTiles_complete (demoConfig false 1) (demoDFB (demoConfig false 1)).
Proof. reflexivity. Defined.

Lemma frames_keep_tiles_well_formed_witness :
  let cfg := demoConfig false 1 in
  let st' := runFrames cfg demoFrames (demoDFB cfg) in
  tiles_wf cfg st'
  /\ myTiles_complete cfg st'
  /\ (frameIsActive st' = false ->
      fst (startNewFrame cfg varianceRoot err_3_64 st') = inr tt).
Proof.
  apply (@frames_keep_tiles_well_formed demoTiles (demoConfig false 1)
           demoFrames (demoDFB (demoConfig false 1)) varianceRoot err_3_64).
  - exact demoDFB_tiles_wf.
  - exact demoDFB_myTiles_complete.
Defined.

Lemma frames_keep_pending_vectors_aligned_witness :
  length (tileIDs (runFrames noneConfig demoFrames (demoDFB noneConfig)))
  = length (tileErrors (runFrames noneConfig demoFrames (demoDFB noneConfig))).
Proof.
  apply (@frames_keep_pending_vectors_aligned demoTiles noneConfig demoFrames
           (demoDFB noneConfig)).
  reflexivity.
Defined.

(** In the error-only format the tile that completes in the second frame
    of [demoFrames] leaves one id and one error. *)
Example pending_vectors_after_two_frames :
  let st' := runFrames noneConfig demoFrames (demoDFB noneConfig) in
  (tileIDs st', length (tileErrors st'))
  = ([mk_vec2i 0 0], 1%nat).
Proof. vm_compute. reflexivity. Qed.

Lemma frames_never_active_and_done_witness :
  let cfg := demoConfig false 1 in
  let st' := runOps cfg demoFrameOps (runFrames cfg demoFrames (demoDFB cfg)) in
  frameIsActive st' && frameIsDone st' = false.
Proof.
  apply (@frames_never_active_and_done demoTiles (demoConfig false 1)
           demoFrames demoFrameOps (demoDFB (demoConfig false 1))).
  reflexivity.
Defined.

Lemma mapBuffer_available_on_master_only_witness :
  let st' := runFrames masterConfig demoFrames (demoDFB masterConfig) in
  if IamTheMaster masterConfig
     && negb (fmt_is_none (colorBufferFormat masterConfig))
  then exists fb, mapBuffer st' = (inr fb, st') /\ unmap st' = (inr tt, st')
  else fst (mapBuffer st')
       = inl (RuntimeError
           "#osp:mpi:dfb: tried to 'ospMap()' a frame buffer that doesn't have a host-side correspondence").
Proof.
  apply (@mapBuffer_available_on_master_only demoTiles masterConfig demoTile0
           demoFrames (demoDFB masterConfig)).
  reflexivity.
Defined.

Lemma DistributedFrameBuffer_constructs_well_formed_witness :
  let cfg := demoConfig false 1 in
  tiles_wf cfg (demoDFB cfg)
  /\ myTiles_complete cfg (demoDFB cfg)
  /\ Z.of_nat (length (allTiles (demoDFB cfg))) = getTotalTiles cfg
  /\ lookupZ (tileAccumID (demoDFB cfg)) 5 = Some 0
  /\ lookupZ (tileInstances (demoDFB cfg)) 5 = Some 0
  /\ frameIsActive (demoDFB cfg) = false
  /\ frameIsDone (demoDFB cfg) = false.
Proof.
  apply (@DistributedFrameBuffer_constructs_well_formed demoTiles
           (demoConfig false 1) demoTile0 (demoDFB (demoConfig false 1)) 5).
  - simpl. lia.
  - simpl. lia.
  - simpl. lia.
  - simpl. lia.
  - reflexivity.
  - vm_compute. split; [discriminate | reflexivity].
Defined.

Lemma tile_id_and_origin_round_trip_witness :
  let cfg := demoConfig false 1 in
  exists td,
    lookupZ (allTiles (demoDFB cfg)) 4 = Some td
    /\ td_tileID td = 4
    /\ td_begin td
       = mk_vec2i (4 mod vx (numTiles cfg) * TILE_SIZE)
                  (4 / vx (numTiles cfg) * TILE_SIZE)
    /\ ownerIDFromTileID cfg 4 = inr (td_ownerID td)
    /\ getTileIDof cfg (td_begin td) = 4
    /\ getTileDescFor cfg (td_begin td) (demoDFB cfg)
       = (inr (Z.to_nat 4, td), demoDFB cfg).
Proof.
  apply (@tile_id_and_origin_round_trip demoTiles (demoConfig false 1)
           demoTile0 (demoDFB (demoConfig false 1)) 4).
  - simpl. lia.
  - simpl. lia.
  - simpl. lia.
  - reflexivity.
  - vm_compute. split; [discriminate | reflexivity].
  - vm_compute. reflexivity.
Defined.

(** Tile 4 of the 3x2 grid starts at pixel (2, 2). *)
Example tile_4_origin :
  td_begin <$> lookupZ (allTiles (demoDFB (demoConfig false 1))) 4
  = Some (mk_vec2i 2 2).
Proof. reflexivity. Qed.

Lemma frames_advance_accumID_witness :
  lookupZ (tileAccumID (runFrames (demoConfig false 1) demoFrames
                          (demoDFB (demoConfig false 1)))) 3
  = Some (0 + Z.of_nat (length demoFrames)).
Proof.
  apply (@frames_advance_accumID demoTiles (demoConfig false 1) demoFrames
           (demoDFB (demoConfig false 1)) 3 0).
  - vm_compute. discriminate.
  - vm_compute. discriminate.
  - vm_compute. split; [discriminate | reflexivity].
  - reflexivity.
  - vm_compute. split; [discriminate | reflexivity].
Defined.

Lemma completed_tile_reports_its_grid_position_witness :
  let st := runOps noneConfig [] (runFrames noneConfig demoFrames
                                    (demoDFB noneConfig)) in
  exists st' err,
    tileIsCompleted noneConfig (Z.to_nat 2) st = (inr tt, st')
    /\ tileIDs st'
       = tileIDs st ++ [mk_vec2i (2 mod vx (numTiles noneConfig))
                                 (2 / vx (numTiles noneConfig))]
    /\ tileErrors st' = tileErrors st ++ [err]
    /\ numTilesCompletedThisFrame st' = numTilesCompletedThisFrame st + 1.
Proof.
  apply (@completed_tile_reports_its_grid_position demoTiles noneConfig
           demoTile0 demoFrames [] (demoDFB noneConfig) 2).
  - simpl. lia.
  - simpl. lia.
  - simpl. lia.
  - vm_compute. reflexivity.
  - reflexivity.
  - vm_compute. split; [discriminate | reflexivity].
  - vm_compute. reflexivity.
Defined.

Lemma last_completed_tile_closes_the_frame_witness :
  (forall l1 l2, [0; 2; 4]%nat = l1 ++ l2 -> l2 <> [] ->
     exists st1,
       completeTiles noneConfig l1 activeNoneDFB = (inr tt, st1)
       /\ frameIsActive st1 = true /\ frameIsDone st1 = false
       /\ fst (waitUntilFinished noneConfig [] [] st1)
          = inl (Blocked "waiting on frameDoneCond"))
  /\ exists st',
       completeTiles noneConfig [0; 2; 4]%nat activeNoneDFB = (inr tt, st')
       /\ frameIsActive st' = false /\ frameIsDone st' = true
       /\ fst (waitUntilFinished noneConfig [] [] st') = inr tt.
Proof.
  apply (@last_completed_tile_closes_the_frame demoTiles noneConfig
           [0; 2; 4]%nat activeNoneDFB [] []).
  - reflexivity.
  - repeat constructor; do 2 eexists; split; vm_compute; reflexivity.
  - vm_compute. reflexivity.
  - vm_compute. reflexivity.
  - discriminate.
  - vm_compute. reflexivity.
Defined.

(** The three tiles of rank 1 complete in the order 4, 0, 2: the frame is
    done after the third and not before. *)
Example frame_done_after_third_tile :
  let done l := frameIsDone (snd (completeTiles noneConfig l activeNoneDFB)) in
  (done [4%nat], done [4; 0]%nat, done [4; 0; 2]%nat) = (false, false, true).
Proof. vm_compute. reflexivity. Qed.

Lemma completed_tiles_are_packed_in_the_gather_buffer_witness :
  let st := snd (startNewFrame plainConfig freshRoot err_3_64
                   (demoDFB plainConfig)) in
  exists st',
    completeTiles plainConfig [4; 0; 2]%nat st = (inr tt, st')
    /\ nextTileWrite st' = Z.of_nat (length [4; 0; 2]%nat) * 32
    /\ gatherOffsets st'
       = gatherOffsets st
         ++ map (fun j => j * 32)
                (seqZ 0 (Z.of_nat (length [4; 0; 2]%nat)))
    /\ nextTileWrite st' <= tileGatherBuffer_size st'.
Proof.
  apply (@completed_tiles_are_packed_in_the_gather_buffer demoTiles
           plainConfig freshRoot err_3_64 [4; 0; 2]%nat
           (demoDFB plainConfig) _ 32).
  - reflexivity.
  - reflexivity.
  - reflexivity.
  - repeat constructor; do 2 eexists; split; vm_compute; reflexivity.
  - vm_compute. lia.
Defined.

(** The three tiles of rank 1 land at the offsets 0, 32 and 64 of a buffer
    of 96 bytes. *)
Example gather_buffer_of_three_tiles :
  let st' := snd (completeTiles plainConfig [4; 0; 2]%nat
                    (snd (startNewFrame plainConfig freshRoot err_3_64
                            (demoDFB plainConfig)))) in
  (gatherOffsets st', nextTileWrite st', tileGatherBuffer_size st')
  = ([0; 32; 64], 96, 96).
Proof. vm_compute. reflexivity. Qed.


(** With depth the messages have 64 bytes and the slots 48: the first two
    tiles are written at 0 and 64, the third would end at 192 in a buffer
    of 144 bytes. *)
Example gather_buffer_with_depth :
  let st := snd (startNewFrame (demoConfig false 1) freshRoot err_3_64
                   (demoDFB (demoConfig false 1))) in
  let st2 := snd (completeTiles (demoConfig false 1) [4; 0]%nat st) in
  (gatherOffsets st2, nextTileWrite st2, tileGatherBuffer_size st2,
   fst (tileIsCompleted (demoConfig false 1) 2%nat st2))
  = ([0; 64], 128, 144,
     inl (UndefinedBehaviour "memcpy past the end of tileGatherBuffer")).
Proof. vm_compute. reflexivity. Qed.

Lemma idle_master_never_finishes_a_frame_witness :
  let st := runOps masterConfig [Op_startNewFrame freshRoot inf]
              (runFrames masterConfig demoFrames (demoDFB masterConfig)) in
  myTiles st = []
  /\ numTilesCompletedThisFrame st = 0
  /\ frameIsDone st = false
  /\ fst (waitUntilFinished masterConfig (replicate 6 clipMessage) [] st)
     = inl (Blocked "waiting on frameDoneCond").
Proof.
  apply (@idle_master_never_finishes_a_frame demoTiles masterConfig
           demoTile0 demoFrames [Op_startNewFrame freshRoot inf]
           (demoDFB masterConfig) (replicate 6 clipMessage) []).
  - simpl. lia.
  - simpl. lia.
  - simpl. lia.
  - vm_compute. split; reflexivity.
  - reflexivity.
  - reflexivity.
  - simpl. lia.
  - vm_compute. reflexivity.
Defined.

Lemma setFrameMode_rebuilds_the_same_layout_witness :
  let cfg := demoConfig false 1 in
  let st := runOps cfg [] (runFrames cfg demoFrames (demoDFB cfg)) in
  exists st',
    setFrameMode cfg demoClasses WRITE_MULTIPLE Z_COMPOSITE st
    = (inr Z_COMPOSITE, st')
    /\ (WRITE_MULTIPLE = Z_COMPOSITE -> st' = st)
    /\ Forall2 same_desc (allTiles st) (allTiles st')
    /\ myTiles st' = myTiles st
    /\ tileAccumID st' = tileAccumID st
    /\ tileInstances st' = tileInstances st
    /\ frameIsActive st' = frameIsActive st
    /\ frameIsDone st' = frameIsDone st
    /\ (WRITE_MULTIPLE <> Z_COMPOSITE ->
        Forall (fun td =>
                  forall ts, td_data td = Some ts ->
                    ts = createTile cfg demoClasses Z_COMPOSITE (td_begin td)
                           (td_tileID td) (wrap_size_t (world_rank cfg)))
               (allTiles st')).
Proof.
  apply (@setFrameMode_rebuilds_the_same_layout demoTiles
           (demoConfig false 1) demoClasses WRITE_MULTIPLE Z_COMPOSITE
           demoTile0 demoFrames [] (demoDFB (demoConfig false 1))).
  vm_compute. reflexivity.
Defined.

(** On rank 1 of 3 the tiles 0, 2 and 4 become z-compositing tiles for two
    workers; the accumulation counters keep the two frames. *)
Example setFrameMode_after_two_frames :
  let cfg := demoConfig false 1 in
  let st := runFrames cfg demoFrames (demoDFB cfg) in
  let st' := snd (setFrameMode cfg demoClasses WRITE_MULTIPLE Z_COMPOSITE st) in
  (map td_data (allTiles st'), myTiles st', tileAccumID st')
  = ([Some 22; None; Some 22; None; Some 22; None], [0; 2; 4]%nat,
     [2; 2; 2; 2; 2; 2]).
Proof. vm_compute. reflexivity. Qed.

Lemma gather_regions_tile_the_receive_buffer_witness :
  let st := demoDFB masterConfig in
  exists counts offsets,
    tileBytesExpected masterConfig 48 (allTiles st) = inr counts
    /\ processOffsets 0 counts
       = (offsets, Z.of_nat (length (allTiles st)) * 48)
    /\ lookupZ counts 2
       = Some (48 * countb (fun td => td_ownerID td =? 2) (allTiles st))
    /\ lookupZ offsets 2 = Some (sumZ (take (Z.to_nat 2) counts))
    /\ sumZ (take (Z.to_nat 2) counts)
       + 48 * countb (fun td => td_ownerID td =? 2) (allTiles st)
       = sumZ (take (S (Z.to_nat 2)) counts)
    /\ sumZ (take (S (Z.to_nat 2)) counts)
       <= Z.of_nat (length (allTiles st)) * 48.
Proof.
  apply (@gather_regions_tile_the_receive_buffer demoTiles masterConfig
           demoTile0 (demoDFB masterConfig) 48 2).
  - simpl. lia.
  - simpl. lia.
  - simpl. lia.
  - simpl. lia.
  - simpl. lia.
  - vm_compute. reflexivity.
  - reflexivity.
  - vm_compute. reflexivity.
  - simpl. lia.
Defined.

(** On 3 ranks with an idle master the 6 tiles of 48 bytes are gathered as
    0 bytes of rank 0, then 144 bytes of rank 1 at offset 0 and 144 bytes of
    rank 2 at offset 144. *)
Example gather_layout_of_three_ranks :
  (tileBytesExpected masterConfig 48 (allTiles (demoDFB masterConfig)),
   processOffsets 0 [0; 144; 144])
  = (inr [0; 144; 144], ([0; 0; 144], 288)).
Proof. vm_compute. reflexivity. Qed.

Lemma master_expects_what_each_rank_gathers_witness :
  let st_r' :=
    snd (startNewFrame (onRank 1 masterConfig) freshRoot err_3_64
           (runFrames (onRank 1 masterConfig) demoFrames
              (demoDFB (onRank 1 masterConfig)))) in
  exists counts,
    tileBytesExpected masterConfig 48 (allTiles (demoDFB masterConfig))
    = inr counts
    /\ lookupZ counts 1 = Some (tileGatherBuffer_size st_r')
    /\ tileGatherBuffer_size st_r'
       = Z.of_nat (length (myTiles (demoDFB (onRank 1 masterConfig)))) * 48.
Proof.
  apply (@master_expects_what_each_rank_gathers demoTiles masterConfig
           demoTile0 demoTile0 1 demoFrames freshRoot err_3_64
           (demoDFB masterConfig) (demoDFB (onRank 1 masterConfig)) 48).
  - simpl. lia.
  - simpl. lia.
  - simpl. lia.
  - simpl. lia.
  - simpl. lia.
  - simpl. lia.
  - reflexivity.
  - vm_compute. reflexivity.
  - vm_compute. reflexivity.
  - vm_compute. reflexivity.
Defined.

Lemma forwarded_tile_is_processed_like_a_local_one_witness :
  let cfg := demoConfig false 1 in
  fst (incoming (writeMessage 0 0) activeDemoDFB) = inr tt
  /\ runScheduled cfg (snd (incoming (writeMessage 0 0) activeDemoDFB))
     = setTile cfg (demoTile 0 0) activeDemoDFB.
Proof.
  apply (@forwarded_tile_is_processed_like_a_local_one demoTiles
           (demoConfig false 1) (demoTile 0 0) activeDemoDFB
           (@mk_TileDesc demoTiles (mk_vec2i 0 0) 0 1 (Some 0))).
  - reflexivity.
  - vm_compute. reflexivity.
  - reflexivity.
  - vm_compute. reflexivity.
  - vm_compute. reflexivity.
Defined.

Lemma clear_restarts_the_accumulation_witness :
  let cfg := demoConfig false 1 in
  let st := runFrames cfg demoFrames (demoDFB cfg) in
  exists st1,
    clear cfg demoClear 5 st = (inr tt, st1)
    /\ Forall2 same_desc (allTiles st) (allTiles st1)
    /\ myTiles st1 = myTiles st
    /\ tileInstances st1 = tileInstances st
    /\ if hasAccumBuffer cfg && has_tag 5 (OSP_FB_ACCUM demoClear)
       then lookupZ (tileAccumID st1) 3 = Some 0
            /\ fst (accumID cfg (mk_vec2i 3 0) st1) = inr 0
       else tileAccumID st1 = tileAccumID st
            /\ tileErrorBuffer st1 = tileErrorBuffer st.
Proof.
  apply (@clear_restarts_the_accumulation demoTiles (demoConfig false 1)
           demoClear 5 demoTile0 demoFrames (demoDFB (demoConfig false 1)) 3).
  - simpl. lia.
  - simpl. lia.
  - simpl. lia.
  - vm_compute. reflexivity.
  - vm_compute. split; [discriminate | reflexivity].
  - vm_compute. reflexivity.
Defined.

(** After two frames the counters are 2; [clear] with the color and
    accumulation flags takes them back to 0, with the color flag alone it
    leaves them. *)
Example clear_after_two_frames :
  let cfg := demoConfig false 1 in
  let st := runFrames cfg demoFrames (demoDFB cfg) in
  (tileAccumID st,
   tileAccumID (snd (clear cfg demoClear 5 st)),
   tileAccumID (snd (clear cfg demoClear 1 st)))
  = ([2; 2; 2; 2; 2; 2], [0; 0; 0; 0; 0; 0], [2; 2; 2; 2; 2; 2]).
Proof. vm_compute. reflexivity. Qed.
